(** * NL-to-SQL banking assistant: the query-safety pipeline

    A shallow embedding of the decision logic of
    [Agent/sql_validator.py] (class [SQLValidator]) and
    [Agent/gemini_agent.py] (class [GeminiAgent]: the ambiguity
    classifier and the SQL text corrections), followed by the properties
    of the specification that concern them. The later modules embed the
    rest of the agent (prompt building, generation, fallback queries,
    [process_query]), [process_user_query] of [UI/components.py] and
    [handle_user_query] of [app.py], with the model and the database as
    parameters, and state what the code guarantees beyond the
    specification.

    Texts are Python [str] values restricted to the 8-bit characters
    (U+0000 to U+00FF). On these, case mapping, the word-character class
    [\w] and the whitespace class [\s] are those of Python 3 for [str]
    values and [str] patterns, with one reserve: the upper-case forms of
    U+00B5 and U+00FF have more than 8 bits, see [Py.upper]. *)

From Stdlib Require Import String Ascii List Bool Arith Lia.
Import ListNotations.
Open Scope string_scope.
Open Scope bool_scope.

(** ** Python string primitives *)

Module Py.

Definition code (c : ascii) : nat := nat_of_ascii c.

Definition between (lo hi : nat) (c : ascii) : bool :=
  (lo <=? code c)%nat && (code c <=? hi)%nat.

(** The characters that [str.lower] changes: A-Z, the accented capitals
    from U+00C0 to U+00D6 and from U+00D8 to U+00DE. *)
Definition is_upper_char (c : ascii) : bool :=
  between 65 90 c || between 192 214 c || between 216 222 c.

(** The characters that [str.upper] maps to another 8-bit character:
    a-z, the accented small letters from U+00E0 to U+00F6 and from U+00F8
    to U+00FE. *)
Definition is_lower_char (c : ascii) : bool :=
  between 97 122 c || between 224 246 c || between 248 254 c.

Definition is_digit_char (c : ascii) : bool := between 48 57 c.

(** [\w] in a [str] pattern: the characters for which [str.isalnum] holds,
    and the underscore. Above 127 these are U+00AA, U+00B2, U+00B3,
    U+00B5, U+00B9, U+00BA, the three fractions, and every letter from
    U+00C0 to U+00FF (the signs U+00D7 and U+00F7 are not letters). *)
Definition is_word_char (c : ascii) : bool :=
  is_digit_char c || between 65 90 c || (code c =? 95)%nat
  || between 97 122 c
  || (code c =? 170)%nat || between 178 179 c || (code c =? 181)%nat
  || between 185 186 c || between 188 190 c
  || between 192 214 c || between 216 246 c || between 248 255 c.

(** [\s], [str.isspace] and the characters that [str.split] and
    [str.strip] take for whitespace: TAB, LF, VT, FF, CR, FS, GS, RS, US,
    SPACE, NEL (U+0085) and the no-break space (U+00A0). *)
Definition is_space (c : ascii) : bool :=
  between 9 13 c || between 28 32 c
  || (code c =? 133)%nat || (code c =? 160)%nat.

Definition upper_char (c : ascii) : ascii :=
  if is_lower_char c then ascii_of_nat (code c - 32) else c.

Definition lower_char (c : ascii) : ascii :=
  if is_upper_char c then ascii_of_nat (code c + 32) else c.

Fixpoint map_str (f : ascii -> ascii) (s : string) : string :=
  match s with
  | EmptyString => EmptyString
  | String c s' => String (f c) (map_str f s')
  end.

(** The sharp s, U+00DF: [str.upper] turns it into two letters. *)
Definition sharp_s : ascii := "223"%char.

(** [s.upper()]. Two 8-bit characters have their upper-case form
    outside the 8-bit range, U+00B5 (U+039C) and U+00FF (U+0178); they
    are kept, and stand for these forms: like them they are word
    characters and differ from every ASCII character, which is all that
    the program, which only searches upper-cased text for ASCII words,
    can observe. *)
Fixpoint upper (s : string) : string :=
  match s with
  | EmptyString => EmptyString
  | String c s' =>
      if Ascii.eqb c sharp_s then String "S" (String "S" (upper s'))
      else String (upper_char c) (upper s')
  end.

(** The text has no sharp s: its upper-case form has the same length
    and is made character by character. *)
Fixpoint sharp_free (s : string) : bool :=
  match s with
  | EmptyString => true
  | String c s' => negb (Ascii.eqb c sharp_s) && sharp_free s'
  end.

(** [s.lower()]. *)
Definition lower : string -> string := map_str lower_char.

(** Character comparison: exact, and under [re.IGNORECASE]. *)
Definition same : ascii -> ascii -> bool := Ascii.eqb.
Definition same_ci (a b : ascii) : bool :=
  Ascii.eqb (lower_char a) (lower_char b).

Fixpoint prefix_by (eqc : ascii -> ascii -> bool) (p s : string) : bool :=
  match p, s with
  | EmptyString, _ => true
  | String _ _, EmptyString => false
  | String a p', String b s' => eqc a b && prefix_by eqc p' s'
  end.

(** [s.startswith(p)]. *)
Definition startswith (s p : string) : bool := prefix_by same p s.

(** [s[n:]] and [s[:n]] for [n >= 0]. *)
Fixpoint drop (n : nat) (s : string) : string :=
  match n, s with
  | 0, _ => s
  | S _, EmptyString => EmptyString
  | S n', String _ s' => drop n' s'
  end.

Fixpoint take (n : nat) (s : string) : string :=
  match n, s with
  | 0, _ => EmptyString
  | S _, EmptyString => EmptyString
  | S n', String c s' => String c (take n' s')
  end.

(** [s.find(p)]: the offset of the first occurrence, [None] for [-1]. *)
Fixpoint find_by (eqc : ascii -> ascii -> bool) (p s : string) : option nat :=
  if prefix_by eqc p s then Some 0
  else match s with
       | EmptyString => None
       | String _ s' => option_map S (find_by eqc p s')
       end.

Definition find (s p : string) : option nat := find_by same p s.

(** [p in s]. *)
Definition contains (s p : string) : bool :=
  match find s p with Some _ => true | None => false end.

(** Number of offsets at which [p] occurs in [s]. *)
Fixpoint count_occ (p s : string) : nat :=
  (if prefix_by same p s then 1 else 0) +
  match s with
  | EmptyString => 0
  | String _ s' => count_occ p s'
  end.

(** Leftmost, non-overlapping replacement of a non-empty pattern; one
    unit of fuel is spent per character consumed. *)
Fixpoint replace_fuel (eqc : ascii -> ascii -> bool) (fuel : nat)
         (old new s : string) : string :=
  match fuel with
  | 0 => s
  | S fuel' =>
      if prefix_by eqc old s
      then new ++ replace_fuel eqc fuel' old new (drop (String.length old) s)
      else match s with
           | EmptyString => EmptyString
           | String c s' => String c (replace_fuel eqc fuel' old new s')
           end
  end.

(** With an empty pattern Python inserts [new] before every character and
    at the end. *)
Fixpoint intersperse (new s : string) : string :=
  match s with
  | EmptyString => new
  | String c s' => new ++ String c (intersperse new s')
  end.

Definition replace_by (eqc : ascii -> ascii -> bool) (old new s : string)
  : string :=
  match old with
  | EmptyString => intersperse new s
  | String _ _ => replace_fuel eqc (String.length s) old new s
  end.

(** [s.replace(old, new)]. *)
Definition replace (s old new : string) : string := replace_by same old new s.

(** [re.compile(re.escape(old), re.IGNORECASE).sub(new, s)]: the pattern is
    a literal, matched without regard to case. *)
Definition sub_literal_ci (old new s : string) : string :=
  replace_by same_ci old new s.

(** [s.lstrip()], [s.rstrip()], [s.strip()]. *)
Fixpoint lstrip (s : string) : string :=
  match s with
  | EmptyString => EmptyString
  | String c s' => if is_space c then lstrip s' else s
  end.

Fixpoint rstrip_by (drop_it : ascii -> bool) (s : string) : string :=
  match s with
  | EmptyString => EmptyString
  | String c s' =>
      match rstrip_by drop_it s' with
      | EmptyString => if drop_it c then EmptyString else String c EmptyString
      | r => String c r
      end
  end.

Definition rstrip : string -> string := rstrip_by is_space.
Definition strip (s : string) : string := rstrip (lstrip s).

(** [s.rstrip(';')]. *)
Definition rstrip_semicolons : string -> string :=
  rstrip_by (fun c => Ascii.eqb c ";"%char).

(** [s.split()]: the maximal runs of non-whitespace characters. *)
Fixpoint split_aux (cur : option string) (s : string) : list string :=
  match s with
  | EmptyString => match cur with Some w => [w] | None => [] end
  | String c s' =>
      if is_space c
      then match cur with
           | Some w => w :: split_aux None s'
           | None => split_aux None s'
           end
      else split_aux
             (Some (match cur with
                    | Some w => w ++ String c EmptyString
                    | None => String c EmptyString
                    end)) s'
  end.

Definition split (s : string) : list string := split_aux None s.

(** [x] is a factor of [q]: a run of consecutive characters of [q]. *)
Definition factor (x q : string) : Prop := exists a b, q = a ++ x ++ b.

End Py.

(** ** Regular expressions of the source

    Each pattern of the source is embedded by a matcher written from the
    pattern. A whitespace run of a pattern is always followed by a literal
    that is not whitespace, so the greedy run is the only one that can
    lead to a match and the matchers need no backtracking. *)

Module Re.
Import Py.

(** [\b] after a run of word characters: end of text or a non-word
    character. *)
Definition end_boundary (s : string) : bool :=
  match s with
  | EmptyString => true
  | String c _ => negb (is_word_char c)
  end.

(** One alternative [w] of a group [(w1|...|wn)\b] at the current
    position. *)
Definition word_here (eqc : ascii -> ascii -> bool) (w s : string) : bool :=
  prefix_by eqc w s && end_boundary (drop (String.length w) s).

(** [re.search(r"\b(w1|...|wn)\b", s)] for words made of word characters;
    [prev_word] tells whether the character before the current position
    is a word character ([false] at the start of the text). *)
Fixpoint search_words (eqc : ascii -> ascii -> bool) (ws : list string)
         (prev_word : bool) (s : string) : bool :=
  (negb prev_word && existsb (fun w => word_here eqc w s) ws)
  || match s with
     | EmptyString => false
     | String c s' => search_words eqc ws (is_word_char c) s'
     end.

(** A matcher consumes a prefix of the text and returns what is left. *)
Definition matcher := string -> option string.

Definition lit (eqc : ascii -> ascii -> bool) (p : string) : matcher :=
  fun s => if prefix_by eqc p s then Some (drop (String.length p) s) else None.

(** [\s*] and [\s+]. *)
Definition ws0 : matcher := fun s => Some (lstrip s).
Definition ws1 : matcher :=
  fun s => match s with
           | String c _ => if is_space c then Some (lstrip s) else None
           | EmptyString => None
           end.

Definition seq (m1 m2 : matcher) : matcher :=
  fun s => match m1 s with Some r => m2 r | None => None end.

(** [(w1|...|wn)]: the first alternative that matches. *)
Fixpoint alt (eqc : ascii -> ascii -> bool) (ws : list string) : matcher :=
  fun s => match ws with
           | [] => None
           | w :: ws' => match lit eqc w s with
                         | Some r => Some r
                         | None => alt eqc ws' s
                         end
           end.

Definition matches (m : matcher) (s : string) : bool :=
  match m s with Some _ => true | None => false end.

(** [re.search] of a pattern that has no anchor and no leading [\b]. *)
Fixpoint search (m : matcher) (s : string) : bool :=
  matches m s
  || match s with
     | EmptyString => false
     | String _ s' => search m s'
     end.

(** [re.search] of a pattern that starts with [\b] followed by a word
    character. *)
Fixpoint search_b (m : matcher) (prev_word : bool) (s : string) : bool :=
  (negb prev_word && matches m s)
  || match s with
     | EmptyString => false
     | String c s' => search_b m (is_word_char c) s'
     end.

(** The text up to the end of the current line: [.] does not match a
    line feed. *)
Fixpoint line_of (s : string) : string :=
  match s with
  | EmptyString => EmptyString
  | String c s' =>
      if Ascii.eqb c "010"%char then EmptyString else String c (line_of s')
  end.

(** [re.sub(r"\bw\b", new, s, flags=re.IGNORECASE)] for a word [w] made of
    word characters: every whole-word occurrence, from left to right. *)
Fixpoint sub_word_fuel (fuel : nat) (w new : string) (prev_word : bool)
         (s : string) : string :=
  match fuel with
  | 0 => s
  | S fuel' =>
      if negb prev_word && word_here same_ci w s
      then new ++ sub_word_fuel fuel' w new true (drop (String.length w) s)
      else match s with
           | EmptyString => EmptyString
           | String c s' =>
               String c (sub_word_fuel fuel' w new (is_word_char c) s')
           end
  end.

Definition sub_word_ci (w new s : string) : string :=
  sub_word_fuel (String.length s) w new false s.

End Re.

(** ** The SQL validator ([Agent/sql_validator.py]) *)

Module Validator.
Import Py Re.

(** A sequence of [sql = sql.replace(old, new)] statements, in program
    order. *)
Definition replace_all (rules : list (string * string)) (sql : string)
  : string :=
  fold_left (fun s r => replace s (fst r) (snd r)) rules sql.

(** Fix 1 of [validate_query]: the [date] column. *)
Definition date_rules : list (string * string) :=
  [ ("ORDER BY date", "ORDER BY transaction_date");
    ("SELECT date", "SELECT transaction_date");
    ("SELECT *, date", "SELECT *, transaction_date");
    ("SELECT date,", "SELECT transaction_date,");
    (", date", ", transaction_date");
    (", date,", ", transaction_date,");
    (", date ", ", transaction_date ");
    (" date ", " transaction_date ");
    (" date,", " transaction_date,");
    (" date)", " transaction_date)");
    ("(date)", "(transaction_date)");
    (".date", ".transaction_date");
    ("date FROM", "transaction_date FROM");
    ("date WHERE", "transaction_date WHERE");
    ("date ORDER", "transaction_date ORDER");
    ("date LIMIT", "transaction_date LIMIT");
    ("transaction_date('now'", "date('now'");
    ("transaction_date(", "date(") ].

Definition fix_date_column (sql : string) : string :=
  if contains (lower sql) "no such column: date"
     || contains sql " date " || contains sql " date,"
  then replace_all date_rules sql
  else sql.

(** Fix 2: the [name] column of customers. *)
Definition name_rules : list (string * string) :=
  [ ("c.name", "c.first_name || ' ' || c.last_name");
    ("customers.name", "customers.first_name || ' ' || customers.last_name");
    ("SELECT name", "SELECT first_name || ' ' || last_name AS name");
    ("SELECT *, name", "SELECT *, first_name || ' ' || last_name AS name");
    (", name", ", first_name || ' ' || last_name AS name");
    (" name ", " first_name || ' ' || last_name ");
    (" name,", " first_name || ' ' || last_name AS name,");
    ("ORDER BY name", "ORDER BY first_name || ' ' || last_name");
    ("name LIKE", "first_name || ' ' || last_name LIKE");
    ("WHERE name", "WHERE first_name || ' ' || last_name") ].

Definition fix_name_column (sql : string) : string :=
  if contains (lower sql) "no such column: name"
     || contains sql "c.name" || contains sql "customers.name"
  then replace_all name_rules sql
  else sql.

(** Fix 3: the dictionary [ambiguous_fixes], in insertion order. *)
Definition ambiguous_fixes : list (string * string) :=
  [ ("SELECT type", "SELECT t.type");
    (", type,", ", t.type,");
    (", type ", ", t.type ");
    ("WHERE type", "WHERE t.type");
    ("ORDER BY type", "ORDER BY t.type");
    ("SELECT status", "SELECT t.status");
    (", status,", ", t.status,");
    (", status ", ", t.status ");
    ("WHERE status", "WHERE t.status");
    ("ORDER BY status", "ORDER BY t.status");
    ("SELECT id", "SELECT t.id") ].

Definition qualified_forms : list string :=
  ["t.type"; "t.status"; "t.id"; "a.type"; "a.status"; "c.id"].

(** [pattern.replace('SELECT ', '').replace('WHERE ', '')
     .replace('ORDER BY ', '').replace(', ', '').replace(' ', '')]. *)
Definition bare_column (pattern : string) : string :=
  replace (replace (replace (replace (replace pattern
    "SELECT " "") "WHERE " "") "ORDER BY " "") ", " "") " " "".

Definition apply_ambiguous_fix (sql : string) (rule : string * string)
  : string :=
  let (pattern, replacement) := rule in
  if contains sql pattern
     && negb (existsb (String.eqb (bare_column pattern)) qualified_forms)
  then replace sql pattern replacement
  else sql.

Definition fix_ambiguous_columns (sql : string) : string :=
  if contains (upper sql) " JOIN " || contains (upper sql) " FROM "
  then fold_left apply_ambiguous_fix ambiguous_fixes sql
  else sql.

(** Fix 4: the dictionary [table_fixes]. *)
Definition table_fixes : list (string * string) :=
  [ ("customer.name", "customer.first_name || ' ' || customer.last_name");
    ("customer.id", "c.id");
    ("customer.email", "c.email");
    ("account.id", "a.id");
    ("account.balance", "a.balance");
    ("account.type", "a.type");
    ("transaction.id", "t.id");
    ("transaction.amount", "t.amount");
    ("transaction.type", "t.type");
    ("transaction.date", "t.transaction_date");
    ("employee.name", "e.name");
    ("employee.id", "e.id");
    ("branch.name", "b.name");
    ("branch.id", "b.id") ].

Definition apply_table_fix (sql : string) (rule : string * string) : string :=
  let (wrong_ref, correct_ref) := rule in
  if contains sql wrong_ref then replace sql wrong_ref correct_ref else sql.

Definition fix_table_references (sql : string) : string :=
  fold_left apply_table_fix table_fixes sql.

(** Fix 5: the dictionary [typo_fixes]. *)
Definition typo_fixes : list (string * string) :=
  [ ("costumer", "customer");
    ("costumers", "customers");
    ("trasaction", "transaction");
    ("trasactions", "transactions");
    ("accout", "account");
    ("acounts", "accounts");
    ("employe", "employee");
    ("employes", "employees");
    ("employeees", "employees") ].

Definition apply_typo_fix (sql : string) (rule : string * string) : string :=
  let (typo, correct) := rule in
  if contains (lower sql) typo
  then let new_sql := sub_literal_ci typo correct sql in
       if negb (String.eqb new_sql sql) then new_sql else sql
  else sql.

Definition fix_typos (sql : string) : string :=
  fold_left apply_typo_fix typo_fixes sql.

(** The rewriting that [validate_query] applies to its argument before any
    check (the list [fixed_issues] only feeds the logger). *)
Definition apply_fixes (sql : string) : string :=
  fix_typos
    (fix_table_references
       (fix_ambiguous_columns (fix_name_column (fix_date_column sql)))).

(** *** [check_safety] *)

Record SafetyResult := { s_safe : bool; s_message : string }.

Definition STRICT_OPERATIONS : list string := ["SELECT"].
Definition MODERATE_OPERATIONS : list string := ["SELECT"; "UPDATE"; "DELETE"].
Definition LENIENT_OPERATIONS : list string :=
  ["SELECT"; "INSERT"; "UPDATE"; "DELETE"].

Definition allowed_operations (validation_level : string) : list string :=
  if String.eqb validation_level "strict" then STRICT_OPERATIONS
  else if String.eqb validation_level "moderate" then MODERATE_OPERATIONS
  else LENIENT_OPERATIONS.

(** [\b(DROP|TRUNCATE|ALTER)\b] on the upper-cased text. *)
Definition has_destructive_keyword (sql_upper : string) : bool :=
  search_words same ["DROP"; "TRUNCATE"; "ALTER"] false sql_upper.

(** [\b(DELETE|UPDATE)\b] on the upper-cased text. *)
Definition has_mutation_keyword (sql_upper : string) : bool :=
  search_words same ["DELETE"; "UPDATE"] false sql_upper.

(** [;\s*(DROP|DELETE|UPDATE|INSERT|CREATE|ALTER)], ignoring case. *)
Definition multiple_statements (sql : string) : bool :=
  search
    (seq (lit same ";")
       (seq ws0
          (alt same_ci
             ["DROP"; "DELETE"; "UPDATE"; "INSERT"; "CREATE"; "ALTER"])))
    sql.

(** [--.*\b(OR|AND)\b.*=], ignoring case: after the comment token, on the
    same line, a whole word OR or AND and later an equals sign. *)
Definition connective_then_equals : matcher :=
  fun s => match alt same_ci ["OR"; "AND"] s with
           | Some r => if end_boundary r && contains r "=" then Some r
                       else None
           | None => None
           end.

Definition comment_injection (sql : string) : bool :=
  search
    (seq (lit same "--")
       (fun rest =>
          if search_b connective_then_equals false (line_of rest)
          then Some rest else None))
    sql.

(** [\bUNION\s+(ALL\s+)?SELECT\b], ignoring case. *)
Definition select_word : matcher :=
  fun s => if word_here same_ci "SELECT" s
           then Some (drop 6 s) else None.

Definition union_select (sql : string) : bool :=
  search_b
    (seq (lit same_ci "UNION")
       (seq ws1
          (fun s => match seq (lit same_ci "ALL") (seq ws1 select_word) s with
                    | Some r => Some r
                    | None => select_word s
                    end)))
    false sql.

Definition check_safety (validation_level sql : string) : SafetyResult :=
  let sql_upper := upper sql in
  let allowed_ops := allowed_operations validation_level in
  if negb (existsb (startswith sql_upper) allowed_ops) then
    {| s_safe := false;
       s_message := "Operation not allowed in " ++ validation_level
                    ++ " mode." |}
  else if has_destructive_keyword sql_upper then
    {| s_safe := false;
       s_message := "Dangerous operation detected (DROP/TRUNCATE/ALTER not allowed)." |}
  else if has_mutation_keyword sql_upper && negb (contains sql_upper "WHERE")
  then
    {| s_safe := false;
       s_message := "DELETE/UPDATE must have a WHERE clause." |}
  else if multiple_statements sql then
    {| s_safe := false;
       s_message := "Possible SQL injection attempt detected (multiple statements)." |}
  else if comment_injection sql then
    {| s_safe := false;
       s_message := "Possible SQL injection attempt detected (comment injection)." |}
  else if union_select sql && negb (startswith sql_upper "SELECT") then
    {| s_safe := false;
       s_message := "Possible SQL injection attempt detected (UNION injection)." |}
  else {| s_safe := true; s_message := "Safe query." |}.

(** *** [parse_sql], [_validate_schema] and [validate_query]

    The database engine is outside the program: [db_execute] stands for
    [cursor.execute], [None] when the statement is accepted and [Some e]
    when it raises an exception whose text is [e]; [schema] is the
    dictionary built by [_get_schema], in insertion order. *)

Record ValidationResult := {
  safe : bool;
  valid : bool;
  message : string;
  suggestion : option string;
  sql : option string
}.

Record SQLValidator := {
  db_execute : string -> option string;
  schema : list (string * list string);
  validation_level : string;
  validation_log : list (string * ValidationResult)
}.

(** [SQLValidator(db_path, validation_level)]: the level is lower-cased
    and the log starts empty. *)
Definition new_validator (execute : string -> option string)
           (tables : list (string * list string)) (level : string)
  : SQLValidator :=
  {| db_execute := execute;
     schema := tables;
     validation_level := lower level;
     validation_log := [] |}.

Definition suggest_correction (error_msg : string) : string :=
  if contains error_msg "syntax error"
  then "Check SQL syntax, missing keywords, or misplaced commas."
  else if contains error_msg "no such table"
  then "Check table name spelling and existence."
  else if contains error_msg "no such column"
  then "Check column name spelling and existence."
  else "Review SQL query for errors.".

Record SyntaxResult := {
  p_valid : bool;
  p_message : string;
  p_suggestion : option string
}.

Definition parse_sql (v : SQLValidator) (sql : string) : SyntaxResult :=
  match db_execute v ("EXPLAIN " ++ sql) with
  | None => {| p_valid := true; p_message := "SQL syntax is valid.";
               p_suggestion := None |}
  | Some e => {| p_valid := false;
                 p_message := "SQL syntax error: " ++ e;
                 p_suggestion := Some (suggest_correction e) |}
  end.

(** [select\s+\*] *)
Definition select_star : matcher :=
  seq (lit same "select") (seq ws1 (lit same "*")).

(** [select\s+count\s*\(\s*\*\s*\)] *)
Definition select_count_star : matcher :=
  seq (lit same "select")
    (seq ws1
       (seq (lit same "count")
          (seq ws0
             (seq (lit same "(")
                (seq ws0 (seq (lit same "*") (seq ws0 (lit same ")")))))))).

(** [\b(count|sum|avg|max|min)\s*\(] *)
Definition aggregate_call : matcher :=
  seq (alt same ["count"; "sum"; "avg"; "max"; "min"])
    (seq ws0 (lit same "(")).

Record SchemaResult := { c_valid : bool; c_message : string }.

Definition _validate_schema (v : SQLValidator) (sql : string) : SchemaResult :=
  let tables := map fst (schema v) in
  let columns := flat_map snd (schema v) in
  let sql_lower := lower sql in
  if negb (existsb (contains sql_lower) tables) then
    {| c_valid := false; c_message := "No valid table referenced in query." |}
  else if search select_star sql_lower || search select_count_star sql_lower
  then
    {| c_valid := true;
       c_message := "Schema validation passed (wildcard or count)." |}
  else if existsb (contains sql_lower) columns then
    {| c_valid := true; c_message := "Schema validation passed." |}
  else if search_b aggregate_call false sql_lower then
    {| c_valid := true;
       c_message := "Schema validation passed (aggregate function)." |}
  else
    {| c_valid := false; c_message := "No valid column referenced in query." |}.

(** [_log_attempt]: one entry is appended to the audit log. *)
Definition _log_attempt (v : SQLValidator) (sql : string)
           (result : ValidationResult) : SQLValidator :=
  {| db_execute := db_execute v;
     schema := schema v;
     validation_level := validation_level v;
     validation_log := validation_log v ++ [(sql, result)] |}.

(** [validate_query]: the result and the validator with its log
    extended. *)
Definition validate_query (v : SQLValidator) (original_sql : string)
  : ValidationResult * SQLValidator :=
  let sql := apply_fixes original_sql in
  let result := check_safety (validation_level v) sql in
  if negb (s_safe result) then
    let r := {| safe := s_safe result; valid := false;
                message := s_message result;
                suggestion := None; sql := None |} in
    (r, _log_attempt v sql r)
  else
    let syntax_result := parse_sql v sql in
    if negb (p_valid syntax_result) then
      let r := {| safe := false; valid := p_valid syntax_result;
                  message := p_message syntax_result;
                  suggestion := p_suggestion syntax_result;
                  sql := None |} in
      (r, _log_attempt v sql r)
    else
      let schema_result := _validate_schema v sql in
      if negb (c_valid schema_result) then
        let r := {| safe := false; valid := c_valid schema_result;
                    message := c_message schema_result;
                    suggestion := None; sql := None |} in
        (r, _log_attempt v sql r)
      else
        let r := {| safe := true; valid := true;
                    message := "Query is valid.";
                    suggestion := None; sql := Some sql |} in
        (r, _log_attempt v sql r).

End Validator.

(** ** The agent ([Agent/gemini_agent.py]) *)

Module Agent.
Import Py Re.

(** *** The ambiguity classifier *)

Record AmbiguityResult := {
  is_ambiguous : bool;
  explanation : string;
  questions : list string
}.

Record Pattern := { p_questions : list string; p_explanation : string }.

(** The dictionary [ambiguity_patterns]. *)
Definition ambiguity_patterns : list (string * Pattern) :=
  [ ("recent",
     {| p_questions :=
          [ "How recent? (e.g., 'last 7 days', 'last month', 'this year')";
            "Do you want the most recent items first?" ];
        p_explanation :=
          "I need to know what time period you consider 'recent'." |});
    ("old",
     {| p_questions :=
          [ "How far back should I look? (e.g., '6 months ago', 'last year', 'older than 2 years')";
            "Should I include closed/inactive records?" ];
        p_explanation :=
          "Please specify what time period you consider 'old'." |});
    ("large",
     {| p_questions :=
          [ "What amount would you consider large? (e.g., 'over $1,000', 'more than $10,000')";
            "Are you looking at individual transactions or total amounts?" ];
        p_explanation :=
          "I need to know what dollar amount you consider 'large'." |});
    ("small",
     {| p_questions :=
          [ "What's your threshold for small amounts? (e.g., 'under $100', 'less than $500')" ];
        p_explanation :=
          "Please specify what you consider a 'small' amount." |});
    ("high",
     {| p_questions :=
          [ "What range do you consider high? (e.g., 'over $50,000', 'more than $100,000')" ];
        p_explanation :=
          "Please clarify what threshold you consider 'high'." |});
    ("low",
     {| p_questions :=
          [ "What range do you consider low? (e.g., 'under $1,000', 'less than $5,000')" ];
        p_explanation :=
          "Please specify what you consider 'low' values." |});
    ("john",
     {| p_questions :=
          [ "Which John? (Please provide last name or customer ID)";
            "Is this first name, last name, or part of the full name?" ];
        p_explanation :=
          "There may be multiple customers named John - I need more specific identification." |});
    ("smith",
     {| p_questions :=
          [ "Which Smith? (Please provide first name or customer ID)" ];
        p_explanation :=
          "Smith is a common name - please provide more details for identification." |});
    ("my",
     {| p_questions :=
          [ "Which account? (e.g., 'checking', 'savings', 'all accounts')" ];
        p_explanation :=
          "Please specify which of your accounts you're asking about." |});
    ("many",
     {| p_questions :=
          [ "How many would you consider 'many'? (e.g., 'more than 10', 'over 50')" ];
        p_explanation :=
          "Please specify what quantity you consider 'many'." |});
    ("few",
     {| p_questions :=
          [ "What number range is 'few' to you? (e.g., '1-5', 'less than 10')" ];
        p_explanation :=
          "Please clarify what you consider 'few' items." |});
    ("transactions",
     {| p_questions :=
          [ "What type of transactions? (e.g., 'all types', 'deposits only', 'withdrawals')" ];
        p_explanation :=
          "There are different types of transactions - please specify which ones you're interested in." |}) ].

Definition priority_terms : list string :=
  [ "recent"; "old"; "large"; "small"; "high"; "low"; "my"; "john"; "smith";
    "many"; "few"; "transactions" ].

(** [ambiguity_patterns[term]], [None] when [term] is not a key. *)
Fixpoint lookup {A : Type} (key : string) (d : list (string * A)) : option A :=
  match d with
  | [] => None
  | (k, v) :: d' => if String.eqb k key then Some v else lookup key d'
  end.

(** The loop over [priority_terms]: the first term that occurs in the
    lower-cased input and is a key of the dictionary. *)
Fixpoint first_match (user_lower : string) (terms : list string)
  : option (string * Pattern) :=
  match terms with
  | [] => None
  | term :: terms' =>
      match (if contains user_lower term
             then lookup term ambiguity_patterns else None) with
      | Some pat => Some (term, pat)
      | None => first_match user_lower terms'
      end
  end.

Definition action_verbs : list string := ["show"; "find"; "list"; "display"].

Definition _simple_ambiguity_check (user_input : string) : AmbiguityResult :=
  let user_lower := lower user_input in
  match first_match user_lower priority_terms with
  | Some (_, detected_ambiguity) =>
      {| is_ambiguous := true;
         explanation := p_explanation detected_ambiguity;
         questions := firstn 2 (p_questions detected_ambiguity) |}
  | None =>
      let word_count := List.length (split user_input) in
      if (word_count <=? 3)%nat
         && negb (existsb (contains user_lower) action_verbs)
      then
        {| is_ambiguous := true;
           explanation :=
             "Your query is quite brief - a bit more detail would help me give you better results.";
           questions :=
             [ "What specific information are you looking for?";
               "Any particular time period or amount range?" ] |}
      else
        {| is_ambiguous := false;
           explanation := "Query appears clear";
           questions := [] |}
  end.

(** The conversation context: an optional dictionary with string keys;
    the values are free text or, for [clarifications], a mapping from a
    question to its answer. *)
Inductive ContextValue :=
| Text (s : string)
| Answers (a : list (string * string)).

Definition Context := list (string * ContextValue).

Definition has_key (key : string) (d : Context) : bool :=
  match lookup key d with Some _ => true | None => false end.

(** Truth value of an optional dictionary: [None] and the empty
    dictionary are false. *)
Definition truthy (context : option Context) : bool :=
  match context with
  | Some (_ :: _) => true
  | _ => false
  end.

Definition check_ambiguity (user_input : string) (context : option Context)
  : AmbiguityResult :=
  if truthy context
     && match context with
        | Some d => has_key "clarifications" d
        | None => false
        end
  then
    {| is_ambiguous := false;
       explanation :=
         "Query enhanced with user clarifications or proceeding with smart defaults";
       questions := [] |}
  else _simple_ambiguity_check user_input.

(** *** The corrections of [get_sql_from_nl] *)

Definition protected_columns : list (string * string) :=
  [ ("date_of_birth", "TEMP_PROTECT_DOB");
    ("birth_date", "TEMP_PROTECT_BD");
    ("hire_date", "TEMP_PROTECT_HD");
    ("opened_at", "TEMP_PROTECT_OA") ].

(** Step 1: each compound date column becomes its placeholder. *)
Definition protect (sql_query : string) : string :=
  fold_left (fun s r => replace s (fst r) (snd r)) protected_columns sql_query.

(** Step 2: the standalone word [date], in any case. *)
Definition rewrite_date (sql_query : string) : string :=
  sub_word_ci "date" "transaction_date" sql_query.

(** Step 3: each placeholder becomes its column again. *)
Definition restore (sql_query : string) : string :=
  fold_left (fun s r => replace s (snd r) (fst r)) protected_columns sql_query.

(** Step 4: the date functions. *)
Definition preserve_date_functions (sql_query : string) : string :=
  replace
    (replace (replace sql_query "transaction_date('now'" "date('now'")
       "transaction_date(" "date(")
    "strftransaction_date(" "strfdate(".

(** Steps 1 to 4. *)
Definition fix_date_references (sql_query : string) : string :=
  preserve_date_functions (restore (rewrite_date (protect sql_query))).

Definition _add_limit_safely (sql_query : string) : string :=
  let sql_upper := upper sql_query in
  let sql_clean := strip sql_query in
  if contains sql_upper "LIMIT" then sql_clean
  else
    let sql_clean := strip (rstrip_semicolons sql_clean) in
    match find sql_upper "ORDER BY" with
    | Some order_by_pos =>
        let before_order := strip (take order_by_pos sql_query) in
        let order_clause := strip (drop order_by_pos sql_query) in
        before_order ++ " " ++ order_clause ++ " LIMIT 1000"
    | None => sql_clean ++ " LIMIT 1000"
    end.

(** The row-limit rule as [get_sql_from_nl] applies it. *)
Definition ensure_limit (sql_query : string) : string :=
  if negb (contains (upper sql_query) "LIMIT")
  then _add_limit_safely sql_query
  else sql_query.

(** The whole correction of a generated query. *)
Definition correct_sql (sql_query : string) : string :=
  ensure_limit (fix_date_references sql_query).

End Agent.

(** ** Whole-word occurrences and the rules that keep them

    [occurs k prev s] is [re.search(r"\bk\b", s.upper())] for an
    upper-case word [k] without the letter S, such as the keywords of
    the validator (a sharp s of the text becomes SS in the upper-case
    form, and matches no character of such a word);
    [rule_keeps k old new] is a check, by
    computation, that replacing [old] by [new] cannot remove, split or
    glue a whole-word occurrence of [k]. *)

Module Keyword.
Import Py Re.

(** A character of the keyword against a character of the text. *)
Definition same_up (k c : ascii) : bool := Ascii.eqb k (upper_char c).

Fixpoint occurs (k : string) (prev_word : bool) (s : string) : bool :=
  (negb prev_word && word_here same_up k s)
  || match s with
     | EmptyString => false
     | String c s' => occurs k (is_word_char c) s'
     end.

(** A keyword without the letter S and without the sharp s: no part of
    it can come from a sharp s of the text. *)
Fixpoint plain (k : string) : bool :=
  match k with
  | EmptyString => true
  | String c k' =>
      negb (Ascii.eqb c "S"%char) && negb (Ascii.eqb c sharp_s) && plain k'
  end.

(** [q] contains [k] as a whole word, whatever the case of its letters:
    the text splits into a part that does not end in a word character, a
    word that is [k] once upper-cased, and a part that does not start
    with a word character. *)
Definition last_class (prev_word : bool) (s : string) : bool :=
  (fix go (b : bool) (t : string) : bool :=
     match t with
     | EmptyString => b
     | String c t' => go (is_word_char c) t'
     end) prev_word s.

Definition whole_word_in (k q : string) : Prop :=
  exists a w b,
    q = a ++ w ++ b /\ upper w = k
    /\ last_class false a = false /\ end_boundary b = true.

(** A match of [p] and an occurrence of the word [k] that start at the
    same character can coexist. *)
Fixpoint compat (p k : string) : bool :=
  match p, k with
  | EmptyString, _ => true
  | String c _, EmptyString => negb (is_word_char c)
  | String c p', String x k' => same_up x c && compat p' k'
  end.

(** Some occurrence of [k] can start inside a match of [p]. *)
Fixpoint word_starts_inside (k : string) (prev_nonword : bool) (p : string)
  : bool :=
  match p with
  | EmptyString => false
  | String c p' =>
      (prev_nonword && compat p k)
      || word_starts_inside k (negb (is_word_char c)) p'
  end.

(** Some match of [p] can start inside an occurrence of [k]. *)
Fixpoint match_starts_inside (p k : string) : bool :=
  match k with
  | EmptyString => false
  | String _ k' => compat p k || match_starts_inside p k'
  end.

Definition first_class (s : string) : bool :=
  match s with
  | EmptyString => false
  | String c _ => is_word_char c
  end.

Definition nonempty (s : string) : bool :=
  match s with EmptyString => false | String _ _ => true end.

Definition rule_keeps (k : string) (rule : string * string) : bool :=
  let (old, new) := rule in
  nonempty old && nonempty new
  && negb (word_starts_inside k true old)
  && negb (match_starts_inside old k)
  && implb (first_class new) (first_class old)
  && implb (last_class false new) (last_class false old).

(** Every replacement rule of the validator. *)
Definition all_rules : list (string * string) :=
  Validator.date_rules ++ Validator.name_rules ++ Validator.ambiguous_fixes
  ++ Validator.table_fixes ++ Validator.typo_fixes.

Definition kept_by_all (k : string) : Prop :=
  forallb (rule_keeps k) all_rules = true.

Definition destructive_keywords : list string :=
  ["DROP"; "TRUNCATE"; "ALTER"].

End Keyword.

(** ** A database to run the validator against

    The five tables as the agent's [SYSTEM_PROMPT] lists them, and an
    engine that accepts every statement it is asked to plan. *)

Module Bank.

Definition schema : list (string * list string) :=
  [ ("customers",
     [ "id"; "email"; "phone"; "address"; "first_name"; "last_name";
       "date_of_birth"; "gender"; "national_id"; "created_at"; "updated_at";
       "branch_id" ]);
    ("accounts",
     [ "id"; "customer_id"; "account_number"; "type"; "balance"; "opened_at";
       "interest_rate"; "status"; "branch_id"; "created_at"; "updated_at" ]);
    ("transactions",
     [ "id"; "account_id"; "transaction_date"; "amount"; "type";
       "description"; "status"; "created_at"; "updated_at"; "employee_id" ]);
    ("branches",
     [ "id"; "name"; "address"; "city"; "state"; "zip_code"; "manager_id";
       "created_at"; "updated_at" ]);
    ("employees",
     [ "id"; "branch_id"; "name"; "email"; "phone"; "position"; "hire_date";
       "salary"; "created_at"; "updated_at" ]) ].

Definition accepting : string -> option string := fun _ => None.

Definition validator (level : string) : Validator.SQLValidator :=
  Validator.new_validator accepting schema level.

End Bank.

(** ** The two corrections in the order in which a query meets them

    A generated query is corrected by the agent, then rewritten by the
    validator: seven steps in all. [stable s] says that each step, taken
    alone, returns [s]; [idle s] is a sufficient condition read off the
    text: for each step, its guard is off or none of its search targets
    occurs. *)

Module Pipeline.
Import Py Re.

Definition corrected_text (q : string) : string :=
  Validator.apply_fixes (Agent.correct_sql q).

Definition steps : list (string -> string) :=
  [ Agent.fix_date_references; Agent.ensure_limit;
    Validator.fix_date_column; Validator.fix_name_column;
    Validator.fix_ambiguous_columns; Validator.fix_table_references;
    Validator.fix_typos ].

Definition stable (s : string) : bool :=
  forallb (fun step => String.eqb (step s) s) steps.

Definition absent_all (s : string) (targets : list string) : bool :=
  forallb (fun p => negb (contains s p)) targets.

Definition date_function_targets : list string :=
  ["transaction_date('now'"; "transaction_date("; "strftransaction_date("].

Definition idle (s : string) : bool :=
  (* the date rewriting of the agent *)
  absent_all s (map fst Agent.protected_columns)
  && absent_all s (map snd Agent.protected_columns)
  && negb (search_words same_ci ["date"] false s)
  && absent_all s date_function_targets
  (* the row limit *)
  && contains (upper s) "LIMIT"
  (* Fix 1 and Fix 2 of the validator, with their guards *)
  && (negb (contains (lower s) "no such column: date"
            || contains s " date " || contains s " date,")
      || absent_all s (map fst Validator.date_rules))
  && (negb (contains (lower s) "no such column: name"
            || contains s "c.name" || contains s "customers.name")
      || absent_all s (map fst Validator.name_rules))
  (* Fix 3, with its guard *)
  && (negb (contains (upper s) " JOIN " || contains (upper s) " FROM ")
      || absent_all s (map fst Validator.ambiguous_fixes))
  (* Fix 4 and Fix 5 *)
  && absent_all s (map fst Validator.table_fixes)
  && absent_all (lower s) (map fst Validator.typo_fixes).

End Pipeline.

(** ** Results and inputs that the properties name *)

Module Expected.
Import Agent.

Definition skipped : AmbiguityResult :=
  {| is_ambiguous := false;
     explanation :=
       "Query enhanced with user clarifications or proceeding with smart defaults";
     questions := [] |}.

Definition recent : AmbiguityResult :=
  {| is_ambiguous := true;
     explanation := "I need to know what time period you consider 'recent'.";
     questions :=
       [ "How recent? (e.g., 'last 7 days', 'last month', 'this year')";
         "Do you want the most recent items first?" ] |}.

Definition old : AmbiguityResult :=
  {| is_ambiguous := true;
     explanation := "Please specify what time period you consider 'old'.";
     questions :=
       [ "How far back should I look? (e.g., '6 months ago', 'last year', 'older than 2 years')";
         "Should I include closed/inactive records?" ] |}.

Definition too_brief : AmbiguityResult :=
  {| is_ambiguous := true;
     explanation :=
       "Your query is quite brief - a bit more detail would help me give you better results.";
     questions :=
       [ "What specific information are you looking for?";
         "Any particular time period or amount range?" ] |}.

Definition clear : AmbiguityResult :=
  {| is_ambiguous := false;
     explanation := "Query appears clear";
     questions := [] |}.

Definition stacked_query : string :=
  "SELECT * FROM customers; DROP TABLE customers;".

Definition literal_update_query : string :=
  "SELECT ' date update FROM ' AS note FROM transactions".

Definition literal_update_query_fixed : string :=
  "SELECT ' transaction_date uptransaction_date FROM ' AS note FROM transactions".

Definition nowhere_update_query : string :=
  "UPDATE accounts SET status = 'nowhere'".

Definition typo_query : string := "SELECT * FROM costumers".

(** A question, the answer of the model to it, the query that the agent
    makes of the answer, and what the validator makes of that query. *)
Definition names_question : string := "show the names of all customers".

Definition names_answer : string := "SELECT c.name FROM customers c".

Definition names_query : string :=
  "SELECT c.name FROM customers c LIMIT 1000".

Definition names_query_fixed : string :=
  "SELECT c.first_name || ' ' || c.last_name FROM customers c LIMIT 1000".

Definition week_query : string :=
  "SELECT date FROM transactions WHERE date > date('now','-7 days')".

Definition week_query_fixed : string :=
  "SELECT transaction_date FROM transactions WHERE transaction_date > date('now','-7 days')".

End Expected.

(** ** More Python primitives *)

Module PyMore.
Import Py.

(** [s.split(sep)] for a non-empty separator; one unit of fuel per
    character. *)
Fixpoint split_on_fuel (fuel : nat) (sep cur s : string) : list string :=
  match fuel with
  | 0 => [cur ++ s]
  | S fuel' =>
      match s with
      | EmptyString => [cur]
      | String c s' =>
          if prefix_by same sep s
          then cur :: split_on_fuel fuel' sep EmptyString
                        (drop (String.length sep) s)
          else split_on_fuel fuel' sep (cur ++ String c EmptyString) s'
      end
  end.

Definition split_on (s sep : string) : list string :=
  split_on_fuel (String.length s) sep EmptyString s.

(** [sep.join(parts)]. *)
Definition join (sep : string) (parts : list string) : string :=
  String.concat sep parts.

(** A Python set of strings: a list without repetitions, in no
    particular order; [sorted] lists it in ascending order. *)
Definition set_has (x : string) (xs : list string) : bool :=
  existsb (String.eqb x) xs.

Definition set_add (x : string) (xs : list string) : list string :=
  if set_has x xs then xs else x :: xs.

Fixpoint insert_sorted (x : string) (xs : list string) : list string :=
  match xs with
  | [] => [x]
  | y :: ys => if String.leb x y then x :: xs else y :: insert_sorted x ys
  end.

Definition sorted (xs : list string) : list string :=
  fold_right insert_sorted [] xs.

(** What a call returns, or the text of the exception it raises. *)
Inductive outcome (A : Type) : Type :=
| Returned (a : A)
| Raised (text : string).
Arguments Returned {A} a.
Arguments Raised {A} text.

End PyMore.

(** ** The agent: prompt building, generation and orchestration
    ([Agent/gemini_agent.py]) *)

Module Generation.
Import Py Re Agent PyMore.

Definition SYSTEM_PROMPT : string :=
"Expert SQL generator for banking DB. Convert NL to SELECT queries only.

Schema (use EXACT names):
customers(id,email,phone,address,first_name,last_name,date_of_birth,gender,national_id,created_at,updated_at,branch_id)
accounts(id,customer_id,account_number,type,balance,opened_at,interest_rate,status,branch_id,created_at,updated_at)
transactions(id,account_id,transaction_date,amount,type,description,status,created_at,updated_at,employee_id)
branches(id,name,address,city,state,zip_code,manager_id,created_at,updated_at)
employees(id,branch_id,name,email,phone,position,hire_date,salary,created_at,updated_at)

Rules:
1. SELECT only, end with LIMIT 1000
2. Use aliases: c(customers), a(accounts), t(transactions), e(employees), b(branches)
3. customers: first_name+last_name (NOT name), employees: name column exists
4. Date format: YYYY-MM-DD, use transaction_date for transactions
5. JOIN tables when needed, qualify ambiguous columns (t.type, a.type, etc.)
6. LIKE with % for name searches
".

(** [estimate_tokens] *)
Definition estimate_tokens (text : string) : nat :=
  List.length (split text) + String.length text / 4.

(** *** [get_relevant_schema] *)

Definition table_keywords : list (string * list string) :=
  [ ("customers",
     ["customer"; "client"; "name"; "email"; "phone"; "address"; "birth";
      "gender"]);
    ("accounts",
     ["account"; "balance"; "saving"; "checking"; "credit"; "interest";
      "opened"]);
    ("transactions",
     ["transaction"; "deposit"; "withdrawal"; "transfer"; "payment";
      "amount"; "recent"]);
    ("employees",
     ["employee"; "staff"; "manager"; "position"; "hire"; "salary"; "work"]);
    ("branches",
     ["branch"; "office"; "location"; "city"; "state"; "zip"]) ].

Definition table_schemas : list (string * string) :=
  [ ("customers", "customers(id,first_name,last_name,email,phone,branch_id)");
    ("accounts", "accounts(id,customer_id,type,balance,status,branch_id)");
    ("transactions",
     "transactions(id,account_id,transaction_date,amount,type,description,status)");
    ("employees", "employees(id,branch_id,name,position,salary)");
    ("branches", "branches(id,name,address,city,state)") ].

(** The loop that detects tables by their keywords. *)
Definition detected_tables (user_lower : string) : list string :=
  fold_left
    (fun relevant entry =>
       if existsb (contains user_lower) (snd entry)
       then set_add (fst entry) relevant else relevant)
    table_keywords [].

(** The set [relevant_tables] at the end of the function. *)
Definition relevant_tables (user_input : string) : list string :=
  let user_lower := lower user_input in
  let relevant := detected_tables user_lower in
  let relevant :=
    match relevant with
    | [] => fold_left (fun r entry => set_add (fst entry) r) table_keywords []
    | _ => relevant
    end in
  let relevant :=
    if set_has "accounts" relevant then set_add "customers" relevant
    else relevant in
  let relevant :=
    if set_has "transactions" relevant then set_add "accounts" relevant
    else relevant in
  if set_has "employees" relevant then set_add "branches" relevant
  else relevant.

Definition get_relevant_schema (user_input : string) : string :=
  let schema_parts :=
    flat_map (fun table => match lookup table table_schemas with
                           | Some part => [part]
                           | None => []
                           end)
             (sorted (relevant_tables user_input)) in
  "Schema: " ++ join ", " schema_parts.

(** *** [compress_context]

    A context value is sliced with [[:n]]: a text gives its first [n]
    characters; a mapping cannot be sliced, the interpreter raises an
    exception whose text, [slice_error n], depends on its version. *)

Definition value_truthy (v : option ContextValue) : bool :=
  match v with
  | Some (Text (String _ _)) => true
  | Some (Answers (_ :: _)) => true
  | _ => false
  end.

Definition slice_value (slice_error : nat -> string) (n : nat)
           (v : option ContextValue) : outcome string :=
  match v with
  | Some (Text s) => Returned (take n s)
  | _ => Raised (slice_error n)
  end.

Definition compress_context (slice_error : nat -> string)
           (context : option Context) : outcome string :=
  if negb (truthy context) then Returned ""
  else
    let d := match context with Some d => d | None => [] end in
    let prev := lookup "previous_query" d in
    let clar := lookup "clarifications" d in
    let step1 : outcome (list string) :=
      if value_truthy prev
      then match slice_value slice_error 50 prev with
           | Returned s => Returned ["Prev: " ++ s ++ "..."]
           | Raised e => Raised e
           end
      else Returned [] in
    match step1 with
    | Raised e => Raised e
    | Returned parts =>
        let step2 : outcome (list string) :=
          if value_truthy clar
          then match slice_value slice_error 30 clar with
               | Returned s => Returned (List.app parts ["User said: " ++ s ++ "..."])
               | Raised e => Raised e
               end
          else Returned parts in
        match step2 with
        | Raised e => Raised e
        | Returned [] => Returned ""
        | Returned parts => Returned ("Context: " ++ join " | " parts)
        end
    end.

(** *** [_get_fallback_query] *)

Definition fallback_patterns : list (string * string) :=
  [ ("customers", "SELECT * FROM customers LIMIT 10");
    ("accounts", "SELECT * FROM accounts LIMIT 10");
    ("transactions", "SELECT * FROM transactions ORDER BY date DESC LIMIT 10");
    ("balance",
     "SELECT c.name, a.type, a.balance FROM customers c JOIN accounts a ON c.id = a.customer_id ORDER BY a.balance DESC LIMIT 10");
    ("recent",
     "SELECT t.*, c.name FROM transactions t JOIN accounts a ON t.account_id = a.id JOIN customers c ON a.customer_id = c.id ORDER BY t.date DESC LIMIT 10");
    ("high",
     "SELECT c.name, a.type, a.balance FROM customers c JOIN accounts a ON c.id = a.customer_id WHERE a.balance > 50000 ORDER BY a.balance DESC LIMIT 10");
    ("employee",
     "SELECT e.*, b.name as branch_name FROM employees e JOIN branches b ON e.branch_id = b.id LIMIT 10");
    ("branch", "SELECT * FROM branches LIMIT 10");
    ("monthly",
     "SELECT strftime('%Y-%m', date) as month, COUNT(*) as transaction_count, SUM(amount) as total_amount FROM transactions GROUP BY strftime('%Y-%m', date) ORDER BY month DESC LIMIT 12");
    ("average",
     "SELECT AVG(balance) as avg_balance, COUNT(*) as account_count FROM accounts") ].

Definition default_fallback : string :=
  "SELECT t.*, c.name as customer_name FROM transactions t JOIN accounts a ON t.account_id = a.id JOIN customers c ON a.customer_id = c.id ORDER BY t.date DESC LIMIT 10".

Fixpoint first_pattern (user_lower : string) (patterns : list (string * string))
  : option string :=
  match patterns with
  | [] => None
  | (pattern, sql) :: rest =>
      if contains user_lower pattern then Some sql
      else first_pattern user_lower rest
  end.

Definition _get_fallback_query (user_input : string) : option string :=
  let user_lower := lower user_input in
  match first_pattern user_lower fallback_patterns with
  | Some sql => Some sql
  | None => Some default_fallback
  end.

(** *** [validate_sql] *)

(** Its result: [{"type": "success", "sql": ...}] or
    [{"type": "error", "message": ...}]. *)
Inductive Checked :=
| Accepted (sql : string)
| Rejected (message : string).

Definition write_ops : list string :=
  ["insert"; "update"; "delete"; "drop"; "alter"; "create"; "truncate"].

Definition valid_tables : list string :=
  ["customers"; "accounts"; "transactions"; "branches"; "employees"].

Definition validate_sql (sql_query : string) : Checked :=
  let sql := strip sql_query in
  let sql_lower := lower sql in
  if negb (startswith sql_lower "select") then
    Rejected "Only SELECT operations are allowed"
  else if existsb (fun op => contains (" " ++ sql_lower ++ " ")
                                      (" " ++ op ++ " ")) write_ops then
    Rejected "Only SELECT operations are allowed"
  else if negb (existsb (contains sql_lower) valid_tables) then
    Rejected "Query must reference at least one valid table"
  else Accepted sql.

(** *** [get_sql_from_nl] *)

(** Removal of the code-block markers. *)
Definition strip_code_block (sql_query : string) : string :=
  if contains sql_query "```sql" then
    strip (nth 0 (split_on (nth 1 (split_on sql_query "```sql") "") "```") "")
  else if contains sql_query "```" then
    strip (nth 1 (split_on sql_query "```") "")
  else sql_query.

Definition clause_keywords : list string :=
  ["FROM"; "WHERE"; "JOIN"; "ON"; "ORDER"; "GROUP"; "HAVING"; "LIMIT"].

(** Truth value of a text: the empty text is false. *)
Definition nonempty_line (line : string) : bool :=
  match line with EmptyString => false | String _ _ => true end.

(** The loop over the lines of the answer; it stops at [break]. *)
Fixpoint collect_lines (found_select : bool) (lines : list string)
  : list string :=
  match lines with
  | [] => []
  | line0 :: rest =>
      let line := strip line0 in
      if startswith (upper line) "SELECT" then line :: collect_lines true rest
      else if found_select && nonempty_line line then
        if existsb (contains (upper line)) clause_keywords
        then line :: collect_lines found_select rest
        else if existsb (startswith (upper line))
                  ["SELECT"; "INSERT"; "UPDATE"; "DELETE"]
        then []
        else if nonempty_line line
                && negb (existsb (startswith line) ["#"; "//"; "--"])
        then line :: collect_lines found_select rest
        else collect_lines found_select rest
      else collect_lines found_select rest
  end.

(** Everything between the answer of the model and the corrections. *)
Definition clean_response (response_text : string) : string :=
  let sql_query := strip_code_block (strip response_text) in
  let lines := split_on sql_query (String "010" EmptyString) in
  let clean_lines := collect_lines false lines in
  let sql_query :=
    match clean_lines with
    | [] => sql_query
    | _ => join " " clean_lines
    end in
  rstrip_semicolons (strip (join " " (split sql_query))).

(** Token accounting ([log_token_usage]). *)
Record TokenStats := { total_tokens : nat; queries_processed : nat }.

Definition log_token_usage (stats : TokenStats) (prompt response : string)
  : TokenStats :=
  {| total_tokens :=
       total_tokens stats + (estimate_tokens prompt + estimate_tokens response);
     queries_processed := queries_processed stats + 1 |}.

(** A confidence is one of the literals 0.0, 0.3, 0.5, 0.7, 0.9: a number
    of tenths. *)
Inductive Confidence := Tenths (n : nat).

(** The result of [get_sql_from_nl]:
    [{"type": "success", "sql": ..., "confidence": ...}] or
    [{"type": "error", "message": ..., "confidence": 0.0}]. *)
Inductive Generated :=
| Success (sql : string) (confidence : Confidence)
| Failure (message : string).

Definition quota_signature (error_str : string) : bool :=
  contains error_str "quota" || contains error_str "429"
  || contains error_str "resourceexhausted".

(** The [except] branch of [get_sql_from_nl]. *)
Definition on_generation_error (user_input e : string) : Generated :=
  let error_str := lower e in
  match (if quota_signature error_str
         then _get_fallback_query user_input else None) with
  | Some fallback_sql =>
      if nonempty_line fallback_sql then Success fallback_sql (Tenths 7)
      else Failure ("SQL generation failed: " ++ e)
  | None => Failure ("SQL generation failed: " ++ e)
  end.

Definition build_prompt (user_input compressed_context : string) : string :=
  let prompt_parts :=
    [ SYSTEM_PROMPT; get_relevant_schema user_input; compressed_context;
      "Q: " ++ user_input; "SQL:" ] in
  join (String "010" EmptyString)
       (filter (fun part => nonempty_line (strip part)) prompt_parts).

(** The outside of the agent: the language model, the database, and the
    text of the exception raised when a mapping is sliced. *)
Record World (Rows : Type) := {
  llm_invoke : string -> outcome string;
  db_run : string -> outcome Rows;
  slice_error : nat -> string
}.
Arguments llm_invoke {Rows} w.
Arguments db_run {Rows} w.
Arguments slice_error {Rows} w.

Definition get_sql_from_nl {Rows} (w : World Rows) (stats : TokenStats)
           (user_input : string) (context : option Context)
  : Generated * TokenStats :=
  match compress_context (slice_error w) context with
  | Raised e => (on_generation_error user_input e, stats)
  | Returned compressed_context =>
      let prompt := build_prompt user_input compressed_context in
      match llm_invoke w prompt with
      | Raised e => (on_generation_error user_input e, stats)
      | Returned content =>
          let response_text := strip content in
          let stats' := log_token_usage stats prompt response_text in
          let sql_query := clean_response response_text in
          if nonempty_line sql_query && startswith (upper sql_query) "SELECT"
          then (Success (correct_sql sql_query) (Tenths 9), stats')
          else (Failure ("Could not generate valid SQL query. LLM returned: "
                         ++ take 200 response_text ++ "..."), stats')
      end
  end.

(** *** [validate_and_execute] and [process_query] *)

Record Execution (Rows : Type) := {
  x_result : option Rows;
  x_explanation : string
}.
Arguments x_result {Rows} e.
Arguments x_explanation {Rows} e.

Definition validate_and_execute {Rows} (w : World Rows) (sql_query : string)
  : Execution Rows :=
  match db_run w sql_query with
  | Returned rows =>
      {| x_result := Some rows;
         x_explanation := "Executed SQL: " ++ sql_query |}
  | Raised e => {| x_result := None; x_explanation := e |}
  end.

Record Response (Rows : Type) := {
  type : string;
  sql : option string;
  explanation : string;
  follow_up_questions : option (list string);
  confidence : Confidence;
  result : option Rows
}.
Arguments type {Rows} r.
Arguments sql {Rows} r.
Arguments explanation {Rows} r.
Arguments follow_up_questions {Rows} r.
Arguments confidence {Rows} r.
Arguments result {Rows} r.

Inductive HistoryEntry (Rows : Type) :=
| User (text : string)
| Agent (response : Response Rows).
Arguments User {Rows} text.
Arguments Agent {Rows} response.

Record AgentState (Rows : Type) := {
  conversation_history : list (HistoryEntry Rows);
  token_usage_stats : TokenStats
}.
Arguments conversation_history {Rows} a.
Arguments token_usage_stats {Rows} a.

Definition process_query {Rows} (w : World Rows) (st : AgentState Rows)
           (user_input : string) (context : option Context)
  : Response Rows * AgentState Rows :=
  let history := List.app (conversation_history st) [User user_input] in
  let ambiguity_check := check_ambiguity user_input context in
  if is_ambiguous ambiguity_check then
    let response :=
      {| type := "clarification_needed"; sql := None;
         explanation := Agent.explanation ambiguity_check;
         follow_up_questions := Some (questions ambiguity_check);
         confidence := Tenths 3; result := None |} in
    (response,
     {| conversation_history := List.app history [Agent response];
        token_usage_stats := token_usage_stats st |})
  else
    let (sql_result, stats) :=
      get_sql_from_nl w (token_usage_stats st) user_input context in
    let response :=
      match sql_result with
      | Success generated confidence_of_sql =>
          match validate_sql generated with
          | Accepted validated =>
              let exec_result := validate_and_execute w validated in
              {| type := "success"; sql := Some validated;
                 explanation := x_explanation exec_result;
                 follow_up_questions := None;
                 confidence := confidence_of_sql;
                 result := x_result exec_result |}
          | Rejected message =>
              {| type := "error"; sql := Some generated;
                 explanation := message;
                 follow_up_questions := None;
                 confidence := Tenths 5; result := None |}
          end
      | Failure message =>
          {| type := "error"; sql := None; explanation := message;
             follow_up_questions := None;
             confidence := Tenths 0; result := None |}
      end in
    (response,
     {| conversation_history := List.app history [Agent response];
        token_usage_stats := stats |}).

End Generation.

(** ** The integration function ([UI/components.py], [process_user_query]) *)

Module Components.
Import Py Agent PyMore Generation.

(** Its result: [{"error": ...}] when the agent gave no SQL,
    [{"error": ..., "suggestion": ...}] when the validator refused it
    (the suggestion is the empty text when the validator gave none),
    and the five-entry dictionary otherwise. *)
Inductive Reply (Rows : Type) :=
| NoSql (error : string)
| Invalid (error : string) (suggestion : string)
| Answer (sql : string) (explanation : string) (confidence : Confidence)
         (result : option Rows) (validation : Validator.ValidationResult).
Arguments NoSql {Rows} error.
Arguments Invalid {Rows} error suggestion.
Arguments Answer {Rows} sql explanation confidence result validation.

Definition process_user_query {Rows} (w : World Rows)
           (agent : AgentState Rows) (validator : Validator.SQLValidator)
           (user_input : string)
  : Reply Rows * AgentState Rows * Validator.SQLValidator :=
  let (agent_response, agent') := process_query w agent user_input None in
  match sql agent_response with
  | Some (String c rest) =>
      let sql := String c rest in
      let (validation, validator') :=
        Validator.validate_query validator sql in
      if negb (Validator.valid validation)
      then (Invalid (Validator.message validation)
                    (match Validator.suggestion validation with
                     | Some text => text
                     | None => ""
                     end), agent', validator')
      else (Answer sql (explanation agent_response)
                   (confidence agent_response) (result agent_response)
                   validation, agent', validator')
  | _ => (NoSql (explanation agent_response), agent', validator)
  end.

End Components.

(** ** The application ([app.py], [handle_user_query])

    The entry that [handle_user_query] stores in the session for a
    question. The time stamp and the execution time, which come from the
    clock, are left out, and so is the bookkeeping of the selected tab;
    the constant [status] entries, ["success"] and ["error"], are those
    of the constructors [Executed] and [ExecutionFailed]. *)

Module App.
Import Py Agent PyMore Generation.

(** What the application can reach: the world of the agent and the
    [execute_query] of the database manager, which returns the rows (no
    row when the engine refuses the statement: the manager logs the
    error and returns an empty frame) and raises only when no connection
    can be had. *)
Record AppWorld (Rows Row : Type) := {
  agent_world : World Rows;
  execute_query : string -> outcome (list Row)
}.
Arguments agent_world {Rows Row} _.
Arguments execute_query {Rows Row} _.

(** The text of an error entry. The two fixed messages start with a
    pictograph, which is no 8-bit character: [QuotaExceeded] stands for
    the message that ends in [Google API quota exceeded (50 requests/day
    limit reached). Please try again tomorrow or upgrade your API plan.]
    and [ApiKeyIssue] for the one that ends in [API key issue
    detected]. *)
Inductive ErrorMessage :=
| QuotaExceeded
| ApiKeyIssue
| Other (error_msg : string).

Inductive QueryResult (Row : Type) :=
| Clarification (explanation : string) (follow_up_questions : list string)
                (confidence : Confidence) (original_query : string)
| GenerationFailed (error : ErrorMessage) (suggestion : string)
| ValidationFailed (error : string) (suggestion : string) (sql : string)
| Executed (sql : string) (data : list Row) (explanation : string)
           (confidence : option Confidence) (message : option string)
           (row_count : nat)
| ExecutionFailed (error : string) (sql : string) (suggestion : string).
Arguments Clarification {Row} explanation follow_up_questions confidence
          original_query.
Arguments GenerationFailed {Row} error suggestion.
Arguments ValidationFailed {Row} error suggestion sql.
Arguments Executed {Row} sql data explanation confidence message row_count.
Arguments ExecutionFailed {Row} error sql suggestion.

(** [st.session_state]: the last result and the list of all of them,
    each with its question. *)
Record Session (Row : Type) := {
  last_query_result : option (QueryResult Row);
  query_results : list (string * QueryResult Row)
}.
Arguments last_query_result {Row} _.
Arguments query_results {Row} _.

Definition store {Row} (session : Session Row) (user_input : string)
           (result : QueryResult Row) : Session Row :=
  {| last_query_result := Some result;
     query_results := List.app (query_results session) [(user_input, result)] |}.

(** The error entry for a response without SQL or of type error. *)
Definition describe_error (explanation : string) : ErrorMessage * string :=
  let error_msg :=
    match explanation with
    | EmptyString => "Could not generate SQL query"
    | String _ _ => explanation
    end in
  if contains (lower error_msg) "quota" || contains error_msg "429" then
    (QuotaExceeded,
     "The free tier allows 50 requests per day. Consider upgrading to a paid plan for unlimited usage.")
  else if contains (lower error_msg) "api" && contains (lower error_msg) "key"
  then (ApiKeyIssue, "Please check your Google API key configuration.")
  else (Other error_msg,
        "Please try rephrasing your question or provide more specific details.").

Definition handle_user_query {Rows Row} (w : AppWorld Rows Row)
           (agent : AgentState Rows) (validator : Validator.SQLValidator)
           (session : Session Row) (user_input : string)
           (context : option Context)
  : Session Row * AgentState Rows * Validator.SQLValidator :=
  let (agent_result, agent') :=
    process_query (agent_world w) agent user_input context in
  let result_type := type agent_result in
  let explanation := Generation.explanation agent_result in
  let confidence := Generation.confidence agent_result in
  if String.eqb result_type "clarification_needed" then
    (store session user_input
       (Clarification explanation
          (match follow_up_questions agent_result with
           | Some asked => asked
           | None => []
           end)
          confidence user_input),
     agent', validator)
  else
    match (if String.eqb result_type "error" then None
           else match Generation.sql agent_result with
                | Some (String c rest) => Some (String c rest)
                | _ => None
                end) with
    | None =>
        let (error_msg, suggestion) := describe_error explanation in
        (store session user_input (GenerationFailed error_msg suggestion),
         agent', validator)
    | Some sql0 =>
        let (validation_result, validator') :=
          Validator.validate_query validator sql0 in
        let is_safe :=
          Validator.safe validation_result
          && Validator.valid validation_result in
        let sql :=
          match Validator.sql validation_result with
          | Some corrected => corrected
          | None => sql0
          end in
        if negb is_safe then
          (store session user_input
             (ValidationFailed
                ("Security validation failed: "
                 ++ Validator.message validation_result)
                "Please rephrase your query to avoid potentially harmful SQL patterns."
                sql),
           agent', validator')
        else
          match execute_query w sql with
          | Returned (row :: rows) =>
              let data := row :: rows in
              (store session user_input
                 (Executed sql data explanation (Some confidence) None
                           (List.length data)),
               agent', validator')
          | Returned [] =>
              (store session user_input
                 (Executed sql [] explanation None
                    (Some "Query executed successfully but returned no results.")
                    0),
               agent', validator')
          | Raised e =>
              (store session user_input
                 (ExecutionFailed ("Database execution failed: " ++ e) sql
                    "Please check your query syntax or try a different approach."),
               agent', validator')
          end
    end.

End App.

(** ** A world to run the agent in *)

Module Sample.
Import Agent PyMore Generation.

Definition Rows : Type := list (list (string * string)).

(** The model gives the same answer to every prompt, the database has no
    rows, slicing a mapping raises a [TypeError]. *)
Definition world (answer : outcome string) : World Rows :=
  {| llm_invoke := fun _ => answer;
     db_run := fun _ => Returned [];
     slice_error := fun _ => "unhashable type: 'slice'" |}.

Definition fresh : AgentState Rows :=
  {| conversation_history := [];
     token_usage_stats := {| total_tokens := 0; queries_processed := 0 |} |}.

(** The context that [process_clarified_query] builds after one answer. *)
Definition answered : Context :=
  [ ("previous_query", Text "show recent transactions");
    ("clarifications",
     Answers [("How recent? (e.g., 'last 7 days', 'last month', 'this year')",
               "last 7 days")]);
    ("additional_info", Text "User provided 1 clarifications") ].

Definition quota_exceeded : string :=
  "429 You exceeded your current quota, please check your plan and billing details.".

(** The same world for the application: the database manager finds no
    row; and a session in which nothing has been asked yet. *)
Definition Row : Type := list (string * string).

Definition desk (answer : outcome string) : App.AppWorld Rows Row :=
  {| App.agent_world := world answer;
     App.execute_query := fun _ => Returned [] |}.

Definition blank : App.Session Row :=
  {| App.last_query_result := None; App.query_results := [] |}.

End Sample.

(** ** Shapes of texts that the properties name *)

Module Shape.
Import Py.

(** The text is empty or starts with a character that is not
    whitespace. *)
Definition clean_start (s : string) : bool :=
  match s with
  | EmptyString => true
  | String c _ => negb (is_space c)
  end.

(** No whitespace but the blank, and no blank after a blank;
    [prev_space] tells whether the character before is a blank. *)
Fixpoint single_spaced (prev_space : bool) (s : string) : bool :=
  match s with
  | EmptyString => true
  | String c s' =>
      if is_space c
      then Ascii.eqb c " "%char && negb prev_space && single_spaced true s'
      else single_spaced false s'
  end.

(** A word: not empty, no whitespace. *)
Fixpoint no_space (s : string) : bool :=
  match s with
  | EmptyString => true
  | String c s' => negb (is_space c) && no_space s'
  end.

Definition is_word (w : string) : Prop := no_space w = true /\ w <> "".

End Shape.

(** ** Texts and matchers that do not see the case of letters *)

Module Case.
Import Py Re.

(** A character that only itself is mapped to by [lower]. *)
Definition caseless (a : ascii) : Prop :=
  forall c, same a (lower_char c) = same a c.

(** A matcher that commutes with [lower]. *)
Definition blind (m : matcher) : Prop :=
  forall s, m (lower s) = option_map lower (m s).

End Case.

(** ** Facts about characters and strings *)

Module PyFacts.
Import Py Re.

Ltac all_chars c :=
  destruct c as [[] [] [] [] [] [] [] []]; vm_compute; try reflexivity;
  try discriminate; auto.

Lemma word_upper_char c : is_word_char (upper_char c) = is_word_char c.
Proof. all_chars c. Qed.

Lemma space_upper_char c : is_space (upper_char c) = is_space c.
Proof. all_chars c. Qed.

Lemma upper_lower_char c : upper_char (lower_char c) = upper_char c.
Proof. all_chars c. Qed.

Lemma same_eq a b : same a b = true -> a = b.
Proof. unfold same. apply Ascii.eqb_eq. Qed.

Lemma same_ci_upper a b : same_ci a b = true -> upper_char a = upper_char b.
Proof.
  unfold same_ci. intros H. apply Ascii.eqb_eq in H.
  rewrite <- (upper_lower_char a), <- (upper_lower_char b). now rewrite H.
Qed.

Lemma append_nil_r s : s ++ "" = s.
Proof. induction s; simpl; congruence. Qed.

Lemma append_assoc a b c : (a ++ b) ++ c = a ++ b ++ c.
Proof. induction a; simpl; congruence. Qed.

Lemma length_append a b :
  String.length (a ++ b) = String.length a + String.length b.
Proof. induction a; simpl; congruence. Qed.

Lemma length_map_str f s : String.length (map_str f s) = String.length s.
Proof. induction s; simpl; congruence. Qed.

Lemma map_str_append f a b : map_str f (a ++ b) = map_str f a ++ map_str f b.
Proof. induction a; simpl; congruence. Qed.

Lemma drop_map_str f n s : drop n (map_str f s) = map_str f (drop n s).
Proof.
  revert s; induction n; intros [|c s]; simpl; auto.
Qed.

Lemma drop_append a b : drop (String.length a) (a ++ b) = b.
Proof. induction a; simpl; auto. Qed.

Lemma length_drop n s : String.length (drop n s) = String.length s - n.
Proof. revert s; induction n; intros [|c s]; simpl; auto. Qed.

Lemma take_drop n s : s = take n s ++ drop n s.
Proof. revert s; induction n; intros [|c s]; simpl; auto. now rewrite <- IHn. Qed.

Lemma prefix_nonempty eqc p s :
  p <> "" -> prefix_by eqc p s = true -> s <> "".
Proof. destruct p, s; simpl; congruence. Qed.

Lemma replace_by_nonempty eqc old new s :
  old <> "" ->
  replace_by eqc old new s = replace_fuel eqc (String.length s) old new s.
Proof. destruct old; [congruence | reflexivity]. Qed.

Lemma existsb_eq {A} (f g : A -> bool) l :
  (forall x, f x = g x) -> existsb f l = existsb g l.
Proof. intros E. induction l; simpl; congruence. Qed.

Lemma upper_cons c s :
  Ascii.eqb c sharp_s = false ->
  upper (String c s) = String (upper_char c) (upper s).
Proof. intros H. cbn [upper]. now rewrite H. Qed.

Lemma upper_sharp s : upper (String sharp_s s) = String "S" (String "S" (upper s)).
Proof. reflexivity. Qed.

Lemma upper_append a b : upper (a ++ b) = upper a ++ upper b.
Proof.
  induction a as [|c a IH]; [reflexivity|].
  cbn [append upper]. rewrite IH. now destruct (Ascii.eqb c sharp_s).
Qed.

End PyFacts.

(** ** The replacement loops are total *)

Module FuelFacts.
Import Py Re PyFacts.

(** The fuel given to the replacement loops is enough: any larger amount
    gives the same result, and the functions satisfy the equations of the
    loops they stand for. *)
Lemma replace_fuel_enough eqc old new : forall n m s,
  old <> "" -> String.length s <= n -> String.length s <= m ->
  replace_fuel eqc n old new s = replace_fuel eqc m old new s.
Proof.
  induction n as [|n IH]; intros m s Ho Hn Hm.
  - destruct s; [|simpl in Hn; lia]. destruct m; simpl; auto.
    destruct old; [congruence | reflexivity].
  - destruct m as [|m].
    + destruct s; [|simpl in Hm; lia]. simpl.
      destruct old; [congruence | reflexivity].
    + cbn [replace_fuel].
      destruct (prefix_by eqc old s) eqn:E.
      * f_equal. apply IH; auto;
          rewrite length_drop; destruct old; try congruence;
          destruct s; try discriminate; simpl in *; lia.
      * destruct s; auto. f_equal. apply IH; auto; simpl in *; lia.
Qed.

Lemma replace_equation s old new :
  old <> "" ->
  replace s old new =
  if startswith s old
  then new ++ replace (drop (String.length old) s) old new
  else match s with
       | EmptyString => EmptyString
       | String c s' => String c (replace s' old new)
       end.
Proof.
  intros Ho. unfold replace, startswith.
  rewrite !(replace_by_nonempty _ _ _ _ Ho).
  destruct s as [|c s].
  - destruct old; [congruence | reflexivity].
  - cbn [String.length replace_fuel].
    destruct (prefix_by same old (String c s)) eqn:E.
    + f_equal. apply replace_fuel_enough; auto.
      rewrite length_drop. destruct old; [congruence|]. simpl. lia.
    + now rewrite (replace_by_nonempty _ _ _ _ Ho).
Qed.

Lemma sub_word_fuel_enough w new : forall n m b s,
  w <> "" -> String.length s <= n -> String.length s <= m ->
  sub_word_fuel n w new b s = sub_word_fuel m w new b s.
Proof.
  induction n as [|n IH]; intros m b s Hw Hn Hm.
  - destruct s; [|simpl in Hn; lia]. destruct m; simpl; auto.
    destruct w; [congruence|]. now rewrite andb_false_r.
  - destruct m as [|m].
    + destruct s; [|simpl in Hm; lia]. simpl.
      destruct w; [congruence|]. now rewrite andb_false_r.
    + cbn [sub_word_fuel].
      destruct (negb b && word_here same_ci w s) eqn:E.
      * f_equal. apply IH; auto;
          rewrite length_drop; destruct w; try congruence;
          destruct s; simpl in *; try lia;
          rewrite andb_false_r in E; discriminate.
      * destruct s; auto. f_equal. apply IH; auto; simpl in *; lia.
Qed.

End FuelFacts.

(** ** Replacement rules keep whole-word occurrences *)

Module KeywordFacts.
Import Py Re Keyword PyFacts.

Lemma occurs_unfold k b s :
  occurs k b s =
  (negb b && word_here same_up k s)
  || match s with
     | EmptyString => false
     | String c s' => occurs k (is_word_char c) s'
     end.
Proof. destruct s; reflexivity. Qed.

Lemma occurs_here k s : word_here same_up k s = true -> occurs k false s = true.
Proof. intros H. rewrite occurs_unfold, H. reflexivity. Qed.

Lemma occurs_weaken k b s : occurs k b s = true -> occurs k false s = true.
Proof.
  rewrite !occurs_unfold. intros H. apply orb_true_iff in H.
  apply orb_true_iff. destruct H as [H|H]; [left|right]; auto.
  apply andb_true_iff in H. now destruct H as [_ ->].
Qed.

Lemma last_class_cons b c s : last_class b (String c s) = last_class (is_word_char c) s.
Proof. reflexivity. Qed.

Lemma last_class_nonempty b b' s : s <> "" -> last_class b s = last_class b' s.
Proof. destruct s; [congruence | reflexivity]. Qed.

(** Putting text in front of an occurrence keeps it, as long as the text
    does not end in a word character that the occurrence was not already
    preceded by. *)
Lemma occurs_prepend k r : forall b b' u,
  occurs k b' u = true ->
  (last_class b r = true -> b' = true) ->
  occurs k b (r ++ u) = true.
Proof.
  induction r as [|c r IH]; intros b b' u Hu Hb; cbn [append].
  - simpl in Hb. destruct b.
    + rewrite (Hb eq_refl) in Hu. exact Hu.
    + now apply occurs_weaken with b'.
  - rewrite occurs_unfold. apply orb_true_iff. right.
    apply IH with b'; auto.
Qed.

Section Rule.

Variable eqc : ascii -> ascii -> bool.
Hypothesis eqc_upper : forall a b, eqc a b = true -> upper_char a = upper_char b.

Lemma eqc_word a b : eqc a b = true -> is_word_char a = is_word_char b.
Proof.
  intros H. rewrite <- (word_upper_char a), <- (word_upper_char b).
  now rewrite (eqc_upper _ _ H).
Qed.

(** A match of [p] and an occurrence of [k] at the same place are
    compatible. *)
Lemma compat_complete p : forall k t,
  prefix_by eqc p t = true -> word_here same_up k t = true ->
  compat p k = true.
Proof.
  induction p as [|c p IH]; intros k t Hp Hk; [reflexivity|].
  destruct t as [|d t]; [discriminate|]. simpl in Hp.
  apply andb_true_iff in Hp. destruct Hp as [Hcd Hp].
  destruct k as [|x k]; simpl.
  - unfold word_here in Hk. simpl in Hk. now rewrite (eqc_word _ _ Hcd).
  - unfold word_here in Hk. simpl in Hk.
    apply andb_true_iff in Hk. destruct Hk as [Hk He].
    apply andb_true_iff in Hk. destruct Hk as [Hx Hk].
    apply andb_true_iff. split.
    + unfold same_up in *. now rewrite (eqc_upper _ _ Hcd).
    + apply IH with t; auto. unfold word_here. now rewrite Hk, He.
Qed.

Variables k old new : string.
Hypothesis keeps : rule_keeps k (old, new) = true.

Lemma keeps_parts :
  old <> "" /\ new <> ""
  /\ word_starts_inside k true old = false
  /\ match_starts_inside old k = false
  /\ (first_class new = true -> first_class old = true)
  /\ (last_class false new = true -> last_class false old = true).
Proof.
  unfold rule_keeps in keeps.
  repeat (apply andb_true_iff in keeps; destruct keeps as [keeps ?]).
  repeat split.
  - destruct old; [discriminate | congruence].
  - destruct new; [discriminate | congruence].
  - now apply negb_true_iff.
  - now apply negb_true_iff.
  - intros E. rewrite E in *. simpl in *. auto.
  - intros E. rewrite E in *. simpl in *. auto.
Qed.

(** The tail of an occurrence goes through a replacement untouched. *)
Lemma tail_kept : forall ks n s,
  match_starts_inside old ks = false ->
  String.length s <= n ->
  word_here same_up ks s = true ->
  word_here same_up ks (replace_fuel eqc n old new s) = true.
Proof.
  destruct keeps_parts as (Ho & Hn & _ & _ & Hf & _).
  induction ks as [|x ks IH]; intros n s Hm Hlen Hw.
  - unfold word_here in *. simpl in *.
    destruct n as [|n]; [assumption|]. simpl.
    destruct (prefix_by eqc old s) eqn:Hp.
    + destruct old as [|p0 o]; [congruence|].
      destruct new as [|r0 r]; [congruence|].
      destruct s as [|d s]; [discriminate|]. simpl in *.
      apply andb_true_iff in Hp. destruct Hp as [Hp _].
      rewrite <- (eqc_word _ _ Hp) in Hw.
      destruct (is_word_char r0); auto.
      rewrite (Hf eq_refl) in Hw. discriminate.
    + destruct s; auto.
  - simpl in Hm. apply orb_false_iff in Hm. destruct Hm as [Hc Hm].
    assert (Hp : prefix_by eqc old s = false).
    { destruct (prefix_by eqc old s) eqn:Hp; auto.
      rewrite (compat_complete _ _ _ Hp Hw) in Hc. discriminate. }
    destruct s as [|d s]; [discriminate|].
    destruct n as [|n]; [simpl in Hlen; lia|].
    simpl replace_fuel. rewrite Hp.
    unfold word_here in *. simpl in *.
    apply andb_true_iff in Hw. destruct Hw as [Hw He].
    apply andb_true_iff in Hw. destruct Hw as [Hx Hw].
    rewrite Hx. simpl.
    apply (IH n s Hm); [lia|]. now rewrite Hw, He.
Qed.

(** An occurrence found in a text that starts with a match of (a tail of)
    [old] lies after that match. *)
Lemma skip_match : forall x s b,
  prefix_by eqc x s = true ->
  word_starts_inside k (negb b) x = false ->
  occurs k b s = true ->
  occurs k (last_class b x) (drop (String.length x) s) = true.
Proof.
  induction x as [|c x IH]; intros s b Hp Hw Ho; [assumption|].
  destruct s as [|d s]; [discriminate|].
  cbn [word_starts_inside] in Hw.
  apply orb_false_iff in Hw. destruct Hw as [Hc Hw].
  rewrite occurs_unfold in Ho. apply orb_true_iff in Ho.
  destruct Ho as [Ho|Ho].
  - apply andb_true_iff in Ho. destruct Ho as [Hb Ho].
    rewrite Hb, (compat_complete _ _ _ Hp Ho) in Hc. discriminate.
  - simpl in Hp. apply andb_true_iff in Hp. destruct Hp as [Hcd Hp].
    rewrite last_class_cons. simpl drop.
    rewrite <- (eqc_word _ _ Hcd) in Ho.
    apply IH; auto.
Qed.

Lemma replace_fuel_keeps : forall n s b,
  String.length s <= n ->
  occurs k b s = true ->
  occurs k b (replace_fuel eqc n old new s) = true.
Proof.
  destruct keeps_parts as (Ho & Hn & Hin & Hm & _ & Hl).
  induction n as [|n IH]; intros s b Hlen Hocc; [assumption|].
  rewrite occurs_unfold in Hocc. apply orb_true_iff in Hocc.
  destruct Hocc as [Hocc|Hocc].
  - apply andb_true_iff in Hocc. destruct Hocc as [Hb Hw].
    apply negb_true_iff in Hb. subst b.
    apply occurs_here. now apply tail_kept.
  - simpl. destruct (prefix_by eqc old s) eqn:Hp.
    + assert (Hall : occurs k b s = true).
      { rewrite occurs_unfold, Hocc. apply orb_true_r. }
      assert (Hs : s <> "") by exact (prefix_nonempty eqc old s Ho Hp).
      apply occurs_prepend with (last_class b old).
      * apply IH.
        -- rewrite length_drop. destruct old; [congruence|].
           destruct s; [congruence|]. simpl in *. lia.
        -- apply skip_match; auto.
           destruct b; simpl; auto.
           clear - Hin. revert Hin. generalize true.
           induction old as [|c o IHo]; intros b0 H; [reflexivity|].
           simpl in *. apply orb_false_iff in H. destruct H as [_ H].
           exact H.
      * rewrite (last_class_nonempty b false new Hn),
                (last_class_nonempty b false old Ho). exact Hl.
    + destruct s as [|d s]; [discriminate|].
      rewrite occurs_unfold. apply orb_true_iff. right.
      apply IH; [simpl in Hlen; lia | assumption].
Qed.

Lemma replace_by_keeps s b :
  occurs k b s = true -> occurs k b (replace_by eqc old new s) = true.
Proof.
  destruct keeps_parts as (Ho & _).
  rewrite (replace_by_nonempty _ _ _ _ Ho).
  intros H. apply replace_fuel_keeps; auto.
Qed.

End Rule.

End KeywordFacts.

(** ** The validator *)

Module ValidatorFacts.
Import Py Re Keyword Validator PyFacts KeywordFacts.

Lemma same_eq_upper a b : same a b = true -> upper_char a = upper_char b.
Proof. intros H. now rewrite (same_eq _ _ H). Qed.

Lemma plain_cons x k :
  plain (String x k) = true ->
  Ascii.eqb x "S"%char = false /\ Ascii.eqb x sharp_s = false
  /\ plain k = true.
Proof.
  cbn [plain]. intros H.
  apply andb_true_iff in H. destruct H as [H Hk].
  apply andb_true_iff in H. destruct H as [H1 H2].
  apply negb_true_iff in H1. apply negb_true_iff in H2. auto.
Qed.

(** A sharp s of the text matches no character of a plain keyword,
    neither as it is nor upper-cased. *)
Lemma prefix_upper w : forall s,
  plain w = true -> prefix_by same w (upper s) = prefix_by same_up w s.
Proof.
  induction w as [|a w IH]; intros [|c s] P; try reflexivity.
  destruct (plain_cons _ _ P) as (H1 & H2 & Pw).
  destruct (Ascii.eqb c sharp_s) eqn:E.
  - apply Ascii.eqb_eq in E. subst c. rewrite upper_sharp.
    cbn [prefix_by]. unfold same, same_up.
    change (upper_char sharp_s) with sharp_s. now rewrite H1, H2.
  - rewrite (upper_cons _ _ E). cbn [prefix_by]. now rewrite IH.
Qed.

Lemma drop_upper_matched w : forall s,
  plain w = true -> prefix_by same_up w s = true ->
  drop (String.length w) (upper s) = upper (drop (String.length w) s).
Proof.
  induction w as [|a w IH]; intros [|c s] P H; try reflexivity;
    try discriminate H.
  destruct (plain_cons _ _ P) as (H1 & H2 & Pw).
  cbn [prefix_by] in H. apply andb_true_iff in H. destruct H as [Ha H].
  destruct (Ascii.eqb c sharp_s) eqn:E.
  - apply Ascii.eqb_eq in E. subst c. unfold same_up in Ha.
    change (upper_char sharp_s) with sharp_s in Ha. congruence.
  - rewrite (upper_cons _ _ E). cbn [String.length drop]. now apply IH.
Qed.

Lemma end_boundary_upper s : end_boundary (upper s) = end_boundary s.
Proof.
  destruct s as [|c s]; [reflexivity|].
  destruct (Ascii.eqb c sharp_s) eqn:E.
  - apply Ascii.eqb_eq in E. subst c. reflexivity.
  - rewrite (upper_cons _ _ E). cbn [end_boundary].
    now rewrite word_upper_char.
Qed.

Lemma word_here_upper w s :
  plain w = true -> word_here same w (upper s) = word_here same_up w s.
Proof.
  intros P. unfold word_here. rewrite (prefix_upper w s P).
  destruct (prefix_by same_up w s) eqn:H; [|reflexivity].
  now rewrite (drop_upper_matched w s P H), end_boundary_upper.
Qed.

Lemma search_words_upper ws :
  forallb plain ws = true ->
  forall s b,
    search_words same ws b (upper s) = search_words same_up ws b s.
Proof.
  intros P.
  assert (E : forall s, existsb (fun w => word_here same w (upper s)) ws
                        = existsb (fun w => word_here same_up w s) ws).
  { intros s. clear - P. induction ws as [|w ws IH]; [reflexivity|].
    cbn [forallb] in P. apply andb_true_iff in P. destruct P as [Pw P].
    cbn [existsb]. now rewrite (word_here_upper w s Pw), IH. }
  induction s as [|c s IH]; intros b.
  - cbn [search_words upper]. now rewrite <- (E "").
  - destruct (Ascii.eqb c sharp_s) eqn:Ec.
    + apply Ascii.eqb_eq in Ec. subst c.
      pose proof (E (String sharp_s s)) as E1. rewrite upper_sharp in *.
      cbn [search_words]. rewrite E1.
      change (is_word_char "S") with true.
      change (is_word_char sharp_s) with true.
      cbn [negb andb orb]. now rewrite IH.
    + pose proof (E (String c s)) as E1. rewrite (upper_cons _ _ Ec) in *.
      cbn [search_words]. now rewrite E1, IH, word_upper_char.
Qed.

Lemma search_words_nil eqc : forall s b, search_words eqc [] b s = false.
Proof.
  induction s as [|c s IH]; intros b; cbn [search_words existsb].
  - now rewrite andb_false_r.
  - now rewrite andb_false_r, IH.
Qed.

Lemma search_words_cons w ws : forall s b,
  search_words same_up (w :: ws) b s
  = occurs w b s || search_words same_up ws b s.
Proof.
  induction s as [|c s IH]; intros b.
  - cbn [search_words occurs existsb].
    destruct (negb b), (word_here same_up w ""),
      (existsb (fun w0 => word_here same_up w0 "") ws); reflexivity.
  - cbn [search_words occurs existsb]. rewrite IH.
    destruct (negb b), (word_here same_up w (String c s)),
      (existsb (fun w0 => word_here same_up w0 (String c s)) ws),
      (occurs w (is_word_char c) s),
      (search_words same_up ws (is_word_char c) s); reflexivity.
Qed.

Lemma search_words_occurs ws : forall s b,
  search_words same_up ws b s = existsb (fun w => occurs w b s) ws.
Proof.
  induction ws as [|w ws IH]; intros s b.
  - apply search_words_nil.
  - rewrite search_words_cons, IH. reflexivity.
Qed.

(** A text whose upper-case form is a plain keyword has no sharp s: the
    form is made character by character. *)
Lemma upper_plain w : forall k,
  upper w = k -> plain k = true -> map_str upper_char w = k.
Proof.
  induction w as [|c w IH]; intros k H P; [exact H|].
  destruct (Ascii.eqb c sharp_s) eqn:E.
  - apply Ascii.eqb_eq in E. subst c. rewrite upper_sharp in H. subst k.
    cbn [plain] in P. discriminate P.
  - rewrite (upper_cons _ _ E) in H. subst k.
    destruct (plain_cons _ _ P) as (_ & _ & Pk).
    cbn [map_str]. now rewrite (IH _ eq_refl Pk).
Qed.

Lemma prefix_mapped w b :
  prefix_by same_up (map_str upper_char w) (w ++ b) = true.
Proof.
  induction w as [|c w IH]; [reflexivity|].
  cbn [map_str append prefix_by]. unfold same_up at 1.
  now rewrite Ascii.eqb_refl.
Qed.

(** The declarative reading of "contains the word" implies the search. *)
Lemma whole_word_occurs k q :
  plain k = true -> whole_word_in k q -> occurs k false q = true.
Proof.
  intros P (a & w & b & -> & Hw & Ha & Hb).
  apply upper_plain in Hw; [|exact P].
  revert Ha. generalize false at 1 3.
  induction a as [|c a IH]; intros b0 Ha.
  - simpl in Ha. subst b0. cbn [append]. apply occurs_here.
    unfold word_here. rewrite <- Hw.
    rewrite length_map_str, drop_append, Hb, andb_true_r.
    apply prefix_mapped.
  - cbn [append]. rewrite occurs_unfold. apply orb_true_iff. right.
    apply IH. exact Ha.
Qed.

Lemma prefix_upper_take k : forall s,
  plain k = true ->
  prefix_by same_up k s = true -> upper (take (String.length k) s) = k.
Proof.
  induction k as [|x k IH]; intros [|c s] P H; try discriminate H;
    try reflexivity.
  destruct (plain_cons _ _ P) as (H1 & H2 & Pk).
  cbn [prefix_by] in H. apply andb_true_iff in H. destruct H as [Hx H].
  unfold same_up in Hx. apply Ascii.eqb_eq in Hx.
  assert (E : Ascii.eqb c sharp_s = false).
  { destruct (Ascii.eqb c sharp_s) eqn:E; [|reflexivity].
    apply Ascii.eqb_eq in E. subst c.
    change (upper_char sharp_s) with sharp_s in Hx. subst x.
    now rewrite Ascii.eqb_refl in H2. }
  cbn [String.length take]. rewrite (upper_cons _ _ E).
  now rewrite (IH _ Pk H), <- Hx.
Qed.

(** The search finds exactly the whole-word occurrences. *)
Lemma occurs_whole_word k :
  plain k = true ->
  forall q b,
    occurs k b q = true ->
    exists a w t,
      q = a ++ w ++ t /\ upper w = k
      /\ last_class b a = false /\ end_boundary t = true.
Proof.
  intros P.
  induction q as [|c q IH]; intros b H; rewrite occurs_unfold in H;
    apply orb_true_iff in H; destruct H as [H|H]; try discriminate H.
  - apply andb_true_iff in H. destruct H as [Hb H].
    apply negb_true_iff in Hb. unfold word_here in H.
    apply andb_true_iff in H. destruct H as [Hp He].
    exists "", (take (String.length k) ""), (drop (String.length k) "").
    repeat split; auto. + apply take_drop. + now apply prefix_upper_take.
  - apply andb_true_iff in H. destruct H as [Hb H].
    apply negb_true_iff in Hb. unfold word_here in H.
    apply andb_true_iff in H. destruct H as [Hp He].
    exists "", (take (String.length k) (String c q)),
      (drop (String.length k) (String c q)).
    repeat split; auto. + apply take_drop. + now apply prefix_upper_take.
  - destruct (IH _ H) as (a & w & t & -> & Hw & Ha & Ht).
    exists (String c a), w, t. repeat split; auto.
Qed.

Lemma whole_word_iff k q :
  plain k = true -> (whole_word_in k q <-> occurs k false q = true).
Proof.
  intros P. split; [now apply whole_word_occurs | now apply occurs_whole_word].
Qed.

Section Kept.

Variable k : string.
Hypothesis all_kept : kept_by_all k.

Lemma rule_kept old new : In (old, new) all_rules -> rule_keeps k (old, new) = true.
Proof.
  intros H. unfold kept_by_all in all_kept.
  rewrite forallb_forall in all_kept. now apply all_kept.
Qed.

Lemma replace_keeps s old new b :
  In (old, new) all_rules ->
  occurs k b s = true -> occurs k b (replace s old new) = true.
Proof.
  intros Hin. unfold replace.
  apply replace_by_keeps; [exact same_eq_upper | now apply rule_kept].
Qed.

Lemma fold_left_invariant (P : string -> Prop)
      (step : string -> string * string -> string) rules :
  (forall s r, In r rules -> P s -> P (step s r)) ->
  forall s, P s -> P (fold_left step rules s).
Proof.
  induction rules as [|r rules IH]; intros Hstep s Hs; simpl; auto.
  apply IH.
  - intros s' r' Hin. apply Hstep. now right.
  - apply Hstep; [now left | assumption].
Qed.

Lemma replace_all_keeps rules s b :
  incl rules all_rules ->
  occurs k b s = true -> occurs k b (replace_all rules s) = true.
Proof.
  intros Hincl. unfold replace_all.
  apply fold_left_invariant with (P := fun t => occurs k b t = true).
  intros t [old new] Hin Ht. apply replace_keeps; auto.
Qed.

Lemma incl_date : incl date_rules all_rules.
Proof. unfold all_rules. intros r H. apply in_or_app. now left. Qed.

Lemma incl_name : incl name_rules all_rules.
Proof.
  unfold all_rules. intros r H. apply in_or_app. right.
  apply in_or_app. now left.
Qed.

Lemma incl_ambiguous : incl ambiguous_fixes all_rules.
Proof.
  unfold all_rules. intros r H. do 2 (apply in_or_app; right).
  apply in_or_app. now left.
Qed.

Lemma incl_table : incl table_fixes all_rules.
Proof.
  unfold all_rules. intros r H. do 3 (apply in_or_app; right).
  apply in_or_app. now left.
Qed.

Lemma incl_typo : incl typo_fixes all_rules.
Proof.
  unfold all_rules. intros r H. do 4 (apply in_or_app; right). exact H.
Qed.

Lemma fix_date_column_keeps s b :
  occurs k b s = true -> occurs k b (fix_date_column s) = true.
Proof.
  intros H. unfold fix_date_column.
  destruct (_ || _); auto. apply replace_all_keeps; auto using incl_date.
Qed.

Lemma fix_name_column_keeps s b :
  occurs k b s = true -> occurs k b (fix_name_column s) = true.
Proof.
  intros H. unfold fix_name_column.
  destruct (_ || _); auto. apply replace_all_keeps; auto using incl_name.
Qed.

Lemma fix_ambiguous_columns_keeps s b :
  occurs k b s = true -> occurs k b (fix_ambiguous_columns s) = true.
Proof.
  intros H. unfold fix_ambiguous_columns.
  destruct (_ || _); auto.
  apply fold_left_invariant with (P := fun t => occurs k b t = true); auto.
  intros t [old new] Hin Ht. unfold apply_ambiguous_fix.
  destruct (_ && _); auto.
  apply replace_keeps; auto. now apply incl_ambiguous.
Qed.

Lemma fix_table_references_keeps s b :
  occurs k b s = true -> occurs k b (fix_table_references s) = true.
Proof.
  intros H. unfold fix_table_references.
  apply fold_left_invariant with (P := fun t => occurs k b t = true); auto.
  intros t [old new] Hin Ht. unfold apply_table_fix.
  destruct (contains t old); auto.
  apply replace_keeps; auto. now apply incl_table.
Qed.

Lemma fix_typos_keeps s b :
  occurs k b s = true -> occurs k b (fix_typos s) = true.
Proof.
  intros H. unfold fix_typos.
  apply fold_left_invariant with (P := fun t => occurs k b t = true); auto.
  intros t [old new] Hin Ht. unfold apply_typo_fix.
  destruct (contains (lower t) old); auto.
  destruct (negb _); auto.
  unfold sub_literal_ci.
  apply replace_by_keeps; [exact same_ci_upper | | exact Ht].
  apply rule_kept. now apply incl_typo.
Qed.

(** The rewriting of [validate_query] keeps every whole-word occurrence
    of a keyword that all its rules keep. *)
Lemma apply_fixes_keeps s b :
  occurs k b s = true -> occurs k b (apply_fixes s) = true.
Proof.
  intros H. unfold apply_fixes.
  apply fix_typos_keeps, fix_table_references_keeps,
    fix_ambiguous_columns_keeps, fix_name_column_keeps,
    fix_date_column_keeps, H.
Qed.

End Kept.

Lemma drop_kept : kept_by_all "DROP".
Proof. vm_compute. reflexivity. Qed.

Lemma truncate_kept : kept_by_all "TRUNCATE".
Proof. vm_compute. reflexivity. Qed.

Lemma alter_kept : kept_by_all "ALTER".
Proof. vm_compute. reflexivity. Qed.

Lemma delete_kept : kept_by_all "DELETE".
Proof. vm_compute. reflexivity. Qed.

Lemma has_destructive_keyword_occurs s :
  has_destructive_keyword (upper s)
  = occurs "DROP" false s || occurs "TRUNCATE" false s
    || occurs "ALTER" false s.
Proof.
  unfold has_destructive_keyword.
  rewrite search_words_upper by reflexivity.
  rewrite search_words_occurs. simpl.
  now rewrite orb_false_r, orb_assoc.
Qed.

Lemma apply_fixes_keeps_destructive q :
  has_destructive_keyword (upper q) = true ->
  has_destructive_keyword (upper (apply_fixes q)) = true.
Proof.
  rewrite !has_destructive_keyword_occurs. intros H.
  apply orb_true_iff in H. destruct H as [H|H].
  - apply orb_true_iff in H. destruct H as [H|H].
    + now rewrite (apply_fixes_keeps _ drop_kept _ _ H).
    + rewrite (apply_fixes_keeps _ truncate_kept _ _ H).
      now rewrite orb_true_r.
  - rewrite (apply_fixes_keeps _ alter_kept _ _ H). now rewrite orb_true_r.
Qed.

Lemma check_safety_destructive level s :
  has_destructive_keyword (upper s) = true ->
  s_safe (check_safety level s) = false.
Proof.
  intros H. unfold check_safety.
  destruct (negb _); [reflexivity|]. now rewrite H.
Qed.

Lemma validate_query_unsafe v q :
  s_safe (check_safety (validation_level v) (apply_fixes q)) = false ->
  safe (fst (validate_query v q)) = false
  /\ valid (fst (validate_query v q)) = false
  /\ message (fst (validate_query v q))
     = s_message (check_safety (validation_level v) (apply_fixes q))
  /\ sql (fst (validate_query v q)) = None.
Proof.
  intros H. unfold validate_query. rewrite H. simpl. auto.
Qed.

End ValidatorFacts.

(** ** Properties of the validator *)

Module ValidatorClaims.
Import Py Re Keyword Validator Expected PyFacts KeywordFacts ValidatorFacts.

Lemma select_is_allowed level s :
  startswith s "SELECT" = true ->
  existsb (startswith s) (allowed_operations level) = true.
Proof.
  intros H. unfold allowed_operations.
  destruct (String.eqb level "strict"); [|destruct (String.eqb level "moderate")];
    simpl; now rewrite H.
Qed.

Lemma check_safety_select_destructive level s :
  startswith (upper s) "SELECT" = true ->
  has_destructive_keyword (upper s) = true ->
  check_safety level s =
  {| s_safe := false;
     s_message :=
       "Dangerous operation detected (DROP/TRUNCATE/ALTER not allowed)." |}.
Proof.
  intros Hs Hd. unfold check_safety.
  now rewrite (select_is_allowed level _ Hs), Hd.
Qed.

Lemma stacked_query_fixes : apply_fixes stacked_query = stacked_query.
Proof. vm_compute. reflexivity. Qed.

(** C1, as the code has it. The stacked statement is reported unsafe at
    every validation level, with the message of the destructive-keyword
    check: that check comes before the injection heuristics, so the
    multiple-statement heuristic, which does match the text, is never
    consulted. *)
Theorem stacked_drop_rejected_as_dangerous (v : SQLValidator) :
  fst (validate_query v stacked_query) =
  {| safe := false; valid := false;
     message :=
       "Dangerous operation detected (DROP/TRUNCATE/ALTER not allowed).";
     suggestion := None; sql := None |}
  /\ multiple_statements stacked_query = true.
Proof.
  split; [|vm_compute; reflexivity].
  unfold validate_query. rewrite stacked_query_fixes.
  rewrite check_safety_select_destructive by (vm_compute; reflexivity).
  reflexivity.
Qed.

(** C1, as stated, fails: in strict mode the message is not the one of
    the multiple-statement heuristic. *)
Lemma stacked_drop_message_is_not_injection :
  let r := fst (validate_query (Bank.validator "strict") stacked_query) in
  ~ (safe r = false
     /\ message r =
        "Possible SQL injection attempt detected (multiple statements).").
Proof. vm_compute. intros [_ H]. discriminate H. Qed.



Lemma check_safety_any_level level s :
  check_safety "strict" s = {| s_safe := true; s_message := "Safe query." |} ->
  check_safety level s = {| s_safe := true; s_message := "Safe query." |}.
Proof.
  unfold check_safety. intros H.
  destruct (existsb (startswith (upper s)) (allowed_operations "strict")) eqn:E;
    [|discriminate H].
  assert (Hs : startswith (upper s) "SELECT" = true).
  { simpl in E. now rewrite orb_false_r in E. }
  rewrite (select_is_allowed level _ Hs). exact H.
Qed.

(** C3 does not hold of the code. The first query below contains the
    whole word [update] and no [WHERE]; the date rewriting of
    [validate_query] turns [update FROM] into [uptransaction_date FROM]
    before the safety check looks at the text, and the query passes at
    every level. The second is an update of every row: it has no WHERE
    clause, but the guard looks for the letters WHERE anywhere in the
    text, finds them in a literal, and the query passes in moderate
    mode. *)
Theorem update_without_where_passes :
  (whole_word_in "UPDATE" literal_update_query
   /\ contains (upper literal_update_query) "WHERE" = false
   /\ apply_fixes literal_update_query = literal_update_query_fixed
   /\ forall level,
        fst (validate_query (Bank.validator level) literal_update_query) =
        {| safe := true; valid := true; message := "Query is valid.";
           suggestion := None; sql := Some literal_update_query_fixed |})
  /\ (whole_word_in "UPDATE" nowhere_update_query
      /\ search_words same ["WHERE"] false (upper nowhere_update_query)
         = false
      /\ fst (validate_query (Bank.validator "moderate") nowhere_update_query)
         = {| safe := true; valid := true; message := "Query is valid.";
              suggestion := None; sql := Some nowhere_update_query |}).
Proof.
  split.
  - split. { exists "SELECT ' date ", "update", " FROM ' AS note FROM transactions".
             repeat split; reflexivity. }
    split; [vm_compute; reflexivity|].
    assert (F : apply_fixes literal_update_query = literal_update_query_fixed)
      by (vm_compute; reflexivity).
    split; [exact F|]. intros level.
    unfold validate_query. rewrite F.
    rewrite (check_safety_any_level (validation_level (Bank.validator level)))
      by (vm_compute; reflexivity).
    vm_compute. reflexivity.
  - split. { exists "", "UPDATE", " accounts SET status = 'nowhere'".
             repeat split; reflexivity. }
    split; vm_compute; reflexivity.
Qed.

(** Without the rewriting the guard does what C3 says: a text that the
    safety check receives with DELETE or UPDATE as a whole word and without
    the letters WHERE is unsafe. *)
Lemma check_safety_mutation_without_where level s :
  has_mutation_keyword (upper s) = true ->
  contains (upper s) "WHERE" = false ->
  s_safe (check_safety level s) = false.
Proof.
  intros Hm Hw. unfold check_safety.
  destruct (negb _); [reflexivity|].
  destruct (has_destructive_keyword _); [reflexivity|].
  now rewrite Hm, Hw.
Qed.

Lemma typo_query_fixes : apply_fixes typo_query = "SELECT * FROM customers".
Proof. vm_compute. reflexivity. Qed.

(** The same holds of [validate_query] in terms of the text it has
    rewritten, and a whole-word DELETE always survives the rewriting:
    among the two mutation keywords only UPDATE can be lost. *)
Lemma rewritten_mutation_without_where_rejected v q :
  has_mutation_keyword (upper (apply_fixes q)) = true ->
  contains (upper (apply_fixes q)) "WHERE" = false ->
  safe (fst (validate_query v q)) = false.
Proof.
  intros Hm Hw. apply validate_query_unsafe.
  now apply check_safety_mutation_without_where.
Qed.

Lemma delete_survives_rewriting q :
  whole_word_in "DELETE" q ->
  has_mutation_keyword (upper (apply_fixes q)) = true.
Proof.
  intros H. apply whole_word_occurs in H; [|reflexivity].
  unfold has_mutation_keyword.
  rewrite search_words_upper by reflexivity.
  rewrite search_words_occurs. cbn [existsb].
  now rewrite (apply_fixes_keeps _ delete_kept _ _ H).
Qed.

End ValidatorClaims.

(** ** Properties of the ambiguity classifier *)

Module ClassifierClaims.
Import Py Re Agent PyFacts.

(** C6. With a context that has the key [clarifications], whatever is
    stored under it, classification is skipped: the answer is "not
    ambiguous" with no question, for every input. *)
Theorem clarifications_skip_classification
        (user_input : string) (context : Context) :
  has_key "clarifications" context = true ->
  check_ambiguity user_input (Some context) = Expected.skipped.
Proof.
  intros H. unfold check_ambiguity.
  destruct context as [|entry rest]; [discriminate H|].
  cbn [truthy]. now rewrite H.
Qed.

Lemma clarifications_skip_classification_witness :
  has_key "clarifications" [("clarifications", Answers [])] = true
  /\ check_ambiguity "Show me recent transactions"
       (Some [("clarifications", Answers [])]) = Expected.skipped.
Proof.
  split; [reflexivity|].
  apply clarifications_skip_classification. reflexivity.
Defined.

Lemma first_match_questions user_lower terms term pat :
  first_match user_lower terms = Some (term, pat) ->
  lookup term ambiguity_patterns = Some pat.
Proof.
  induction terms as [|t terms IH]; [discriminate|].
  cbn [first_match]. destruct (contains user_lower t).
  - destruct (lookup t ambiguity_patterns) eqn:E; auto.
    intros H. injection H as <- <-. exact E.
  - exact IH.
Qed.

Lemma questions_at_most_two user_input context :
  List.length (questions (check_ambiguity user_input context)) <= 2.
Proof.
  unfold check_ambiguity. destruct (_ && _); [simpl; lia|].
  unfold _simple_ambiguity_check.
  destruct (first_match _ _) as [[term pat]|].
  - cbn [questions]. rewrite length_firstn. lia.
  - destruct (_ && _); simpl; lia.
Qed.

(** C7. The terms are tried in the order of [priority_terms], where the
    time terms come first: an input that mentions "recent" and "large"
    gets the explanation and the two questions of "recent"; an input
    that mentions "old" and not "recent" gets those of "old", whatever
    magnitude term it has; and no answer carries more than two
    questions. *)
Theorem recent_outranks_large :
  (forall s, contains (lower s) "recent" = true ->
             contains (lower s) "large" = true ->
             check_ambiguity s None = Expected.recent)
  /\ (forall s, contains (lower s) "recent" = false ->
                contains (lower s) "old" = true ->
                check_ambiguity s None = Expected.old)
  /\ (forall s context,
        List.length (questions (check_ambiguity s context)) <= 2).
Proof.
  split; [|split].
  - intros s Hr _. unfold check_ambiguity, _simple_ambiguity_check.
    cbn [truthy andb]. unfold priority_terms. cbn [first_match].
    rewrite Hr. reflexivity.
  - intros s Hr Ho. unfold check_ambiguity, _simple_ambiguity_check.
    cbn [truthy andb]. unfold priority_terms. cbn [first_match].
    rewrite Hr, Ho. reflexivity.
  - exact questions_at_most_two.
Qed.

Lemma recent_outranks_large_witness :
  contains (lower "Show recent LARGE payments") "recent" = true
  /\ contains (lower "Show recent LARGE payments") "large" = true
  /\ check_ambiguity "Show recent LARGE payments" None = Expected.recent.
Proof.
  assert (Hr : contains (lower "Show recent LARGE payments") "recent" = true)
    by reflexivity.
  assert (Hl : contains (lower "Show recent LARGE payments") "large" = true)
    by reflexivity.
  split; [exact Hr|]. split; [exact Hl|].
  exact (proj1 recent_outranks_large _ Hr Hl).
Defined.

Lemma first_match_none user_lower terms :
  (forall t, In t terms -> contains user_lower t = false) ->
  first_match user_lower terms = None.
Proof.
  induction terms as [|t terms IH]; intros H; [reflexivity|].
  cbn [first_match]. rewrite (H t) by now left.
  apply IH. intros t' Ht'. apply H. now right.
Qed.

Lemma startswith_contains s p : startswith s p = true -> contains s p = true.
Proof.
  unfold startswith, contains, find. intros H.
  destruct s; cbn [find_by]; now rewrite H.
Qed.

(** C8, as the code has it. When no trigger term occurs in the input,
    the input is reported as too brief exactly when it has at most three
    words and none of the four action verbs occurs anywhere in its
    lower-cased text; in every other case it is reported clear. In
    particular an input that starts with one of the verbs is clear. *)
Theorem brief_query_rule (s : string) :
  (forall t, In t priority_terms -> contains (lower s) t = false) ->
  check_ambiguity s None =
    (if (List.length (split s) <=? 3)%nat
        && negb (existsb (contains (lower s)) action_verbs)
     then Expected.too_brief else Expected.clear)
  /\ (forall verb, In verb action_verbs ->
                   startswith (lower s) verb = true ->
                   check_ambiguity s None = Expected.clear).
Proof.
  intros H.
  assert (E : check_ambiguity s None =
    (if (List.length (split s) <=? 3)%nat
        && negb (existsb (contains (lower s)) action_verbs)
     then Expected.too_brief else Expected.clear)).
  { unfold check_ambiguity, _simple_ambiguity_check.
    cbn [truthy andb]. rewrite (first_match_none _ _ H).
    destruct (_ && _); reflexivity. }
  split; [exact E|].
  intros verb Hin Hs. rewrite E.
  assert (X : existsb (contains (lower s)) action_verbs = true).
  { apply existsb_exists. exists verb. split; [exact Hin|].
    now apply startswith_contains. }
  rewrite X. now rewrite andb_false_r.
Qed.

Lemma no_trigger_in_account_balance :
  forall t, In t priority_terms -> contains (lower "account balance") t = false.
Proof.
  intros t Ht. unfold priority_terms in Ht. simpl in Ht.
  repeat (destruct Ht as [<-|Ht]; [reflexivity|]). contradiction.
Defined.

Lemma brief_query_rule_witness :
  (forall t, In t priority_terms ->
             contains (lower "account balance") t = false)
  /\ check_ambiguity "account balance" None = Expected.too_brief.
Proof.
  split; [exact no_trigger_in_account_balance|].
  exact (proj1 (brief_query_rule "account balance"
                  no_trigger_in_account_balance)).
Defined.

(** C8, as stated, fails: the input below has three words, no trigger
    term and does not start with an action verb, and yet it is reported
    clear, because "show" occurs in it. *)
Lemma verb_inside_short_query_is_clear :
  let s := "please show balance" in
  forallb (fun t => negb (contains (lower s) t)) priority_terms = true
  /\ (List.length (split s) <=? 3)%nat = true
  /\ forallb (fun verb => negb (startswith (lower s) verb)) action_verbs = true
  /\ is_ambiguous (check_ambiguity s None) = false.
Proof. vm_compute. auto. Qed.

End ClassifierClaims.

(** ** Properties of the corrections of the agent *)

Module CorrectionClaims.
Import Py Re Agent PyFacts.

(** C9. On the query of the scenario the three bare [date] words, the
    function name among them, become [transaction_date] and the function
    call is put back, which gives the text of the scenario (and, once the
    row limit is added, that text followed by the limit). A call written
    with a blank before its parenthesis is not put back. *)
Theorem date_function_restored_only_without_blank :
  fix_date_references Expected.week_query = Expected.week_query_fixed
  /\ correct_sql Expected.week_query
     = Expected.week_query_fixed ++ " LIMIT 1000"
  /\ fix_date_references
       "SELECT * FROM transactions WHERE transaction_date > date ('now','-7 days')"
     = "SELECT * FROM transactions WHERE transaction_date > transaction_date ('now','-7 days')".
Proof. vm_compute. auto. Qed.

End CorrectionClaims.

(** ** Occurrences, factors and the row limit *)

Module LimitFacts.
Import Py Re Agent Keyword PyFacts ValidatorFacts.

Lemma prefix_append eqc p x z :
  prefix_by eqc p x = true -> prefix_by eqc p (x ++ z) = true.
Proof.
  revert x; induction p as [|a p IH]; intros [|d x]; simpl; auto;
    [discriminate|].
  intros H. apply andb_true_iff in H. destruct H as [-> H]. simpl. auto.
Qed.

(** A pattern that matches across the end of [x] contains the character
    that follows [x]. *)
Lemma prefix_across p : forall x c y,
  ~ In c (list_ascii_of_string p) ->
  prefix_by same p (x ++ String c y) = true -> prefix_by same p x = true.
Proof.
  induction p as [|a p IH]; intros x c y Hc H; [reflexivity|].
  destruct x as [|d x]; simpl in *.
  - apply andb_true_iff in H. destruct H as [H _].
    apply same_eq in H. subst. exfalso. apply Hc. now left.
  - apply andb_true_iff in H. destruct H as [-> H]. simpl.
    apply IH with c y; auto.
Qed.

Lemma count_occ_unfold p s :
  count_occ p s =
  (if prefix_by same p s then 1 else 0)
  + match s with EmptyString => 0 | String _ s' => count_occ p s' end.
Proof. destruct s; reflexivity. Qed.

Lemma count_occ_separator p c : forall x y,
  p <> "" -> ~ In c (list_ascii_of_string p) ->
  count_occ p (x ++ String c y) = count_occ p x + count_occ p (String c y).
Proof.
  intros x y Hp Hc. induction x as [|d x IH].
  - destruct p; [congruence|]. reflexivity.
  - cbn [append]. rewrite (count_occ_unfold p (String d (x ++ String c y))),
      (count_occ_unfold p (String d x)), IH.
    change (String d (x ++ String c y)) with (String d x ++ String c y).
    destruct (prefix_by same p (String d x)) eqn:E.
    + rewrite (prefix_append _ _ _ _ E). lia.
    + destruct (prefix_by same p (String d x ++ String c y)) eqn:E'; [|lia].
      rewrite (prefix_across _ _ _ _ Hc E') in E. discriminate.
Qed.

Lemma contains_count s p : contains s p = false <-> count_occ p s = 0.
Proof.
  unfold contains, find. induction s as [|d s IH]; cbn [find_by count_occ].
  - destruct (prefix_by same p ""); simpl; split; congruence.
  - destruct (prefix_by same p (String d s)); simpl.
    + split; [discriminate | lia].
    + destruct (find_by same p s); simpl in *; tauto.
Qed.

Lemma factor_refl x : factor x x.
Proof. exists "", "". simpl. now rewrite append_nil_r. Qed.

Lemma factor_trans x y z : factor x y -> factor y z -> factor x z.
Proof.
  intros (a & b & ->) (a' & b' & ->). exists (a' ++ a), (b ++ b').
  now rewrite !append_assoc.
Qed.

Lemma factor_lstrip s : factor (lstrip s) s.
Proof.
  induction s as [|c s IH]; simpl; [apply factor_refl|].
  destruct (is_space c); [|apply factor_refl].
  destruct IH as (a & b & E). exists (String c a), b. simpl. congruence.
Qed.

Lemma factor_rstrip_by f s : factor (rstrip_by f s) s.
Proof.
  assert (H : exists b, s = rstrip_by f s ++ b).
  { induction s as [|c s [b E]]; [now exists ""|]. simpl.
    destruct (rstrip_by f s) as [|d r].
    - destruct (f c); [now exists (String c s)|]. exists s. reflexivity.
    - exists b. simpl in *. congruence. }
  destruct H as [b E]. exists "", b. exact E.
Qed.

Lemma factor_strip s : factor (strip s) s.
Proof.
  unfold strip, rstrip.
  eapply factor_trans; [apply factor_rstrip_by | apply factor_lstrip].
Qed.

Lemma factor_take n s : factor (take n s) s.
Proof. exists "", (drop n s). apply take_drop. Qed.

Lemma factor_drop n s : factor (drop n s) s.
Proof.
  exists (take n s), "". rewrite append_nil_r. apply take_drop.
Qed.

Lemma factor_upper x q : factor x q -> factor (upper x) (upper q).
Proof.
  intros (a & b & ->). exists (upper a), (upper b).
  now rewrite !upper_append.
Qed.

(** An offset in the upper-case form is an offset in the text when no
    sharp s comes before it. *)
Lemma drop_upper n : forall q,
  sharp_free (take n q) = true -> drop n (upper q) = upper (drop n q).
Proof.
  induction n as [|n IH]; intros [|c q] H; try reflexivity.
  cbn [take sharp_free] in H. apply andb_true_iff in H. destruct H as [Hc H].
  apply negb_true_iff in Hc. rewrite (upper_cons _ _ Hc).
  cbn [drop]. now apply IH.
Qed.

Lemma count_occ_factor p x q : factor x q -> count_occ p x <= count_occ p q.
Proof.
  intros (a & b & ->).
  assert (R : count_occ p x <= count_occ p (x ++ b)).
  { induction x as [|d x IH].
    - destruct (prefix_by same p "") eqn:E.
      + rewrite (count_occ_unfold p ("" ++ b)), (prefix_append _ _ _ b E).
        simpl. rewrite E. lia.
      + simpl. rewrite E. lia.
    - cbn [append]. rewrite (count_occ_unfold p (String d x)),
        (count_occ_unfold p (String d (x ++ b))).
      destruct (prefix_by same p (String d x)) eqn:E.
      + change (String d (x ++ b)) with (String d x ++ b).
        rewrite (prefix_append _ _ _ b E). lia.
      + lia. }
  induction a as [|c a IH]; [exact R|].
  cbn [append]. rewrite (count_occ_unfold p (String c _)). lia.
Qed.

Lemma absent_in_factor p x q :
  factor x q -> contains (upper q) p = false -> count_occ p (upper x) = 0.
Proof.
  intros F H. apply contains_count in H.
  pose proof (count_occ_factor p _ _ (factor_upper _ _ F)). lia.
Qed.

Lemma limit_has_no_blank : ~ In " "%char (list_ascii_of_string "LIMIT").
Proof. simpl. intros H. repeat (destruct H as [H|H]; [discriminate H|]). exact H. Qed.

Lemma count_limit_joined a b :
  count_occ "LIMIT" a = 0 -> count_occ "LIMIT" b = 0 ->
  count_occ "LIMIT" (a ++ " " ++ b) = 0.
Proof.
  intros Ha Hb. change (a ++ " " ++ b) with (a ++ String " " b).
  rewrite count_occ_separator by (try discriminate; apply limit_has_no_blank).
  rewrite Ha. rewrite (count_occ_unfold _ (String " " b)), Hb. reflexivity.
Qed.

Lemma count_limit_appended a :
  count_occ "LIMIT" a = 0 -> count_occ "LIMIT" (a ++ " LIMIT 1000") = 1.
Proof.
  intros Ha. change (a ++ " LIMIT 1000") with (a ++ String " " "LIMIT 1000").
  rewrite count_occ_separator by (try discriminate; apply limit_has_no_blank).
  rewrite Ha. reflexivity.
Qed.

Lemma find_by_prefix eqc p : forall s n,
  find_by eqc p s = Some n -> prefix_by eqc p (drop n s) = true.
Proof.
  induction s as [|c s IH]; intros n; cbn [find_by].
  - destruct (prefix_by eqc p "") eqn:E; [|discriminate].
    intros H. injection H as <-. exact E.
  - destruct (prefix_by eqc p (String c s)) eqn:E.
    + intros H. injection H as <-. exact E.
    + destruct (find_by eqc p s) as [m|]; [|discriminate].
      intros H. injection H as <-. simpl. now apply IH.
Qed.

Lemma prefix_rstrip_by f eqc cl : forall p0 t,
  (forall d, eqc cl d = true -> f d = false) ->
  prefix_by eqc (p0 ++ String cl "") t = true ->
  prefix_by eqc (p0 ++ String cl "") (rstrip_by f t) = true.
Proof.
  intros p0 t Hf. revert t. induction p0 as [|a p0 IH]; intros [|d t] H;
    try discriminate H; cbn [append] in *; simpl in H.
  - apply andb_true_iff in H. destruct H as [H _].
    simpl. destruct (rstrip_by f t); [rewrite (Hf _ H)|]; simpl; now rewrite H.
  - apply andb_true_iff in H. destruct H as [Ha H].
    specialize (IH _ H). simpl.
    destruct (rstrip_by f t) as [|e r].
    + destruct p0; discriminate IH.
    + simpl. rewrite Ha. exact IH.
Qed.

Lemma order_by_survives_strip t :
  prefix_by same_up "ORDER BY" t = true ->
  prefix_by same_up "ORDER BY" (strip t) = true.
Proof.
  intros H. unfold strip, rstrip.
  assert (L : lstrip t = t).
  { destruct t as [|d t]; [reflexivity|].
    change (prefix_by same_up "ORDER BY" (String d t))
      with (same_up "O" d && prefix_by same_up "RDER BY" t) in H.
    apply andb_true_iff in H. destruct H as [H _].
    unfold same_up in H. apply Ascii.eqb_eq in H.
    cbn [lstrip]. rewrite <- (space_upper_char d), <- H. reflexivity. }
  rewrite L.
  apply (prefix_rstrip_by is_space same_up "Y" "ORDER B"); auto.
  intros d Hd. unfold same_up in Hd. apply Ascii.eqb_eq in Hd.
  rewrite <- (space_upper_char d), <- Hd. reflexivity.
Qed.

End LimitFacts.

Module LimitClaims.
Import Py Re Agent Keyword PyFacts ValidatorFacts LimitFacts.

Lemma _add_limit_safely_with_limit q :
  contains (upper q) "LIMIT" = true -> _add_limit_safely q = strip q.
Proof. intros H. unfold _add_limit_safely. now rewrite H. Qed.

Lemma _add_limit_safely_order_by q pos :
  contains (upper q) "LIMIT" = false ->
  find (upper q) "ORDER BY" = Some pos ->
  _add_limit_safely q
  = strip (take pos q) ++ " " ++ strip (drop pos q) ++ " LIMIT 1000".
Proof. intros H F. unfold _add_limit_safely. now rewrite H, F. Qed.

Lemma _add_limit_safely_plain q :
  contains (upper q) "LIMIT" = false ->
  find (upper q) "ORDER BY" = None ->
  _add_limit_safely q
  = strip (rstrip_semicolons (strip q)) ++ " LIMIT 1000".
Proof. intros H F. unfold _add_limit_safely. now rewrite H, F. Qed.

Lemma upper_limit_appended x :
  upper (x ++ " LIMIT 1000") = upper x ++ " LIMIT 1000".
Proof. now rewrite upper_append. Qed.

Lemma upper_joined a b : upper (a ++ " " ++ b) = upper a ++ " " ++ upper b.
Proof. now rewrite !upper_append. Qed.

Lemma ensure_limit_without q :
  contains (upper q) "LIMIT" = false -> ensure_limit q = _add_limit_safely q.
Proof. intros H. unfold ensure_limit. now rewrite H. Qed.

Lemma ensure_limit_with q :
  contains (upper q) "LIMIT" = true -> ensure_limit q = q.
Proof. intros H. unfold ensure_limit. now rewrite H. Qed.

Lemma count_limit_order_by q pos :
  contains (upper q) "LIMIT" = false ->
  count_occ "LIMIT"
    (upper (strip (take pos q) ++ " " ++ strip (drop pos q) ++ " LIMIT 1000"))
  = 1.
Proof.
  intros H.
  replace (strip (take pos q) ++ " " ++ strip (drop pos q) ++ " LIMIT 1000")
    with ((strip (take pos q) ++ " " ++ strip (drop pos q)) ++ " LIMIT 1000")
    by (now rewrite !append_assoc).
  rewrite upper_limit_appended, upper_joined.
  apply count_limit_appended, count_limit_joined.
  - apply absent_in_factor with q; auto.
    eapply factor_trans; [apply factor_strip | apply factor_take].
  - apply absent_in_factor with q; auto.
    eapply factor_trans; [apply factor_strip | apply factor_drop].
Qed.

Lemma count_limit_plain q :
  contains (upper q) "LIMIT" = false ->
  count_occ "LIMIT"
    (upper (strip (rstrip_semicolons (strip q)) ++ " LIMIT 1000")) = 1.
Proof.
  intros H. rewrite upper_limit_appended. apply count_limit_appended.
  apply absent_in_factor with q; auto.
  eapply factor_trans; [apply factor_strip|].
  eapply factor_trans; [apply factor_rstrip_by | apply factor_strip].
Qed.

Lemma ensure_limit_count q :
  contains (upper q) "LIMIT" = false ->
  count_occ "LIMIT" (upper (ensure_limit q)) = 1.
Proof.
  intros H. rewrite (ensure_limit_without q H).
  destruct (find (upper q) "ORDER BY") as [pos|] eqn:F.
  - rewrite (_add_limit_safely_order_by q pos H F).
    now apply count_limit_order_by.
  - rewrite (_add_limit_safely_plain q H F). now apply count_limit_plain.
Qed.

Lemma order_clause_kept q pos :
  find (upper q) "ORDER BY" = Some pos ->
  sharp_free (take pos q) = true ->
  startswith (upper (strip (drop pos q))) "ORDER BY" = true.
Proof.
  intros F S. unfold startswith. rewrite prefix_upper by reflexivity.
  apply order_by_survives_strip.
  rewrite <- prefix_upper by reflexivity. rewrite <- (drop_upper pos q S).
  apply find_by_prefix. exact F.
Qed.

(** The rule changes nothing when applied again. *)
Lemma ensure_limit_idempotent q :
  ensure_limit (ensure_limit q) = ensure_limit q.
Proof.
  destruct (contains (upper q) "LIMIT") eqn:H.
  - now rewrite !(ensure_limit_with q H).
  - pose proof (ensure_limit_count q H) as C.
    apply ensure_limit_with.
    destruct (contains (upper (ensure_limit q)) "LIMIT") eqn:E; [reflexivity|].
    apply contains_count in E. rewrite E in C. discriminate C.
Qed.




End LimitClaims.

(** ** Texts on which the corrections have nothing to do *)

Module StableFacts.
Import Py Re Agent Validator Pipeline PyFacts LimitFacts.

Lemma replace_fuel_absent eqc old new : forall n s,
  find_by eqc old s = None -> replace_fuel eqc n old new s = s.
Proof.
  induction n as [|n IH]; intros s H; [reflexivity|].
  destruct s as [|c s]; cbn [find_by] in H; cbn [replace_fuel].
  - now destruct (prefix_by eqc old "").
  - destruct (prefix_by eqc old (String c s)); [discriminate|].
    destruct (find_by eqc old s) eqn:E; [discriminate|].
    now rewrite IH.
Qed.

Lemma replace_by_absent eqc old new s :
  find_by eqc old s = None -> replace_by eqc old new s = s.
Proof.
  intros H. destruct old as [|a old].
  - destruct s; discriminate H.
  - apply replace_fuel_absent, H.
Qed.

Lemma replace_absent s old new :
  contains s old = false -> replace s old new = s.
Proof.
  unfold contains, find, replace. intros H.
  apply replace_by_absent. now destruct (find_by same old s).
Qed.

Lemma absent_all_in s targets p :
  absent_all s targets = true -> In p targets -> contains s p = false.
Proof.
  unfold absent_all. rewrite forallb_forall. intros H Hin.
  apply negb_true_iff. now apply H.
Qed.

(** A loop of replacements whose search targets are all absent. *)
Lemma fold_absent (target : string * string -> string)
      (step : string -> string * string -> string) rules s :
  (forall r, contains s (target r) = false -> step s r = s) ->
  absent_all s (map target rules) = true ->
  fold_left step rules s = s.
Proof.
  intros Hstep. induction rules as [|r rules IH]; intros H; [reflexivity|].
  simpl in *. apply andb_true_iff in H. destruct H as [Hr H].
  apply negb_true_iff in Hr. rewrite (Hstep r Hr). auto.
Qed.

Lemma sub_word_absent w new : forall n s b,
  search_words same_ci [w] b s = false ->
  sub_word_fuel n w new b s = s.
Proof.
  induction n as [|n IH]; intros s b H; [reflexivity|].
  cbn [sub_word_fuel].
  destruct s as [|c s]; cbn [search_words] in H;
    apply orb_false_iff in H; destruct H as [H T];
    cbn [existsb] in H; rewrite orb_false_r in H.
  - now rewrite H.
  - rewrite H. now rewrite IH.
Qed.

Lemma replace_all_absent rules s :
  absent_all s (map fst rules) = true -> replace_all rules s = s.
Proof.
  intros H. unfold replace_all.
  apply fold_absent with (target := fst); auto.
  intros r. apply replace_absent.
Qed.

(** The steps one by one. *)
Lemma fix_date_references_idle s :
  absent_all s (map fst protected_columns) = true ->
  absent_all s (map snd protected_columns) = true ->
  search_words same_ci ["date"] false s = false ->
  absent_all s date_function_targets = true ->
  fix_date_references s = s.
Proof.
  intros H1 H2 H3 H4. unfold fix_date_references.
  assert (P : protect s = s).
  { unfold protect. apply fold_absent with (target := fst); auto.
    intros r. apply replace_absent. }
  assert (D : rewrite_date s = s).
  { unfold rewrite_date, sub_word_ci. now apply sub_word_absent. }
  assert (R : restore s = s).
  { unfold restore. apply fold_absent with (target := snd); auto.
    intros r. apply replace_absent. }
  rewrite P, D, R. unfold preserve_date_functions.
  rewrite (replace_absent s "transaction_date('now'")
    by (apply (absent_all_in _ _ _ H4); simpl; auto).
  rewrite (replace_absent s "transaction_date(")
    by (apply (absent_all_in _ _ _ H4); simpl; auto).
  apply replace_absent, (absent_all_in _ _ _ H4). simpl; auto.
Qed.

Lemma ensure_limit_idle s :
  contains (upper s) "LIMIT" = true -> ensure_limit s = s.
Proof. intros H. unfold ensure_limit. now rewrite H. Qed.

Lemma fix_date_column_idle s :
  negb (contains (lower s) "no such column: date"
        || contains s " date " || contains s " date,")
  || absent_all s (map fst date_rules) = true ->
  fix_date_column s = s.
Proof.
  unfold fix_date_column.
  destruct (contains (lower s) "no such column: date"
            || contains s " date " || contains s " date,");
    cbn [negb orb]; auto.
  apply replace_all_absent.
Qed.

Lemma fix_name_column_idle s :
  negb (contains (lower s) "no such column: name"
        || contains s "c.name" || contains s "customers.name")
  || absent_all s (map fst name_rules) = true ->
  fix_name_column s = s.
Proof.
  unfold fix_name_column.
  destruct (contains (lower s) "no such column: name"
            || contains s "c.name" || contains s "customers.name");
    cbn [negb orb]; auto.
  apply replace_all_absent.
Qed.

Lemma fix_ambiguous_columns_idle s :
  negb (contains (upper s) " JOIN " || contains (upper s) " FROM ")
  || absent_all s (map fst ambiguous_fixes) = true ->
  fix_ambiguous_columns s = s.
Proof.
  unfold fix_ambiguous_columns.
  destruct (contains (upper s) " JOIN " || contains (upper s) " FROM ");
    cbn [negb orb]; auto.
  intros H. apply fold_absent with (target := fst); auto.
  intros [old new] A. unfold apply_ambiguous_fix.
  destruct (_ && _); auto. now apply replace_absent.
Qed.

Lemma fix_table_references_idle s :
  absent_all s (map fst table_fixes) = true -> fix_table_references s = s.
Proof.
  intros H. unfold fix_table_references.
  apply fold_absent with (target := fst); auto.
  intros [old new] A. unfold apply_table_fix.
  destruct (contains s old); auto. now apply replace_absent.
Qed.

Lemma fix_typos_idle s :
  absent_all (lower s) (map fst typo_fixes) = true -> fix_typos s = s.
Proof.
  unfold fix_typos. generalize typo_fixes.
  induction l as [|[typo correct] l IH]; intros Hy; [reflexivity|].
  simpl in Hy. apply andb_true_iff in Hy. destruct Hy as [Hy Hl].
  apply negb_true_iff in Hy. cbn [fold_left]. unfold apply_typo_fix at 2.
  rewrite Hy. auto.
Qed.

(** The correction is the seven steps in a row. *)
Lemma corrected_text_steps q :
  corrected_text q = fold_left (fun s step => step s) steps q.
Proof.
  unfold corrected_text, steps. cbn [fold_left].
  unfold apply_fixes, correct_sql. reflexivity.
Qed.

Lemma stable_steps s :
  stable s = true -> forall step, In step steps -> step s = s.
Proof.
  unfold stable. rewrite forallb_forall. intros H step Hin.
  now apply String.eqb_eq, H.
Qed.

(** A stable text is a fixed point of the correction. *)
Lemma corrected_text_stable s : stable s = true -> corrected_text s = s.
Proof.
  intros H. rewrite corrected_text_steps.
  pose proof (stable_steps s H) as K. revert K. generalize steps.
  induction l as [|step l IH]; intros K; [reflexivity|].
  cbn [fold_left]. rewrite (K step) by now left.
  apply IH. intros f Hf. apply K. now right.
Qed.

Lemma idle_stable s : idle s = true -> stable s = true.
Proof.
  intros H. unfold idle in H.
  do 9 (apply andb_true_iff in H; destruct H as [H ?]).
  match goal with X : negb _ = true |- _ => apply negb_true_iff in X end.
  unfold stable, steps. cbn [forallb].
  rewrite fix_date_references_idle, ensure_limit_idle, fix_date_column_idle,
    fix_name_column_idle, fix_ambiguous_columns_idle,
    fix_table_references_idle, fix_typos_idle by assumption.
  now rewrite String.eqb_refl.
Qed.

End StableFacts.

Module IdempotenceClaims.
Import Py Re Agent Validator Pipeline PyFacts LimitFacts StableFacts.

(** C4, as the code has it. The correction of a query is seven steps
    in a row, the two of the agent and the five of the validator. It
    changes nothing when applied again, provided each step, taken alone,
    leaves the first result as it is. This is so in particular when, for
    each step, the guard of the step is off or none of its search
    targets occurs in the result, and the result has the letters LIMIT.
    The row-limit rule alone changes nothing when applied again, on
    every text. Of the 62 replacement rules of the validator, seven have
    a replacement that contains their own search target; the other 55 do
    not. *)
Theorem correction_idempotent_when_stable (q : string) :
  corrected_text q = fold_left (fun s step => step s) steps q
  /\ (stable (corrected_text q) = true ->
      corrected_text (corrected_text q) = corrected_text q)
  /\ (idle (corrected_text q) = true -> stable (corrected_text q) = true)
  /\ ensure_limit (ensure_limit q) = ensure_limit q
  /\ List.length Keyword.all_rules = 62
  /\ filter (fun rule => contains (snd rule) (fst rule)) Keyword.all_rules
     = [ ("date FROM", "transaction_date FROM");
         ("date WHERE", "transaction_date WHERE");
         ("date ORDER", "transaction_date ORDER");
         ("date LIMIT", "transaction_date LIMIT");
         (" name,", " first_name || ' ' || last_name AS name,");
         ("name LIKE", "first_name || ' ' || last_name LIKE");
         ("employe", "employee") ].
Proof.
  split; [apply corrected_text_steps|]. split; [apply corrected_text_stable|].
  split; [apply idle_stable|].
  split; [apply LimitClaims.ensure_limit_idempotent|].
  split; vm_compute; reflexivity.
Qed.

Lemma correction_idempotent_when_stable_witness :
  stable (corrected_text "SELECT * FROM employees") = true
  /\ corrected_text (corrected_text "SELECT * FROM employees")
     = corrected_text "SELECT * FROM employees"
  /\ idle (corrected_text "SELECT id, name FROM branches") = true
  /\ stable (corrected_text "SELECT id, name FROM branches") = true.
Proof.
  assert (H : stable (corrected_text "SELECT * FROM employees") = true)
    by (vm_compute; reflexivity).
  assert (I : idle (corrected_text "SELECT id, name FROM branches") = true)
    by (vm_compute; reflexivity).
  split; [exact H|].
  split; [exact (proj1 (proj2 (correction_idempotent_when_stable _)) H)|].
  split; [exact I|].
  exact (proj1 (proj2 (proj2 (correction_idempotent_when_stable _))) I).
Defined.

(** C4, as stated, fails. A second pass changes the text again: the
    validator corrects the misspelt [costumer] after it has looked for
    [customer.id], so only the second pass shortens the reference; the
    same holds of the validator's rewriting alone and of the agent's
    correction alone; and the output of the rule [employe -> employee]
    contains the rule's own search target. *)
Lemma correction_not_idempotent :
  corrected_text (corrected_text "SELECT costumer.id FROM costumers")
    <> corrected_text "SELECT costumer.id FROM costumers"
  /\ apply_fixes (apply_fixes "SELECT * FROM employe")
     <> apply_fixes "SELECT * FROM employe"
  /\ correct_sql (correct_sql "SELECT transaction_transaction_date(1) FROM t")
     <> correct_sql "SELECT transaction_transaction_date(1) FROM t"
  /\ In ("employe", "employee") typo_fixes
  /\ contains "employee" "employe" = true.
Proof.
  repeat split; try (vm_compute; discriminate); try reflexivity.
  simpl. tauto.
Qed.

End IdempotenceClaims.

(** ** More about the validator *)

Module ValidatorExtras.
Import Py Re Keyword Validator Expected PyFacts KeywordFacts ValidatorFacts
       ValidatorClaims.

Ltac project :=
  cbn [fst snd safe valid sql message suggestion validation_log
       validation_level schema db_execute _log_attempt negb
       s_safe s_message p_valid p_message p_suggestion c_valid c_message] in *.

(** X1. Every call of [validate_query] appends exactly one entry to the
    audit log, the rewritten text paired with the result it returns,
    whatever the verdict; the level and the schema of the validator are
    unchanged. *)
Theorem validate_query_logs_once (v : SQLValidator) (q : string) :
  let r := fst (validate_query v q) in
  let v' := snd (validate_query v q) in
  validation_log v' = (validation_log v ++ [(apply_fixes q, r)])%list
  /\ validation_level v' = validation_level v
  /\ schema v' = schema v.
Proof.
  unfold validate_query.
  destruct (negb (s_safe _)); [project; auto|].
  destruct (negb (p_valid _)); [project; auto|].
  destruct (negb (c_valid _)); project; auto.
Qed.

(** X2. In the result of [validate_query] the flags [safe] and [valid] are
    always equal; the result carries an [sql] entry exactly when they are
    true, and the entry is then the rewritten text; an accepted query has
    the message [Query is valid.]. *)
Theorem validate_query_flags_agree (v : SQLValidator) (q : string) :
  let r := fst (validate_query v q) in
  safe r = valid r
  /\ sql r = (if safe r then Some (apply_fixes q) else None)
  /\ (safe r = true -> message r = "Query is valid.").
Proof.
  unfold validate_query. generalize (apply_fixes q). intros s.
  destruct (check_safety (validation_level v) s) as [sf sm].
  destruct (parse_sql v s) as [pv pm ps].
  destruct (_validate_schema v s) as [cv cm].
  project.
  destruct sf; project; [|repeat split; auto; discriminate].
  destruct pv; project; [|repeat split; auto; discriminate].
  destruct cv; project; repeat split; auto; discriminate.
Qed.

Lemma check_safety_safe_inv level s :
  s_safe (check_safety level s) = true ->
  existsb (startswith (upper s)) (allowed_operations level) = true
  /\ has_destructive_keyword (upper s) = false
  /\ (has_mutation_keyword (upper s) = true -> contains (upper s) "WHERE" = true)
  /\ multiple_statements s = false
  /\ comment_injection s = false
  /\ (union_select s = true -> startswith (upper s) "SELECT" = true).
Proof.
  unfold check_safety.
  destruct (existsb _ (allowed_operations _)) eqn:E1; cbn [negb];
    [|cbn [s_safe]; discriminate].
  destruct (has_destructive_keyword _) eqn:E2; [cbn [s_safe]; discriminate|].
  destruct (has_mutation_keyword _ && _) eqn:E3; [cbn [s_safe]; discriminate|].
  destruct (multiple_statements _) eqn:E4; [cbn [s_safe]; discriminate|].
  destruct (comment_injection _) eqn:E5; [cbn [s_safe]; discriminate|].
  destruct (union_select _ && _) eqn:E6; [cbn [s_safe]; discriminate|].
  intros _. repeat split; auto.
  - intros Hm. rewrite Hm in E3. cbn [andb] in E3.
    now apply negb_false_iff in E3.
  - intros Hu. rewrite Hu in E6. cbn [andb] in E6.
    now apply negb_false_iff in E6.
Qed.

Lemma _validate_schema_valid_inv v s :
  c_valid (_validate_schema v s) = true ->
  existsb (contains (lower s)) (map fst (schema v)) = true.
Proof.
  unfold _validate_schema.
  destruct (existsb _ (map fst (schema v))); cbn [negb]; auto.
Qed.

Lemma validate_query_safe_inv v q :
  safe (fst (validate_query v q)) = true ->
  s_safe (check_safety (validation_level v) (apply_fixes q)) = true
  /\ p_valid (parse_sql v (apply_fixes q)) = true
  /\ c_valid (_validate_schema v (apply_fixes q)) = true
  /\ sql (fst (validate_query v q)) = Some (apply_fixes q).
Proof.
  unfold validate_query. generalize (apply_fixes q). intros s.
  destruct (check_safety (validation_level v) s) as [sf sm].
  destruct (parse_sql v s) as [pv pm ps].
  destruct (_validate_schema v s) as [cv cm].
  project.
  destruct sf; project; [|discriminate].
  destruct pv; project; [|discriminate].
  destruct cv; project; [auto|discriminate].
Qed.

(** X3. When [validate_query] accepts a query, what it has accepted is the
    rewritten text: that text starts with an operation allowed at the
    level of the validator, has none of DROP, TRUNCATE and ALTER as a
    whole word, has the letters WHERE somewhere when it has UPDATE or
    DELETE as a whole word, matches neither the stacked-statement
    pattern (a semicolon, whitespace if any, then DROP, DELETE, UPDATE,
    INSERT, CREATE or ALTER) nor the comment pattern (two dashes and,
    later on the same line, a whole word OR or AND followed somewhere by
    an equals sign), was planned by the database without error and names
    a table of the schema. *)
Theorem validated_sql_is_sound (v : SQLValidator) (q : string) :
  safe (fst (validate_query v q)) = true ->
  let s := apply_fixes q in
  sql (fst (validate_query v q)) = Some s
  /\ existsb (startswith (upper s)) (allowed_operations (validation_level v))
     = true
  /\ has_destructive_keyword (upper s) = false
  /\ (has_mutation_keyword (upper s) = true -> contains (upper s) "WHERE" = true)
  /\ multiple_statements s = false
  /\ comment_injection s = false
  /\ db_execute v ("EXPLAIN " ++ s) = None
  /\ existsb (contains (lower s)) (map fst (schema v)) = true.
Proof.
  intros H s.
  destruct (validate_query_safe_inv v q H) as (Hs & Hp & Hc & Hq).
  destruct (check_safety_safe_inv _ _ Hs) as (A1 & A2 & A3 & A4 & A5 & _).
  split; [exact Hq|].
  repeat split; auto.
  - fold s in Hp. unfold parse_sql in Hp.
    destruct (db_execute v ("EXPLAIN " ++ s)); [discriminate Hp|reflexivity].
  - now apply _validate_schema_valid_inv.
Qed.

Lemma validated_sql_is_sound_witness :
  safe (fst (validate_query (Bank.validator "strict") typo_query)) = true
  /\ sql (fst (validate_query (Bank.validator "strict") typo_query))
     = Some (apply_fixes typo_query).
Proof.
  assert (H : safe (fst (validate_query (Bank.validator "strict") typo_query))
              = true) by (vm_compute; reflexivity).
  split; [exact H|].
  exact (proj1 (validated_sql_is_sound _ _ H)).
Defined.

Lemma check_safety_safe_eq level s :
  s_safe (check_safety level s) = true ->
  check_safety level s = {| s_safe := true; s_message := "Safe query." |}.
Proof.
  unfold check_safety.
  destruct (negb _); [cbn [s_safe]; discriminate|].
  destruct (has_destructive_keyword _); [cbn [s_safe]; discriminate|].
  destruct (_ && _); [cbn [s_safe]; discriminate|].
  destruct (multiple_statements _); [cbn [s_safe]; discriminate|].
  destruct (comment_injection _); [cbn [s_safe]; discriminate|].
  destruct (_ && _); [cbn [s_safe]; discriminate|]. reflexivity.
Qed.

Lemma allowed_is_lenient level u :
  existsb (startswith u) (allowed_operations level) = true ->
  existsb (startswith u) LENIENT_OPERATIONS = true.
Proof.
  unfold allowed_operations.
  destruct (String.eqb level "strict");
    [|destruct (String.eqb level "moderate")]; auto;
    cbn [existsb STRICT_OPERATIONS MODERATE_OPERATIONS LENIENT_OPERATIONS];
    destruct (startswith u "SELECT"), (startswith u "INSERT"),
      (startswith u "UPDATE"), (startswith u "DELETE"); auto.
Qed.

Lemma check_safety_lenient level s :
  s_safe (check_safety level s) = true ->
  check_safety "lenient" s = check_safety level s.
Proof.
  intros H. rewrite (check_safety_safe_eq _ _ H).
  destruct (check_safety_safe_inv _ _ H) as (A1 & A2 & A3 & A4 & A5 & A6).
  apply allowed_is_lenient in A1.
  unfold check_safety.
  change (allowed_operations "lenient") with LENIENT_OPERATIONS.
  rewrite A1, A2, A4, A5. cbn [negb].
  destruct (has_mutation_keyword (upper s)).
  - rewrite (A3 eq_refl). cbn [andb negb].
    destruct (union_select s); [rewrite (A6 eq_refl)|]; reflexivity.
  - cbn [andb].
    destruct (union_select s); [rewrite (A6 eq_refl)|]; reflexivity.
Qed.

Lemma validate_query_by_safety v1 v2 q :
  db_execute v1 = db_execute v2 -> schema v1 = schema v2 ->
  check_safety (validation_level v1) (apply_fixes q)
  = check_safety (validation_level v2) (apply_fixes q) ->
  fst (validate_query v1 q) = fst (validate_query v2 q).
Proof.
  intros Hd Hs Hc. unfold validate_query, parse_sql, _validate_schema.
  rewrite Hc, Hd, Hs.
  destruct (negb (s_safe _)); [reflexivity|].
  destruct (negb (p_valid _)); [reflexivity|].
  destruct (negb (c_valid _)); reflexivity.
Qed.

(** X4. The levels are nested: a query accepted at the strict level gets
    the same result at every level, and a query accepted at some level
    gets the same result at the lenient level. *)
Theorem levels_are_nested
        (execute : string -> option string)
        (tables : list (string * list string)) (level q : string) :
  (safe (fst (validate_query (new_validator execute tables "strict") q)) = true ->
   fst (validate_query (new_validator execute tables level) q)
   = fst (validate_query (new_validator execute tables "strict") q))
  /\ (safe (fst (validate_query (new_validator execute tables level) q)) = true ->
      fst (validate_query (new_validator execute tables "lenient") q)
      = fst (validate_query (new_validator execute tables level) q)).
Proof.
  split; intros H; apply validate_query_by_safety; try reflexivity;
    destruct (validate_query_safe_inv _ _ H) as (Hs & _);
    cbn [validation_level new_validator] in *.
  - change (lower "strict") with "strict" in *.
    rewrite (check_safety_safe_eq _ _ Hs).
    apply check_safety_any_level. now apply check_safety_safe_eq.
  - change (lower "lenient") with "lenient". now apply check_safety_lenient.
Qed.

Lemma levels_are_nested_witness :
  safe (fst (validate_query (Bank.validator "strict") typo_query)) = true
  /\ fst (validate_query (Bank.validator "moderate") typo_query)
     = fst (validate_query (Bank.validator "strict") typo_query).
Proof.
  assert (H : safe (fst (validate_query (Bank.validator "strict") typo_query))
              = true) by (vm_compute; reflexivity).
  split; [exact H|].
  exact (proj1 (levels_are_nested Bank.accepting Bank.schema "moderate"
                  typo_query) H).
Defined.

Lemma union_message_needs_non_select level s :
  startswith (upper s) "SELECT" = true ->
  s_message (check_safety level s)
  <> "Possible SQL injection attempt detected (UNION injection).".
Proof.
  intros H. unfold check_safety. rewrite H, andb_false_r.
  destruct (negb _); [cbn [s_message append]; discriminate|].
  destruct (has_destructive_keyword _); [cbn [s_message]; discriminate|].
  destruct (_ && _); [cbn [s_message]; discriminate|].
  destruct (multiple_statements _); [cbn [s_message]; discriminate|].
  destruct (comment_injection _); cbn [s_message]; discriminate.
Qed.

(** X5. The UNION check of [check_safety] never fires on a text that
    starts with SELECT, at any level; at the strict level it never fires
    at all, since a text that does not start with SELECT is refused
    before as a disallowed operation. A SELECT joined to another SELECT
    by UNION is a safe query at every level. *)
Theorem union_check_never_fires_on_select :
  (forall level s, startswith (upper s) "SELECT" = true ->
     s_message (check_safety level s)
     <> "Possible SQL injection attempt detected (UNION injection).")
  /\ (forall s, s_message (check_safety "strict" s)
                <> "Possible SQL injection attempt detected (UNION injection).")
  /\ (forall level,
        check_safety level
          "SELECT name FROM branches UNION SELECT email FROM customers"
        = {| s_safe := true; s_message := "Safe query." |}).
Proof.
  split; [exact union_message_needs_non_select|]. split.
  - intros s.
    destruct (startswith (upper s) "SELECT") eqn:E.
    + now apply union_message_needs_non_select.
    + unfold check_safety.
      change (allowed_operations "strict") with ["SELECT"].
      cbn [existsb]. rewrite E. cbn [orb negb s_message append].
      discriminate.
  - intros level. apply check_safety_any_level. vm_compute. reflexivity.
Qed.

(** X6. A validator whose schema has no table (what [_get_schema] returns
    when the database cannot be read) refuses every query. *)
Theorem empty_schema_rejects_everything (v : SQLValidator) (q : string) :
  schema v = [] ->
  safe (fst (validate_query v q)) = false
  /\ valid (fst (validate_query v q)) = false
  /\ sql (fst (validate_query v q)) = None.
Proof.
  intros Hs.
  assert (F : safe (fst (validate_query v q)) = false).
  { destruct (safe (fst (validate_query v q))) eqn:E; [|reflexivity].
    destruct (validate_query_safe_inv _ _ E) as (_ & _ & Hc & _).
    apply _validate_schema_valid_inv in Hc. rewrite Hs in Hc.
    discriminate Hc. }
  revert F. unfold validate_query. generalize (apply_fixes q). intros s.
  destruct (check_safety (validation_level v) s) as [sf sm].
  destruct (parse_sql v s) as [pv pm ps].
  destruct (_validate_schema v s) as [cv cm].
  project.
  destruct sf; project; [|auto].
  destruct pv; project; [|auto].
  destruct cv; project; [discriminate|auto].
Qed.

Lemma empty_schema_rejects_everything_witness :
  schema (new_validator Bank.accepting [] "strict") = []
  /\ safe (fst (validate_query (new_validator Bank.accepting [] "strict")
                  "SELECT * FROM customers")) = false.
Proof.
  split; [reflexivity|].
  exact (proj1 (empty_schema_rejects_everything
                  (new_validator Bank.accepting [] "strict")
                  "SELECT * FROM customers" eq_refl)).
Defined.



End ValidatorExtras.

(** ** The checks do not see the case of letters *)

Module CaseFacts.
Import Py Re Keyword Validator Case PyFacts.

Lemma lower_lower_char c : lower_char (lower_char c) = lower_char c.
Proof. all_chars c. Qed.

Lemma lower_upper_char c : lower_char (upper_char c) = lower_char c.
Proof. all_chars c. Qed.

Lemma word_lower_char c : is_word_char (lower_char c) = is_word_char c.
Proof. all_chars c. Qed.

Lemma space_lower_char c : is_space (lower_char c) = is_space c.
Proof. all_chars c. Qed.

Lemma caseless_semicolon : caseless ";".
Proof. intros c. all_chars c. Qed.

Lemma caseless_dash : caseless "-".
Proof. intros c. all_chars c. Qed.

Lemma caseless_equals : caseless "=".
Proof. intros c. all_chars c. Qed.

Lemma caseless_newline : caseless "010".
Proof. intros c. all_chars c. Qed.

Lemma sharp_lower_char c :
  Ascii.eqb (lower_char c) sharp_s = Ascii.eqb c sharp_s.
Proof. all_chars c. Qed.

Lemma upper_lower s : upper (lower s) = upper s.
Proof.
  induction s as [|c s IH]; [reflexivity|].
  change (lower (String c s)) with (String (lower_char c) (lower s)).
  cbn [upper]. rewrite sharp_lower_char, IH, upper_lower_char. reflexivity.
Qed.

Lemma lower_lower s : lower (lower s) = lower s.
Proof.
  induction s as [|c s IH]; [reflexivity|].
  unfold lower in *. cbn [map_str]. now rewrite IH, lower_lower_char.
Qed.

Lemma same_ci_lower a c : same_ci a (lower_char c) = same_ci a c.
Proof. unfold same_ci. now rewrite lower_lower_char. Qed.

Lemma prefix_lower eqc p : forall s,
  (forall a c, eqc a (lower_char c) = eqc a c) ->
  prefix_by eqc p (lower s) = prefix_by eqc p s.
Proof.
  intros s H. revert s. induction p as [|a p IH]; intros [|c s]; auto.
  unfold lower. cbn [map_str prefix_by]. fold (lower s). now rewrite H, IH.
Qed.

Lemma prefix_lower_caseless p : forall s,
  Forall caseless (list_ascii_of_string p) ->
  prefix_by same p (lower s) = prefix_by same p s.
Proof.
  induction p as [|a p IH]; intros [|c s] H; auto.
  cbn [list_ascii_of_string] in H. inversion H as [|? ? Ha Hp]; subst.
  unfold lower. cbn [map_str prefix_by]. fold (lower s).
  now rewrite Ha, IH.
Qed.

Lemma lstrip_lower s : lstrip (lower s) = lower (lstrip s).
Proof.
  induction s as [|c s IH]; [reflexivity|].
  unfold lower in *. cbn [map_str lstrip]. rewrite space_lower_char.
  destruct (is_space c); auto.
Qed.

Lemma end_boundary_lower s : end_boundary (lower s) = end_boundary s.
Proof. destruct s; [reflexivity|]. cbn. now rewrite word_lower_char. Qed.

Lemma line_of_lower s : line_of (lower s) = lower (line_of s).
Proof.
  induction s as [|c s IH]; [reflexivity|].
  unfold lower in *. cbn [map_str line_of].
  assert (E : Ascii.eqb (lower_char c) "010" = Ascii.eqb c "010").
  { rewrite !(Ascii.eqb_sym _ "010"%char). apply caseless_newline. }
  rewrite E. destruct (Ascii.eqb c "010"); [reflexivity|].
  cbn [map_str]. now rewrite IH.
Qed.

Lemma contains_lower_caseless p s :
  Forall caseless (list_ascii_of_string p) ->
  contains (lower s) p = contains s p.
Proof.
  intros H. unfold contains, find.
  induction s as [|c s IH].
  - reflexivity.
  - change (lower (String c s)) with (String (lower_char c) (lower s)).
    cbn [find_by].
    change (String (lower_char c) (lower s)) with (lower (String c s)).
    rewrite (prefix_lower_caseless p _ H).
    destruct (prefix_by same p (String c s)); [reflexivity|].
    destruct (find_by same p (lower s)), (find_by same p s);
      simpl in *; congruence.
Qed.

Lemma blind_lit_ci p : blind (lit same_ci p).
Proof.
  intros s. unfold lit. rewrite (prefix_lower same_ci p s same_ci_lower).
  destruct (prefix_by same_ci p s); [|reflexivity].
  unfold lower. now rewrite drop_map_str.
Qed.

Lemma blind_lit_caseless p :
  Forall caseless (list_ascii_of_string p) -> blind (lit same p).
Proof.
  intros H s. unfold lit. rewrite (prefix_lower_caseless p s H).
  destruct (prefix_by same p s); [|reflexivity].
  unfold lower. now rewrite drop_map_str.
Qed.

Lemma blind_ws0 : blind ws0.
Proof. intros s. unfold ws0. cbn. now rewrite lstrip_lower. Qed.

Lemma blind_ws1 : blind ws1.
Proof.
  intros [|c s]; [reflexivity|]. unfold ws1.
  change (lower (String c s)) with (String (lower_char c) (lower s)).
  cbv beta iota. rewrite space_lower_char.
  destruct (is_space c); [|reflexivity].
  change (String (lower_char c) (lower s)) with (lower (String c s)).
  cbn [option_map]. now rewrite lstrip_lower.
Qed.

Lemma blind_seq m1 m2 : blind m1 -> blind m2 -> blind (seq m1 m2).
Proof.
  intros H1 H2 s. unfold seq. rewrite H1.
  destruct (m1 s); cbn [option_map]; auto.
Qed.

Lemma blind_alt_ci ws : blind (alt same_ci ws).
Proof.
  intros s. induction ws as [|w ws IH]; [reflexivity|].
  cbn [alt]. rewrite (blind_lit_ci w s).
  destruct (lit same_ci w s); cbn [option_map]; auto.
Qed.

Lemma matches_blind m s : blind m -> matches m (lower s) = matches m s.
Proof. intros H. unfold matches. rewrite H. now destruct (m s). Qed.

Lemma search_blind m : blind m -> forall s, search m (lower s) = search m s.
Proof.
  intros H. induction s as [|c s IH].
  - reflexivity.
  - change (lower (String c s)) with (String (lower_char c) (lower s)).
    cbn [search]. rewrite IH.
    change (String (lower_char c) (lower s)) with (lower (String c s)).
    now rewrite (matches_blind m _ H).
Qed.

Lemma search_b_blind m : blind m ->
  forall s b, search_b m b (lower s) = search_b m b s.
Proof.
  intros H. induction s as [|c s IH]; intros b.
  - reflexivity.
  - change (lower (String c s)) with (String (lower_char c) (lower s)).
    cbn [search_b]. rewrite IH, word_lower_char.
    change (String (lower_char c) (lower s)) with (lower (String c s)).
    now rewrite (matches_blind m _ H).
Qed.

Lemma blind_connective : blind connective_then_equals.
Proof.
  intros s. unfold connective_then_equals.
  rewrite (blind_alt_ci ["OR"; "AND"] s).
  destruct (alt same_ci ["OR"; "AND"] s) as [r|]; [|reflexivity].
  cbn [option_map]. rewrite end_boundary_lower.
  rewrite (contains_lower_caseless "=" r)
    by (repeat constructor; apply caseless_equals).
  destruct (end_boundary r && contains r "="); reflexivity.
Qed.

Lemma multiple_statements_lower s :
  multiple_statements (lower s) = multiple_statements s.
Proof.
  unfold multiple_statements. apply search_blind.
  apply blind_seq; [|apply blind_seq; [apply blind_ws0 | apply blind_alt_ci]].
  apply blind_lit_caseless. repeat constructor. apply caseless_semicolon.
Qed.

Lemma comment_injection_lower s :
  comment_injection (lower s) = comment_injection s.
Proof.
  unfold comment_injection. apply search_blind. apply blind_seq.
  - apply blind_lit_caseless. repeat constructor; apply caseless_dash.
  - intros rest. rewrite line_of_lower.
    rewrite (search_b_blind _ blind_connective).
    destruct (search_b connective_then_equals false (line_of rest));
      reflexivity.
Qed.

Lemma blind_select_word : blind select_word.
Proof.
  intros s. unfold select_word, word_here.
  rewrite (prefix_lower same_ci "SELECT" s same_ci_lower).
  unfold lower at 1. rewrite drop_map_str. fold (lower (drop (String.length "SELECT") s)).
  rewrite end_boundary_lower.
  destruct (_ && _); [|reflexivity].
  cbn [option_map]. unfold lower. now rewrite drop_map_str.
Qed.

Lemma union_select_lower s : union_select (lower s) = union_select s.
Proof.
  unfold union_select. apply search_b_blind.
  apply blind_seq; [apply blind_lit_ci|].
  apply blind_seq; [apply blind_ws1|].
  intros t.
  assert (B : blind (seq (lit same_ci "ALL") (seq ws1 select_word))).
  { apply blind_seq; [apply blind_lit_ci|].
    apply blind_seq; [apply blind_ws1 | apply blind_select_word]. }
  rewrite B.
  destruct (seq (lit same_ci "ALL") (seq ws1 select_word) t); [reflexivity|].
  apply blind_select_word.
Qed.

Lemma check_safety_lower level s :
  check_safety level (lower s) = check_safety level s.
Proof.
  unfold check_safety.
  now rewrite upper_lower, multiple_statements_lower,
    comment_injection_lower, union_select_lower.
Qed.

End CaseFacts.

Module CaseExtras.
Import Py Re Keyword Validator Case PyFacts CaseFacts.



End CaseExtras.

(** ** More about the ambiguity classifier *)

Module ClassifierExtras.
Import Py Re Agent PyFacts ClassifierClaims.

Lemma priority_terms_are_keys term :
  In term priority_terms -> lookup term ambiguity_patterns <> None.
Proof.
  unfold priority_terms. simpl.
  intros H. repeat (destruct H as [<-|H]; [vm_compute; discriminate|]).
  contradiction.
Qed.

Lemma first_match_found user_lower terms :
  (forall t, In t terms -> lookup t ambiguity_patterns <> None) ->
  existsb (contains user_lower) terms = true ->
  exists hit, first_match user_lower terms = Some hit.
Proof.
  induction terms as [|t terms IH]; intros K H; [discriminate H|].
  cbn [first_match existsb] in *.
  destruct (contains user_lower t).
  - destruct (lookup t ambiguity_patterns) as [pat|] eqn:E.
    + now exists (t, pat).
    + exfalso. apply (K t); [now left | exact E].
  - apply IH; auto. intros t' Ht'. apply K. now right.
Qed.

Lemma first_match_absent user_lower terms :
  existsb (contains user_lower) terms = false ->
  first_match user_lower terms = None.
Proof.
  intros H. apply first_match_none. intros t Ht.
  destruct (contains user_lower t) eqn:E; [|reflexivity].
  assert (X : existsb (contains user_lower) terms = true).
  { apply existsb_exists. now exists t. }
  congruence.
Qed.

(** X9. Without a context a question is ambiguous exactly when its
    lower-case form contains one of the twelve priority terms, or it has
    at most three words and contains none of the verbs show, find, list
    and display. *)
Theorem ambiguity_characterised (s : string) :
  is_ambiguous (check_ambiguity s None)
  = existsb (contains (lower s)) priority_terms
    || ((List.length (split s) <=? 3)%nat
        && negb (existsb (contains (lower s)) action_verbs)).
Proof.
  unfold check_ambiguity, _simple_ambiguity_check. cbn [truthy andb].
  destruct (existsb (contains (lower s)) priority_terms) eqn:E.
  - destruct (first_match_found _ _ priority_terms_are_keys E) as [[t p] ->].
    reflexivity.
  - rewrite (first_match_absent _ _ E). cbn [orb].
    destruct (_ && _); reflexivity.
Qed.

Lemma patterns_have_questions term pat :
  lookup term ambiguity_patterns = Some pat ->
  1 <= List.length (firstn 2 (p_questions pat)) <= 2.
Proof.
  unfold ambiguity_patterns. cbn [lookup].
  repeat (destruct (String.eqb _ term);
          [intros H; injection H as <-; cbn; lia|]).
  discriminate.
Qed.

(** X10. [check_ambiguity] returns one or two questions when it finds the
    input ambiguous, and none when it does not. *)
Theorem questions_iff_ambiguous (s : string) (context : option Context) :
  let r := check_ambiguity s context in
  (is_ambiguous r = true -> 1 <= List.length (questions r) <= 2)
  /\ (is_ambiguous r = false -> questions r = []).
Proof.
  unfold check_ambiguity. destruct (_ && _).
  - cbn. split; [discriminate | reflexivity].
  - unfold _simple_ambiguity_check.
    destruct (first_match _ _) as [[term pat]|] eqn:E.
    + cbn [is_ambiguous questions]. split; [|discriminate].
      intros _. apply first_match_questions in E.
      eapply patterns_have_questions; eauto.
    + destruct (_ && _); cbn; split; auto; try discriminate; lia.
Qed.

Lemma split_aux_lower s : forall cur cur',
  (cur = None <-> cur' = None) ->
  List.length (split_aux cur (lower s)) = List.length (split_aux cur' s).
Proof.
  induction s as [|c s IH]; intros cur cur' H.
  - cbn. destruct cur, cur'; auto; destruct H as [H1 H2];
      try (specialize (H1 eq_refl)); try (specialize (H2 eq_refl));
      discriminate.
  - change (lower (String c s)) with (String (lower_char c) (lower s)).
    cbn [split_aux].
    assert (Sp : is_space (lower_char c) = is_space c)
      by (clear; all_chars c).
    rewrite Sp. destruct (is_space c).
    + destruct cur, cur'; cbn [List.length];
        try (rewrite (IH None None) by tauto; reflexivity);
        destruct H as [H1 H2];
        try (specialize (H1 eq_refl)); try (specialize (H2 eq_refl));
        discriminate.
    + apply IH. split; discriminate.
Qed.

(** X11. [check_ambiguity] does not depend on the case of the letters of
    the question. *)
Theorem classification_ignores_case (s1 s2 : string) (context : option Context) :
  lower s1 = lower s2 ->
  check_ambiguity s1 context = check_ambiguity s2 context.
Proof.
  intros H. unfold check_ambiguity, _simple_ambiguity_check.
  assert (W : List.length (split s1) = List.length (split s2)).
  { unfold split.
    rewrite <- (split_aux_lower s1 None None) by tauto.
    rewrite <- (split_aux_lower s2 None None) by tauto.
    now rewrite H. }
  now rewrite H, W.
Qed.

Lemma classification_ignores_case_witness :
  lower "SHOW ME RECENT TRANSACTIONS" = lower "show me recent transactions"
  /\ check_ambiguity "SHOW ME RECENT TRANSACTIONS" None
     = check_ambiguity "show me recent transactions" None.
Proof.
  assert (H : lower "SHOW ME RECENT TRANSACTIONS"
              = lower "show me recent transactions") by reflexivity.
  split; [exact H|].
  exact (classification_ignores_case _ _ None H).
Defined.

End ClassifierExtras.

(** ** Token estimates and the schema excerpt *)

Module GenerationFacts.
Import Py Re Agent PyMore Generation PyFacts.

Lemma length_take n s : String.length (take n s) <= n.
Proof. revert s; induction n; intros [|c s]; simpl; auto; try lia.
  specialize (IHn s). lia. Qed.

(** Words and characters. *)
Lemma split_aux_count s : forall cur,
  List.length (split_aux cur s)
  <= match cur with
     | Some _ => 1 + String.length s / 2
     | None => (String.length s + 1) / 2
     end.
Proof.
  induction s as [|c s IH]; intros cur.
  - destruct cur; simpl; lia.
  - cbn [split_aux String.length]. destruct (is_space c).
    + destruct cur.
      * cbn [List.length]. specialize (IH None). cbn beta iota in IH.
        replace (S (String.length s) / 2) with ((String.length s + 1) / 2)
          by (f_equal; lia). lia.
      * specialize (IH None). cbn beta iota in IH.
        assert ((String.length s + 1) / 2 <= (S (String.length s) + 1) / 2).
        { apply Nat.Div0.div_le_mono. lia. }
        lia.
    + match goal with
      | |- context [split_aux (Some ?w) s] => specialize (IH (Some w))
      end.
      cbn beta iota in IH.
      assert (E1 : (S (String.length s) + 1) / 2 = 1 + String.length s / 2).
      { replace (S (String.length s) + 1) with (1 * 2 + String.length s) by lia.
        rewrite Nat.div_add_l by lia. reflexivity. }
      assert (E2 : String.length s / 2 <= S (String.length s) / 2).
      { apply Nat.Div0.div_le_mono. lia. }
      destruct cur; lia.
Qed.

Lemma half_plus_quarter n : (n + 1) / 2 + n / 4 <= n.
Proof.
  pose proof (Nat.div_mod_eq (n + 1) 2) as H2.
  pose proof (Nat.mod_upper_bound (n + 1) 2) as B2.
  pose proof (Nat.div_mod_eq n 4) as H4.
  pose proof (Nat.mod_upper_bound n 4) as B4.
  destruct n as [|[|n]]; [reflexivity | reflexivity |].
  lia.
Qed.

(** The loop of the detection looks at each table once. *)
Lemma detected_by_flags (user_lower : string)
      (entries : list (string * list string)) : forall acc,
  fold_left
    (fun relevant entry =>
       if existsb (contains user_lower) (snd entry)
       then set_add (fst entry) relevant else relevant)
    entries acc
  = fold_left
      (fun relevant (flagged : string * bool) =>
         if snd flagged then set_add (fst flagged) relevant else relevant)
      (map (fun entry => (fst entry, existsb (contains user_lower) (snd entry)))
           entries)
      acc.
Proof.
  induction entries as [|entry entries IH]; intros acc; [reflexivity|].
  cbn [fold_left map fst snd]. apply IH.
Qed.

(** The five detections decide the schema text. *)
Lemma schema_by_detection (user_input : string) :
  let s := get_relevant_schema user_input in
  let found keywords := existsb (contains (lower user_input)) keywords in
  let b1 := found ["customer"; "client"; "name"; "email"; "phone"; "address";
                   "birth"; "gender"] in
  let b2 := found ["account"; "balance"; "saving"; "checking"; "credit";
                   "interest"; "opened"] in
  let b3 := found ["transaction"; "deposit"; "withdrawal"; "transfer";
                   "payment"; "amount"; "recent"] in
  let b4 := found ["employee"; "staff"; "manager"; "position"; "hire";
                   "salary"; "work"] in
  let b5 := found ["branch"; "office"; "location"; "city"; "state"; "zip"] in
  implb b1 (contains s "customers(")
  && implb b2 (contains s "accounts(")
  && implb b3 (contains s "transactions(")
  && implb b4 (contains s "employees(")
  && implb b5 (contains s "branches(")
  && implb (contains s "transactions(") (contains s "accounts(")
  && implb (contains s "employees(") (contains s "branches(")
  && existsb (fun table => contains s (table ++ "(")) valid_tables
  && implb (negb b1 && negb b2 && negb b3 && negb b4 && negb b5)
           (forallb (fun table => contains s (table ++ "(")) valid_tables)
  = true.
Proof.
  intros s found b1 b2 b3 b4 b5.
  assert (E : s = "Schema: " ++ join ", "
    (flat_map (fun table => match lookup table table_schemas with
                            | Some part => [part]
                            | None => []
                            end)
      (sorted
        (let relevant :=
           fold_left
             (fun relevant (flagged : string * bool) =>
                if snd flagged then set_add (fst flagged) relevant
                else relevant)
             [("customers", b1); ("accounts", b2); ("transactions", b3);
              ("employees", b4); ("branches", b5)] [] in
         let relevant :=
           match relevant with
           | [] => fold_left (fun r entry => set_add (fst entry) r)
                             table_keywords []
           | _ => relevant
           end in
         let relevant :=
           if set_has "accounts" relevant then set_add "customers" relevant
           else relevant in
         let relevant :=
           if set_has "transactions" relevant then set_add "accounts" relevant
           else relevant in
         if set_has "employees" relevant then set_add "branches" relevant
         else relevant)))).
  { subst s. unfold get_relevant_schema, relevant_tables, detected_tables.
    rewrite detected_by_flags. reflexivity. }
  rewrite E. clear E s. clearbody b1 b2 b3 b4 b5. clear found.
  destruct b1, b2, b3, b4, b5; vm_compute; reflexivity.
Qed.

End GenerationFacts.

Module GenerationExtras.
Import Py Re Agent PyMore Generation PyFacts GenerationFacts.

(** X12. The token estimate of a text never exceeds its number of
    characters. *)
Theorem estimate_tokens_bounded (text : string) :
  estimate_tokens text <= String.length text.
Proof.
  unfold estimate_tokens, split.
  pose proof (split_aux_count text None) as H. cbn beta iota in H.
  pose proof (half_plus_quarter (String.length text)). lia.
Qed.

(** X13. The schema text of [get_relevant_schema] lists every table one of
    whose keywords occurs in the lower-cased question; it lists accounts
    whenever it lists transactions, and branches whenever it lists
    employees; it always lists at least one table, and all five when no
    keyword occurs. *)
Theorem relevant_schema_is_closed (user_input : string) :
  let s := get_relevant_schema user_input in
  (forall table keywords,
      In (table, keywords) table_keywords ->
      existsb (contains (lower user_input)) keywords = true ->
      contains s (table ++ "(") = true)
  /\ (contains s "transactions(" = true -> contains s "accounts(" = true)
  /\ (contains s "employees(" = true -> contains s "branches(" = true)
  /\ (exists table, In table valid_tables
                    /\ contains s (table ++ "(") = true)
  /\ ((forall table keywords,
         In (table, keywords) table_keywords ->
         existsb (contains (lower user_input)) keywords = false) ->
      forall table, In table valid_tables ->
                    contains s (table ++ "(") = true).
Proof.
  intros s. pose proof (schema_by_detection user_input) as H.
  cbv zeta in H. fold s in H.
  apply andb_true_iff in H. destruct H as [H H9].
  apply andb_true_iff in H. destruct H as [H H8].
  apply andb_true_iff in H. destruct H as [H H7].
  apply andb_true_iff in H. destruct H as [H H6].
  apply andb_true_iff in H. destruct H as [H H5].
  apply andb_true_iff in H. destruct H as [H H4].
  apply andb_true_iff in H. destruct H as [H H3].
  apply andb_true_iff in H. destruct H as [H1 H2].
  split; [|split; [|split; [|split]]].
  - intros table keywords Hin Hk. unfold table_keywords in Hin.
    cbn [In] in Hin.
    destruct Hin as [E|[E|[E|[E|[E|[]]]]]]; injection E as <- <-;
      rewrite Hk in *; cbn [implb] in *; assumption.
  - intros T. rewrite T in H6. exact H6.
  - intros T. rewrite T in H7. exact H7.
  - apply existsb_exists in H8. exact H8.
  - intros Hnone table Htable.
    rewrite !(Hnone _ _ (or_introl eq_refl)) in H9.
    rewrite !(Hnone _ _ (or_intror (or_introl eq_refl))) in H9.
    rewrite !(Hnone _ _ (or_intror (or_intror (or_introl eq_refl)))) in H9.
    rewrite !(Hnone _ _ (or_intror (or_intror (or_intror
                          (or_introl eq_refl))))) in H9.
    rewrite !(Hnone _ _ (or_intror (or_intror (or_intror (or_intror
                          (or_introl eq_refl)))))) in H9.
    cbn [negb andb implb] in H9.
    rewrite forallb_forall in H9. now apply H9.
Qed.

Lemma relevant_schema_is_closed_witness :
  existsb (contains (lower "Total DEPOSIT per day"))
          ["transaction"; "deposit"; "withdrawal"; "transfer"; "payment";
           "amount"; "recent"] = true
  /\ contains (get_relevant_schema "Total DEPOSIT per day") "transactions("
     = true.
Proof.
  split; [reflexivity|].
  exact (proj1 (relevant_schema_is_closed "Total DEPOSIT per day")
           "transactions" _
           (or_intror (or_intror (or_introl eq_refl))) eq_refl).
Defined.

End GenerationExtras.

(** ** The compressed context *)

Module ContextFacts.
Import Py Re Agent PyMore Generation PyFacts GenerationFacts.

Lemma compress_context_cases e (context : option Context) :
  (exists n, compress_context e context = Raised (e n))
  \/ compress_context e context = Returned ""
  \/ (exists p, String.length p <= 50 /\
        compress_context e context
        = Returned ("Context: " ++ ("Prev: " ++ p ++ "...")))
  \/ (exists c, String.length c <= 30 /\
        compress_context e context
        = Returned ("Context: " ++ ("User said: " ++ c ++ "...")))
  \/ (exists p c, String.length p <= 50 /\ String.length c <= 30 /\
        compress_context e context
        = Returned ("Context: " ++ ("Prev: " ++ p ++ "...")
                    ++ " | " ++ ("User said: " ++ c ++ "..."))).
Proof.
  unfold compress_context.
  destruct (negb (truthy context)); [auto|].
  destruct (value_truthy (lookup "previous_query" _)).
  - destruct (lookup "previous_query" _) as [[p|a]|]; cbn [slice_value];
      eauto.
    destruct (value_truthy (lookup "clarifications" _)).
    + destruct (lookup "clarifications" _) as [[c|a]|]; cbn [slice_value];
        eauto.
      right. right. right. right. exists (take 50 p), (take 30 c).
      split; [apply length_take|]. split; [apply length_take|]. reflexivity.
    + right. right. left. exists (take 50 p).
      split; [apply length_take | reflexivity].
  - destruct (value_truthy (lookup "clarifications" _)).
    + destruct (lookup "clarifications" _) as [[c|a]|]; cbn [slice_value];
        eauto.
      right. right. right. left. exists (take 30 c).
      split; [apply length_take | reflexivity].
    + auto.
Qed.

Lemma answered_clarifications_raise e (d : Context) a rest :
  lookup "clarifications" d = Some (Answers (a :: rest)) ->
  compress_context e (Some d) = Raised (e 30)
  \/ compress_context e (Some d) = Raised (e 50).
Proof.
  intros H. unfold compress_context.
  destruct d as [|entry d']; [discriminate H|]. cbn [truthy negb].
  rewrite H. cbn [value_truthy slice_value].
  destruct (value_truthy (lookup "previous_query" (entry :: d'))).
  - destruct (lookup "previous_query" (entry :: d')) as [[p|x]|]; auto.
  - auto.
Qed.

End ContextFacts.

Module ContextExtras.
Import Py Re Agent PyMore Generation PyFacts GenerationFacts ContextFacts.

(** X14. When [compress_context] returns, its text has at most 115
    characters, however long the previous query and the clarifications
    are. *)
Theorem compressed_context_is_short e context s :
  compress_context e context = Returned s -> String.length s <= 115.
Proof.
  intros H.
  destruct (compress_context_cases e context)
    as [[n E]|[E|[(p & Lp & E)|[(c & Lc & E)|(p & c & Lp & Lc & E)]]]];
    rewrite E in H; try discriminate H; injection H as <-;
    cbn [append String.length]; rewrite ?length_append;
    cbn [append String.length]; rewrite ?length_append;
    cbn [String.length]; lia.
Qed.

Lemma compressed_context_is_short_witness :
  compress_context (fun _ => "unhashable type: 'slice'")
    (Some [("previous_query", Text "show recent transactions")])
  = Returned "Context: Prev: show recent transactions..."
  /\ String.length "Context: Prev: show recent transactions..." <= 115.
Proof.
  assert (H : compress_context (fun _ => "unhashable type: 'slice'")
                (Some [("previous_query", Text "show recent transactions")])
              = Returned "Context: Prev: show recent transactions...")
    by reflexivity.
  split; [exact H|].
  exact (compressed_context_is_short _ _ _ H).
Defined.

End ContextExtras.

(** ** Generation and orchestration *)

Module OrchestrationFacts.
Import Py Re Agent PyMore Generation Shape PyFacts LimitFacts LimitClaims
       GenerationFacts ContextFacts.

Lemma has_key_truthy key (d : Context) :
  has_key key d = true -> truthy (Some d) = true.
Proof. destruct d; [discriminate|reflexivity]. Qed.

Lemma check_ambiguity_with_key user_input d :
  has_key "clarifications" d = true ->
  is_ambiguous (check_ambiguity user_input (Some d)) = false.
Proof.
  intros H. unfold check_ambiguity.
  rewrite (has_key_truthy _ _ H), H. reflexivity.
Qed.

Lemma ensure_limit_has_limit q :
  contains (upper (ensure_limit q)) "LIMIT" = true.
Proof.
  destruct (contains (upper q) "LIMIT") eqn:H.
  - now rewrite (ensure_limit_with q H).
  - pose proof (ensure_limit_count q H) as C.
    destruct (contains (upper (ensure_limit q)) "LIMIT") eqn:E; [reflexivity|].
    apply contains_count in E. rewrite E in C. discriminate C.
Qed.

Lemma first_pattern_in user_lower patterns q :
  first_pattern user_lower patterns = Some q -> In q (map snd patterns).
Proof.
  induction patterns as [|[p s] rest IH]; [discriminate|].
  cbn [first_pattern map snd].
  destruct (contains user_lower p).
  - intros E. injection E as <-. now left.
  - intros E. right. now apply IH.
Qed.

Lemma fallback_in_catalogue user_input q :
  _get_fallback_query user_input = Some q ->
  In q (default_fallback :: map snd fallback_patterns).
Proof.
  unfold _get_fallback_query.
  destruct (first_pattern (lower user_input) fallback_patterns) as [s|] eqn:E;
    intros H; injection H as <-.
  - right. now apply first_pattern_in with (lower user_input).
  - now left.
Qed.

Lemma fallback_total user_input :
  exists q, _get_fallback_query user_input = Some q.
Proof.
  unfold _get_fallback_query.
  destruct (first_pattern _ _); eauto.
Qed.

Lemma catalogue_nonempty q :
  In q (default_fallback :: map snd fallback_patterns) ->
  nonempty_line q = true.
Proof.
  intros H. cbn in H.
  repeat (destruct H as [<-|H]; [reflexivity|]). destruct H.
Qed.

Lemma catalogue_accepted q :
  In q (default_fallback :: map snd fallback_patterns) ->
  validate_sql q = Accepted q.
Proof.
  intros H. cbn in H.
  repeat (destruct H as [<-|H]; [vm_compute; reflexivity|]). destruct H.
Qed.

Lemma on_quota_error user_input e :
  quota_signature (lower e) = true ->
  exists q, _get_fallback_query user_input = Some q
            /\ on_generation_error user_input e = Success q (Tenths 7).
Proof.
  intros H. destruct (fallback_total user_input) as [q E].
  exists q. split; [exact E|].
  unfold on_generation_error. rewrite H, E.
  now rewrite (catalogue_nonempty q (fallback_in_catalogue _ _ E)).
Qed.

Lemma on_other_error user_input e :
  quota_signature (lower e) = false ->
  on_generation_error user_input e = Failure ("SQL generation failed: " ++ e).
Proof. intros H. unfold on_generation_error. now rewrite H. Qed.

(** Stripping twice is stripping once. *)
Lemma lstrip_clean s : clean_start (lstrip s) = true.
Proof.
  induction s as [|c s IH]; [reflexivity|]. cbn [lstrip].
  destruct (is_space c) eqn:E; [exact IH|]. cbn [clean_start]. now rewrite E.
Qed.

Lemma lstrip_fixed s : clean_start s = true -> lstrip s = s.
Proof.
  destruct s as [|c s]; [reflexivity|]. cbn [clean_start lstrip].
  now destruct (is_space c).
Qed.

Lemma rstrip_by_clean f s :
  clean_start s = true -> clean_start (rstrip_by f s) = true.
Proof.
  destruct s as [|c s]; [reflexivity|]. cbn [clean_start rstrip_by].
  intros H. destruct (rstrip_by f s); [destruct (f c)|]; cbn [clean_start]; auto.
Qed.

Lemma rstrip_by_idempotent f s :
  rstrip_by f (rstrip_by f s) = rstrip_by f s.
Proof.
  induction s as [|c s IH]; [reflexivity|]. cbn [rstrip_by].
  destruct (rstrip_by f s) as [|d r] eqn:E.
  - destruct (f c) eqn:F; [reflexivity|]. cbn [rstrip_by]. now rewrite F.
  - change (rstrip_by f (String c (String d r)))
      with (match rstrip_by f (String d r) with
            | EmptyString => if f c then EmptyString else String c EmptyString
            | String x y => String c (String x y)
            end).
    now rewrite IH.
Qed.

Lemma strip_idempotent s : strip (strip s) = strip s.
Proof.
  unfold strip, rstrip.
  rewrite (lstrip_fixed (rstrip_by is_space (lstrip s)))
    by apply rstrip_by_clean, lstrip_clean.
  apply rstrip_by_idempotent.
Qed.

Lemma validate_sql_accepted g v :
  validate_sql g = Accepted v ->
  v = strip g
  /\ startswith (lower v) "select" = true
  /\ existsb (fun op => contains (" " ++ lower v ++ " ") (" " ++ op ++ " "))
       write_ops = false
  /\ existsb (contains (lower v)) valid_tables = true.
Proof.
  unfold validate_sql.
  destruct (startswith (lower (strip g)) "select") eqn:E1; cbn [negb];
    [|discriminate].
  destruct (existsb _ write_ops) eqn:E2; [discriminate|].
  destruct (existsb _ valid_tables) eqn:E3; cbn [negb]; [|discriminate].
  intros H. injection H as <-. auto.
Qed.

Lemma validate_sql_stable g v :
  validate_sql g = Accepted v -> validate_sql v = Accepted v.
Proof.
  intros H. destruct (validate_sql_accepted g v H) as (-> & _).
  revert H. unfold validate_sql. rewrite strip_idempotent. auto.
Qed.

Lemma get_sql_from_nl_stats {Rows} (w : World Rows) stats user_input context :
  snd (get_sql_from_nl w stats user_input context) = stats
  \/ exists prompt response,
       snd (get_sql_from_nl w stats user_input context)
       = log_token_usage stats prompt response.
Proof.
  unfold get_sql_from_nl.
  destruct (compress_context _ _); [|now left].
  destruct (llm_invoke w _); [|now left].
  right. destruct (_ && _); cbn [snd]; eauto.
Qed.

Lemma get_sql_from_nl_cases {Rows} (w : World Rows) stats user_input context :
  (exists q, fst (get_sql_from_nl w stats user_input context)
             = Success q (Tenths 9)
             /\ contains (upper q) "LIMIT" = true)
  \/ (exists q, fst (get_sql_from_nl w stats user_input context)
                = Success q (Tenths 7)
                /\ _get_fallback_query user_input = Some q
                /\ snd (get_sql_from_nl w stats user_input context) = stats)
  \/ (exists m, fst (get_sql_from_nl w stats user_input context) = Failure m).
Proof.
  assert (G : forall e,
    (exists q, on_generation_error user_input e = Success q (Tenths 7)
               /\ _get_fallback_query user_input = Some q)
    \/ exists m, on_generation_error user_input e = Failure m).
  { intros e. destruct (quota_signature (lower e)) eqn:Q.
    - destruct (on_quota_error user_input e Q) as (q & E1 & E2). eauto.
    - rewrite (on_other_error _ _ Q). eauto. }
  unfold get_sql_from_nl.
  destruct (compress_context _ _) as [c|e].
  - destruct (llm_invoke w _) as [content|e].
    + destruct (_ && _); cbn [fst].
      * left. eexists. split; [reflexivity|]. apply ensure_limit_has_limit.
      * right. right. eauto.
    + cbn [fst snd]. destruct (G e) as [(q & E1 & E2)|(m & E)].
      * right. left. exists q. rewrite E1. auto.
      * right. right. exists m. now rewrite E.
  - cbn [fst snd]. destruct (G e) as [(q & E1 & E2)|(m & E)].
    + right. left. exists q. rewrite E1. auto.
    + right. right. exists m. now rewrite E.
Qed.

End OrchestrationFacts.

Module OrchestrationExtras.
Import Py Re Agent PyMore Generation PyFacts LimitFacts LimitClaims
       GenerationFacts ContextFacts OrchestrationFacts.

Ltac fields :=
  cbn [fst snd type sql Generation.explanation follow_up_questions confidence
       result conversation_history token_usage_stats x_result x_explanation
       total_tokens queries_processed] in *.

(** X15. When the context carries a non-empty mapping of answers under
    [clarifications], which is what the application passes once the user
    has answered a clarifying question, slicing the mapping raises and
    [process_query] returns an error response: no SQL, no result, and
    the explanation [SQL generation failed: ] followed by the text of the
    exception. The model is not called: the token statistics are
    unchanged. (The text of the exception is supposed not to look like a
    quota error.) *)
Theorem answered_clarifications_always_fail {Rows} (w : World Rows)
        (st : AgentState Rows) (user_input : string) (d : Context)
        (a : string * string) (rest : list (string * string)) :
  lookup "clarifications" d = Some (Answers (a :: rest)) ->
  (forall n, quota_signature (lower (slice_error w n)) = false) ->
  let r := fst (process_query w st user_input (Some d)) in
  let st' := snd (process_query w st user_input (Some d)) in
  type r = "error"
  /\ sql r = None
  /\ result r = None
  /\ (explanation r = "SQL generation failed: " ++ slice_error w 30
      \/ explanation r = "SQL generation failed: " ++ slice_error w 50)
  /\ token_usage_stats st' = token_usage_stats st.
Proof.
  intros Hc Hq.
  assert (Hk : has_key "clarifications" d = true)
    by (unfold has_key; now rewrite Hc).
  unfold process_query.
  rewrite (check_ambiguity_with_key user_input d Hk).
  unfold get_sql_from_nl.
  destruct (answered_clarifications_raise (slice_error w) d a rest Hc) as [E|E];
    rewrite E, (on_other_error _ _ (Hq _)); fields; auto 6.
Qed.

Lemma answered_clarifications_always_fail_witness :
  lookup "clarifications" Sample.answered
  = Some (Answers [("How recent? (e.g., 'last 7 days', 'last month', 'this year')",
                    "last 7 days")])
  /\ explanation
       (fst (process_query
               (Sample.world (Returned "SELECT * FROM transactions"))
               Sample.fresh
               "show recent transactions. Additional context: last 7 days"
               (Some Sample.answered)))
     = "SQL generation failed: unhashable type: 'slice'".
Proof.
  split; [reflexivity|].
  destruct (answered_clarifications_always_fail
              (Sample.world (Returned "SELECT * FROM transactions"))
              Sample.fresh
              "show recent transactions. Additional context: last 7 days"
              Sample.answered _ [] eq_refl (fun _ => eq_refl))
    as (_ & _ & _ & [E|E] & _); exact E.
Defined.

(** X16. When the question is not ambiguous and the call of the model
    raises an error whose text mentions quota, 429 or resourceexhausted,
    [process_query] answers with the canned query of
    [_get_fallback_query]: type success, confidence 0.7, the canned query
    as SQL, run as it is against the database; the token statistics are
    unchanged. *)
Theorem quota_failure_uses_fallback {Rows} (w : World Rows)
        (st : AgentState Rows) (user_input : string)
        (context : option Context) (c e : string) :
  is_ambiguous (check_ambiguity user_input context) = false ->
  compress_context (slice_error w) context = Returned c ->
  llm_invoke w (build_prompt user_input c) = Raised e ->
  quota_signature (lower e) = true ->
  let r := fst (process_query w st user_input context) in
  let st' := snd (process_query w st user_input context) in
  exists q,
    _get_fallback_query user_input = Some q
    /\ type r = "success"
    /\ sql r = Some q
    /\ confidence r = Tenths 7
    /\ token_usage_stats st' = token_usage_stats st
    /\ match db_run w q with
       | Returned rows =>
           result r = Some rows /\ explanation r = "Executed SQL: " ++ q
       | Raised x => result r = None /\ explanation r = x
       end.
Proof.
  intros Ha Hc Hl Hq.
  destruct (on_quota_error user_input e Hq) as (q & E1 & E2).
  exists q. split; [exact E1|].
  unfold process_query. rewrite Ha. unfold get_sql_from_nl.
  rewrite Hc, Hl, E2.
  rewrite (catalogue_accepted q (fallback_in_catalogue _ _ E1)).
  unfold validate_and_execute. fields.
  destruct (db_run w q); fields; auto 6.
Qed.

Lemma quota_failure_uses_fallback_witness :
  is_ambiguous (check_ambiguity "show the average balance of all accounts"
                  None) = false
  /\ sql (fst (process_query (Sample.world (Raised Sample.quota_exceeded))
                 Sample.fresh "show the average balance of all accounts"
                 None))
     = Some "SELECT * FROM accounts LIMIT 10".
Proof.
  split; [reflexivity|].
  destruct (quota_failure_uses_fallback
              (Sample.world (Raised Sample.quota_exceeded)) Sample.fresh
              "show the average balance of all accounts" None ""
              Sample.quota_exceeded eq_refl eq_refl eq_refl eq_refl)
    as (q & E & _ & S & _).
  rewrite S. rewrite <- E. reflexivity.
Defined.

(** X17. Whatever the question, [_get_fallback_query] returns a query that
    [validate_sql] accepts unchanged and whose rewritten form
    [check_safety] finds safe at every level. *)
Theorem fallback_passes_both_validators (user_input : string) :
  exists q,
    _get_fallback_query user_input = Some q
    /\ validate_sql q = Accepted q
    /\ forall level,
         Validator.check_safety level (Validator.apply_fixes q)
         = {| Validator.s_safe := true;
              Validator.s_message := "Safe query." |}.
Proof.
  destruct (fallback_total user_input) as [q E]. exists q.
  split; [exact E|].
  pose proof (fallback_in_catalogue _ _ E) as H.
  split; [now apply catalogue_accepted|].
  intros level. apply ValidatorClaims.check_safety_any_level.
  cbn in H.
  repeat (destruct H as [<-|H]; [vm_compute; reflexivity|]). destruct H.
Qed.

(** X18. Every call of [process_query] appends exactly two entries to the
    conversation history, the question and then the response it returns;
    the token count never decreases and the number of processed queries
    grows by at most one. *)
Theorem process_query_bookkeeping {Rows} (w : World Rows)
        (st : AgentState Rows) (user_input : string)
        (context : option Context) :
  let r := fst (process_query w st user_input context) in
  let st' := snd (process_query w st user_input context) in
  conversation_history st'
  = (conversation_history st ++ [User user_input; Agent r])%list
  /\ total_tokens (token_usage_stats st)
     <= total_tokens (token_usage_stats st')
  /\ queries_processed (token_usage_stats st)
     <= queries_processed (token_usage_stats st')
  /\ queries_processed (token_usage_stats st')
     <= queries_processed (token_usage_stats st) + 1.
Proof.
  unfold process_query.
  destruct (is_ambiguous _).
  - fields. rewrite <- app_assoc. cbn [List.app]. repeat split; lia.
  - pose proof (get_sql_from_nl_stats w (token_usage_stats st) user_input
                  context) as S.
    destruct (get_sql_from_nl w (token_usage_stats st) user_input context)
      as [g stats].
    fields. rewrite <- app_assoc. cbn [List.app].
    split; [reflexivity|].
    destruct S as [->|(p & x & ->)]; unfold log_token_usage; fields; lia.
Qed.

(** X19. On an ambiguous question [process_query] reaches neither the
    model nor the database: the response and the new state are the same
    in every world. The response has type clarification_needed,
    confidence 0.3, the questions of the classifier, no SQL and no
    result, and the token statistics are unchanged. *)
Theorem ambiguous_question_reaches_nothing {Rows} (w1 w2 : World Rows)
        (st : AgentState Rows) (user_input : string)
        (context : option Context) :
  is_ambiguous (check_ambiguity user_input context) = true ->
  let r := fst (process_query w1 st user_input context) in
  let st' := snd (process_query w1 st user_input context) in
  process_query w1 st user_input context
  = process_query w2 st user_input context
  /\ type r = "clarification_needed"
  /\ sql r = None
  /\ result r = None
  /\ confidence r = Tenths 3
  /\ follow_up_questions r
     = Some (questions (check_ambiguity user_input context))
  /\ token_usage_stats st' = token_usage_stats st.
Proof.
  intros H. unfold process_query. rewrite H. fields. auto 8.
Qed.

Lemma ambiguous_question_reaches_nothing_witness :
  is_ambiguous (check_ambiguity "recent transactions" None) = true
  /\ process_query (Sample.world (Returned "SELECT 1")) Sample.fresh
       "recent transactions" None
     = process_query (Sample.world (Raised Sample.quota_exceeded))
         Sample.fresh "recent transactions" None.
Proof.
  split; [reflexivity|].
  exact (proj1 (ambiguous_question_reaches_nothing
                  (Sample.world (Returned "SELECT 1"))
                  (Sample.world (Raised Sample.quota_exceeded))
                  Sample.fresh "recent transactions" None eq_refl)).
Defined.

(** X20. The response of [process_query] has one of three types; it is
    clarification_needed exactly when the classifier finds the question
    ambiguous, and exactly then it carries follow-up questions; it
    carries a result only when its type is success, a success always
    carries SQL, and a response without SQL has confidence 0.3 or 0.0. *)
Theorem response_shape {Rows} (w : World Rows) (st : AgentState Rows)
        (user_input : string) (context : option Context) :
  let r := fst (process_query w st user_input context) in
  (type r = "clarification_needed" \/ type r = "success" \/ type r = "error")
  /\ (type r = "clarification_needed"
      <-> is_ambiguous (check_ambiguity user_input context) = true)
  /\ (type r = "clarification_needed" <-> follow_up_questions r <> None)
  /\ (result r <> None -> type r = "success")
  /\ (type r = "success" -> sql r <> None)
  /\ (sql r = None -> confidence r = Tenths 3 \/ confidence r = Tenths 0).
Proof.
  unfold process_query.
  destruct (is_ambiguous _).
  - fields. repeat split; auto; try discriminate; try congruence.
  - destruct (get_sql_from_nl w (token_usage_stats st) user_input context)
      as [[g c|m] stats]; [destruct (validate_sql g) as [v|m]|]; fields;
      repeat split; auto; try discriminate; try congruence;
      intros H; try discriminate H; try (now elim H).
Qed.

(** X21. In a success response of [process_query] the SQL is a text that
    [validate_sql] accepts unchanged (it starts with select, in any case,
    and names one of the five tables), and the response reports the run
    of exactly that text: the rows and [Executed SQL: ...] when the
    database returns, no result and the text of the error when it raises;
    the type is success in both cases. *)
Theorem success_is_validated_then_run {Rows} (w : World Rows)
        (st : AgentState Rows) (user_input : string)
        (context : option Context) :
  let r := fst (process_query w st user_input context) in
  type r = "success" ->
  exists s,
    sql r = Some s
    /\ validate_sql s = Accepted s
    /\ startswith (lower s) "select" = true
    /\ existsb (contains (lower s)) valid_tables = true
    /\ match db_run w s with
       | Returned rows =>
           result r = Some rows /\ explanation r = "Executed SQL: " ++ s
       | Raised e => result r = None /\ explanation r = e
       end.
Proof.
  unfold process_query.
  destruct (is_ambiguous _); [fields; discriminate|].
  destruct (get_sql_from_nl w (token_usage_stats st) user_input context)
    as [[g c|m] stats]; [|fields; discriminate].
  destruct (validate_sql g) as [v|m] eqn:V; [|fields; discriminate].
  fields. intros _. exists v.
  destruct (validate_sql_accepted g v V) as (_ & A1 & _ & A3).
  split; [reflexivity|]. split; [now apply validate_sql_stable with g|].
  split; [exact A1|]. split; [exact A3|].
  unfold validate_and_execute. destruct (db_run w v); fields; auto.
Qed.

Lemma success_is_validated_then_run_witness :
  type (fst (process_query
               (Sample.world (Returned "SELECT * FROM customers;"))
               Sample.fresh "show all customers" None)) = "success"
  /\ exists s,
       sql (fst (process_query
                   (Sample.world (Returned "SELECT * FROM customers;"))
                   Sample.fresh "show all customers" None)) = Some s
       /\ validate_sql s = Accepted s.
Proof.
  assert (H : type (fst (process_query
               (Sample.world (Returned "SELECT * FROM customers;"))
               Sample.fresh "show all customers" None)) = "success")
    by (vm_compute; reflexivity).
  split; [exact H|].
  destruct (success_is_validated_then_run _ _ _ _ H) as (s & E1 & E2 & _).
  exists s. split; [exact E1 | exact E2].
Defined.

(** X22. A query generated by [get_sql_from_nl] either comes from the
    model, has confidence 0.9 and contains LIMIT (in any case), or is the
    canned query of [_get_fallback_query] with confidence 0.7, and then
    the token statistics are unchanged. *)
Theorem generated_sql_is_limited_or_canned {Rows} (w : World Rows)
        (stats : TokenStats) (user_input : string)
        (context : option Context) :
  match fst (get_sql_from_nl w stats user_input context) with
  | Success q c =>
      (c = Tenths 9 /\ contains (upper q) "LIMIT" = true)
      \/ (c = Tenths 7 /\ _get_fallback_query user_input = Some q
          /\ snd (get_sql_from_nl w stats user_input context) = stats)
  | Failure m => True
  end.
Proof.
  destruct (get_sql_from_nl_cases w stats user_input context)
    as [(q & E & L)|[(q & E & F & S)|(m & E)]]; rewrite E; auto.
Qed.

End OrchestrationExtras.

(** ** The cleaned answer of the model *)

Module ShapeFacts.
Import Py Re Agent PyMore Generation Shape PyFacts.

Lemma single_spaced_weaken s : forall b,
  single_spaced b s = true -> single_spaced false s = true.
Proof.
  destruct s as [|c s]; intros b; [reflexivity|]. cbn [single_spaced].
  destruct (is_space c); [|auto].
  destruct b; [rewrite andb_false_r; discriminate | auto].
Qed.

Lemma single_spaced_tail c s b :
  single_spaced b (String c s) = true -> single_spaced false s = true.
Proof.
  cbn [single_spaced]. destruct (is_space c).
  - intros H. apply andb_true_iff in H. destruct H as [_ H].
    now apply single_spaced_weaken with true.
  - auto.
Qed.

Lemma single_spaced_lstrip s : forall b,
  single_spaced b s = true -> single_spaced false (lstrip s) = true.
Proof.
  induction s as [|c s IH]; intros b H; [reflexivity|]. cbn [lstrip].
  destruct (is_space c) eqn:E.
  - apply IH with false. now apply single_spaced_tail with c b.
  - now apply single_spaced_weaken with b.
Qed.

Lemma single_spaced_rstrip_by f s : forall b,
  single_spaced b s = true -> single_spaced b (rstrip_by f s) = true.
Proof.
  induction s as [|c s IH]; intros b H; [reflexivity|].
  cbn [rstrip_by]. cbn [single_spaced] in H.
  destruct (rstrip_by f s) as [|d r] eqn:E.
  - destruct (f c); [reflexivity|]. cbn [single_spaced].
    destruct (is_space c); [|reflexivity].
    apply andb_true_iff in H. destruct H as [H _]. rewrite H. reflexivity.
  - cbn [single_spaced]. fold (single_spaced true (String d r)).
    fold (single_spaced false (String d r)).
    destruct (is_space c).
    + apply andb_true_iff in H. destruct H as [H1 H2]. rewrite H1.
      cbn [andb]. now apply IH.
    + now apply IH.
Qed.

Lemma single_spaced_word w rest : forall b,
  no_space w = true ->
  single_spaced b (w ++ rest)
  = single_spaced (match w with EmptyString => b | _ => false end) rest.
Proof.
  induction w as [|c w IH]; intros b H; [reflexivity|].
  cbn [no_space] in H. apply andb_true_iff in H. destruct H as [Hc Hw].
  apply negb_true_iff in Hc.
  cbn [append single_spaced]. rewrite Hc. rewrite (IH false Hw).
  now destruct w.
Qed.

Lemma no_space_snoc w c :
  no_space w = true -> is_space c = false ->
  no_space (w ++ String c EmptyString) = true.
Proof.
  intros Hw Hc. induction w as [|d w IH]; cbn [append no_space].
  - now rewrite Hc.
  - cbn [no_space] in Hw. apply andb_true_iff in Hw. destruct Hw as [H1 H2].
    rewrite H1. cbn [andb]. now apply IH.
Qed.

Lemma snoc_nonempty w c : w ++ String c EmptyString <> "".
Proof. destruct w; discriminate. Qed.

(** [s.split()] gives words. *)
Lemma split_aux_words s : forall cur,
  match cur with Some w => is_word w | None => True end ->
  Forall is_word (split_aux cur s).
Proof.
  induction s as [|c s IH]; intros cur H.
  - destruct cur; cbn [split_aux]; auto.
  - cbn [split_aux]. destruct (is_space c) eqn:E.
    + destruct cur; [constructor; [exact H|]|]; now apply IH.
    + apply IH. destruct cur as [w|].
      * destruct H as [H1 H2]. split;
          [now apply no_space_snoc | apply snoc_nonempty].
      * split; [cbn [no_space]; now rewrite E | discriminate].
Qed.

Lemma split_words s : Forall is_word (split s).
Proof. now apply split_aux_words. Qed.

Lemma concat_head sep w ws :
  exists rest, String.concat sep (w :: ws) = w ++ rest.
Proof.
  destruct ws as [|x ws]; cbn [String.concat].
  - exists "". now rewrite append_nil_r.
  - eauto.
Qed.

Lemma single_spaced_join ws :
  Forall is_word ws -> single_spaced false (join " " ws) = true.
Proof.
  unfold join. induction 1 as [|w ws [Hn He] Hws IH]; [reflexivity|].
  destruct ws as [|x ws].
  - cbn [String.concat]. rewrite <- (append_nil_r w).
    rewrite (single_spaced_word w "" false Hn). now destruct w.
  - change (String.concat " " (w :: x :: ws))
      with (w ++ " " ++ String.concat " " (x :: ws)).
    rewrite (single_spaced_word w _ false Hn).
    destruct w as [|c w]; [now elim He|].
    destruct (concat_head " " x ws) as [rest R].
    rewrite R in IH |- *.
    inversion Hws as [|? ? [Hx Hxe] ?]; subst.
    change (" " ++ x ++ rest) with (String " " (x ++ rest)).
    cbn [single_spaced is_space]. cbn.
    rewrite (single_spaced_word x rest true Hx).
    rewrite (single_spaced_word x rest false Hx) in IH.
    destruct x; [now elim Hxe | exact IH].
Qed.

Lemma single_spaced_no_double s : forall b,
  single_spaced b s = true -> find_by same "  " s = None.
Proof.
  induction s as [|c s IH]; intros b H; [reflexivity|].
  cbn [find_by].
  assert (P : prefix_by same "  " (String c s) = false).
  { cbn [prefix_by]. unfold same.
    destruct (Ascii.eqb " " c) eqn:E1; [|reflexivity].
    apply Ascii.eqb_eq in E1. subst c.
    destruct s as [|d s]; [reflexivity|]. cbn [prefix_by].
    destruct (Ascii.eqb " " d) eqn:E2; [|reflexivity].
    apply Ascii.eqb_eq in E2. subst d.
    cbn [single_spaced] in H. change (is_space " "%char) with true in H.
    cbv iota in H. change (Ascii.eqb " " " ") with true in H.
    cbn [negb andb] in H. destruct b; discriminate H. }
  rewrite P.
  assert (T : single_spaced false s = true)
    by (now apply single_spaced_tail with c b).
  now rewrite (IH false T).
Qed.

Lemma single_spaced_blanks s : forall b,
  single_spaced b s = true ->
  forall c, In c (list_ascii_of_string s) -> is_space c = true ->
            c = " "%char.
Proof.
  induction s as [|d s IH]; intros b H c Hin Hc; [destruct Hin|].
  cbn [list_ascii_of_string] in Hin. destruct Hin as [<-|Hin].
  - cbn [single_spaced] in H. rewrite Hc in H.
    apply andb_true_iff in H. destruct H as [H _].
    apply andb_true_iff in H. destruct H as [H _].
    now apply Ascii.eqb_eq in H.
  - apply (IH false); auto. now apply single_spaced_tail with d b.
Qed.

Lemma clean_response_single_spaced response_text :
  single_spaced false (clean_response response_text) = true.
Proof.
  unfold clean_response, rstrip_semicolons, strip, rstrip.
  apply single_spaced_rstrip_by, single_spaced_rstrip_by.
  apply single_spaced_lstrip with false.
  apply single_spaced_join, split_words.
Qed.

End ShapeFacts.

Module ShapeExtras.
Import Py Re Agent PyMore Generation Shape PyFacts ShapeFacts.

(** X23. The cleaned answer of the model is one line: it has no two
    consecutive blanks, no whitespace other than the blank, and it does
    not end with a semicolon. *)
Theorem clean_response_is_one_line (response_text : string) :
  contains (clean_response response_text) "  " = false
  /\ (forall c, In c (list_ascii_of_string (clean_response response_text)) ->
                is_space c = true -> c = " "%char)
  /\ rstrip_semicolons (clean_response response_text)
     = clean_response response_text.
Proof.
  pose proof (clean_response_single_spaced response_text) as H.
  split; [|split].
  - unfold contains, find.
    now rewrite (single_spaced_no_double _ false H).
  - now apply single_spaced_blanks with false.
  - unfold clean_response, rstrip_semicolons.
    apply OrchestrationFacts.rstrip_by_idempotent.
Qed.

End ShapeExtras.

(** ** The agent and the validator together *)

Module IntegrationFacts.
Import Py Re Agent PyMore Generation Components PyFacts OrchestrationFacts.

Lemma validate_query_valid_inv v q :
  Validator.valid (fst (Validator.validate_query v q)) = true ->
  Validator.safe (fst (Validator.validate_query v q)) = true.
Proof.
  unfold Validator.validate_query. generalize (Validator.apply_fixes q).
  intros s.
  destruct (Validator.check_safety (Validator.validation_level v) s)
    as [sf sm].
  destruct (Validator.parse_sql v s) as [pv pm ps].
  destruct (Validator._validate_schema v s) as [cv cm].
  cbn [Validator.s_safe Validator.p_valid Validator.c_valid].
  destruct sf; cbn [negb fst Validator.valid Validator.safe];
    [|discriminate].
  destruct pv; cbn [negb fst Validator.valid Validator.safe];
    [|discriminate].
  destruct cv; cbn [negb fst Validator.valid Validator.safe];
    [auto|discriminate].
Qed.

Lemma result_needs_acceptance {Rows} (w : World Rows) (st : AgentState Rows)
      user_input context :
  result (fst (process_query w st user_input context)) <> None ->
  exists s, sql (fst (process_query w st user_input context)) = Some s
            /\ validate_sql s = Accepted s.
Proof.
  unfold process_query.
  destruct (is_ambiguous _); [cbn [fst result]; intros H; now elim H|].
  destruct (get_sql_from_nl w (token_usage_stats st) user_input context)
    as [[g c|m] stats]; [|cbn [fst result]; intros H; now elim H].
  destruct (validate_sql g) as [v|m] eqn:V;
    [|cbn [fst result]; intros H; now elim H].
  cbn [fst sql]. intros _. exists v. split; [reflexivity|].
  now apply validate_sql_stable with g.
Qed.

End IntegrationFacts.

Module IntegrationExtras.
Import Py Re Agent PyMore Generation Components PyFacts OrchestrationFacts
       IntegrationFacts.

(** X24. When [process_user_query] returns an answer, its SQL,
    explanation, confidence and result are those of the response of the
    agent, and the validator has accepted the query, safe and valid,
    after rewriting it: the SQL of the answer is the text of the agent,
    the SQL in the validation is the rewritten text. The answer has rows
    only if [validate_sql] accepts its SQL; the response of the agent may
    well be of type error. *)
Theorem answer_passed_the_validator {Rows} (w : World Rows)
        (agent : AgentState Rows) (validator : Validator.SQLValidator)
        (user_input : string) (s e : string) (c : Confidence)
        (rows : option Rows) (validation : Validator.ValidationResult) :
  fst (fst (process_user_query w agent validator user_input))
  = Answer s e c rows validation ->
  let r := fst (process_query w agent user_input None) in
  sql r = Some s
  /\ explanation r = e /\ confidence r = c /\ result r = rows
  /\ validation = fst (Validator.validate_query validator s)
  /\ Validator.safe validation = true
  /\ Validator.valid validation = true
  /\ Validator.sql validation = Some (Validator.apply_fixes s)
  /\ (rows <> None -> validate_sql s = Accepted s).
Proof.
  unfold process_user_query.
  pose proof (result_needs_acceptance w agent user_input None) as A.
  destruct (process_query w agent user_input None) as [r agent'].
  cbn [fst] in *.
  destruct (sql r) as [[|ch rest]|] eqn:Q; cbn [fst]; try discriminate.
  pose proof (validate_query_valid_inv validator (String ch rest)) as Hs.
  pose proof (ValidatorExtras.validate_query_safe_inv validator
                (String ch rest)) as Hi.
  destruct (Validator.validate_query validator (String ch rest))
    as [val validator'] eqn:V.
  cbn [fst] in *.
  destruct (Validator.valid val) eqn:Hv; cbn [negb fst]; [|discriminate].
  intros H. injection H as <- <- <- <- <-.
  specialize (Hs eq_refl). destruct (Hi Hs) as (_ & _ & _ & Hq).
  rewrite V. cbn [fst].
  split; [reflexivity|]. split; [reflexivity|]. split; [reflexivity|].
  split; [reflexivity|]. split; [reflexivity|]. split; [exact Hs|].
  split; [exact Hv|]. split; [exact Hq|].
  intros Hr. destruct (A Hr) as (s' & E1 & E2).
  injection E1 as <-. exact E2.
Qed.

Lemma answer_passed_the_validator_witness :
  fst (fst (process_user_query
              (Sample.world (Returned "SELECT * FROM costumers"))
              Sample.fresh (Bank.validator "strict") "show all customers"))
  = Answer "SELECT * FROM costumers LIMIT 1000"
      "Query must reference at least one valid table" (Tenths 5) None
      (fst (Validator.validate_query (Bank.validator "strict")
              "SELECT * FROM costumers LIMIT 1000"))
  /\ Validator.sql
       (fst (Validator.validate_query (Bank.validator "strict")
               "SELECT * FROM costumers LIMIT 1000"))
     = Some (Validator.apply_fixes "SELECT * FROM costumers LIMIT 1000").
Proof.
  assert (H : fst (fst (process_user_query
              (Sample.world (Returned "SELECT * FROM costumers"))
              Sample.fresh (Bank.validator "strict") "show all customers"))
  = Answer "SELECT * FROM costumers LIMIT 1000"
      "Query must reference at least one valid table" (Tenths 5) None
      (fst (Validator.validate_query (Bank.validator "strict")
              "SELECT * FROM costumers LIMIT 1000")))
    by (vm_compute; reflexivity).
  split; [exact H|].
  destruct (answer_passed_the_validator _ _ _ _ _ _ _ _ _ H)
    as (_ & _ & _ & _ & _ & _ & _ & E & _).
  exact E.
Defined.

(** X25. On an ambiguous question [process_user_query] returns an error
    whose text is the explanation of the ambiguity; the validator is not
    consulted and is returned as it was. *)
Theorem ambiguous_question_is_reported_as_error {Rows} (w : World Rows)
        (agent : AgentState Rows) (validator : Validator.SQLValidator)
        (user_input : string) :
  is_ambiguous (check_ambiguity user_input None) = true ->
  process_user_query w agent validator user_input
  = (NoSql (Agent.explanation (check_ambiguity user_input None)),
     snd (process_query w agent user_input None), validator).
Proof.
  intros H. unfold process_user_query, process_query. rewrite H.
  reflexivity.
Qed.

Lemma ambiguous_question_is_reported_as_error_witness :
  is_ambiguous (check_ambiguity "recent transactions" None) = true
  /\ fst (fst (process_user_query (Sample.world (Returned "SELECT 1"))
                 Sample.fresh (Bank.validator "strict")
                 "recent transactions"))
     = NoSql "I need to know what time period you consider 'recent'.".
Proof.
  split; [reflexivity|].
  rewrite (ambiguous_question_is_reported_as_error
             (Sample.world (Returned "SELECT 1")) Sample.fresh
             (Bank.validator "strict") "recent transactions" eq_refl).
  reflexivity.
Defined.

End IntegrationExtras.

(** ** The application *)

Module AppFacts.
Import Py Re Agent PyMore Generation App PyFacts OrchestrationFacts
       IntegrationFacts.

(** What a response of [process_query] that is neither a request for
    clarification nor an error says: its SQL has passed [validate_sql]
    and the agent has run it. *)
Lemma process_query_success {Rows} (w : World Rows) (st : AgentState Rows)
      user_input context :
  let r := fst (process_query w st user_input context) in
  String.eqb (type r) "clarification_needed" = false ->
  String.eqb (type r) "error" = false ->
  exists s,
    sql r = Some s
    /\ type r = "success"
    /\ validate_sql s = Accepted s
    /\ Generation.explanation r = x_explanation (validate_and_execute w s)
    /\ result r = x_result (validate_and_execute w s).
Proof.
  unfold process_query.
  destruct (is_ambiguous _); [cbn [fst type]; discriminate|].
  destruct (get_sql_from_nl w (token_usage_stats st) user_input context)
    as [[g c|m] stats]; [|cbn [fst type]; intros _; discriminate].
  destruct (validate_sql g) as [v|m] eqn:V;
    [|cbn [fst type]; intros _; discriminate].
  cbn [fst type sql Generation.explanation result]. intros _ _.
  exists v. repeat split. now apply validate_sql_stable with g.
Qed.

Lemma accepted_nonempty s :
  validate_sql s = Accepted s -> exists c rest, s = String c rest.
Proof.
  intros H. destruct (validate_sql_accepted s s H) as (_ & A & _).
  destruct s as [|c rest]; [discriminate A|eauto].
Qed.

(** A model answer that is a clean SELECT goes through [get_sql_from_nl]
    with the agent's corrections only. *)
Lemma get_sql_from_nl_answer {Rows} (w : World Rows) stats user_input
      context c content :
  compress_context (slice_error w) context = Returned c ->
  llm_invoke w (build_prompt user_input c) = Returned content ->
  nonempty_line (clean_response (strip content))
  && startswith (upper (clean_response (strip content))) "SELECT" = true ->
  fst (get_sql_from_nl w stats user_input context)
  = Success (correct_sql (clean_response (strip content))) (Tenths 9).
Proof.
  intros Hc Hl Hs. unfold get_sql_from_nl. rewrite Hc, Hl, Hs. reflexivity.
Qed.

(** The flags of a validation agree, and its [sql] entry is the
    rewritten text exactly when they are set. *)
Lemma validate_query_verdict v q :
  let r := fst (Validator.validate_query v q) in
  Validator.valid r = Validator.safe r
  /\ Validator.sql r
     = (if Validator.safe r then Some (Validator.apply_fixes q) else None).
Proof.
  unfold Validator.validate_query. generalize (Validator.apply_fixes q).
  intros s.
  destruct (Validator.check_safety (Validator.validation_level v) s)
    as [sf sm].
  destruct (Validator.parse_sql v s) as [pv pm ps].
  destruct (Validator._validate_schema v s) as [cv cm].
  cbn [Validator.s_safe Validator.p_valid Validator.c_valid].
  destruct sf; cbn [negb fst Validator.valid Validator.safe Validator.sql];
    [|auto].
  destruct pv; cbn [negb fst Validator.valid Validator.safe Validator.sql];
    [|auto].
  destruct cv; cbn [negb fst Validator.valid Validator.safe Validator.sql];
    auto.
Qed.

End AppFacts.

Module AppExtras.
Import Py Re Agent PyMore Generation App PyFacts OrchestrationFacts
       IntegrationFacts AppFacts.


End AppExtras.

Module AppClaims.
Import Py Re Agent PyMore Generation App Expected PyFacts OrchestrationFacts
       IntegrationFacts AppFacts.

(** The response of the agent to the question, whatever its database
    does with the query. *)
Lemma names_response {Rows} (w : World Rows) (agent : AgentState Rows) :
  llm_invoke w (build_prompt names_question "") = Returned names_answer ->
  fst (process_query w agent names_question None)
  = {| type := "success"; sql := Some names_query;
       Generation.explanation :=
         x_explanation (validate_and_execute w names_query);
       follow_up_questions := None; confidence := Tenths 9;
       result := x_result (validate_and_execute w names_query) |}.
Proof.
  intros Hl. unfold process_query.
  replace (is_ambiguous (check_ambiguity names_question None)) with false
    by (vm_compute; reflexivity).
  pose proof (get_sql_from_nl_answer w (token_usage_stats agent)
                names_question None "" names_answer eq_refl Hl) as G.
  destruct (get_sql_from_nl w (token_usage_stats agent) names_question None)
    as [g stats].
  cbn [fst] in G. rewrite G by (vm_compute; reflexivity).
  replace (correct_sql (clean_response (strip names_answer)))
    with names_query by (vm_compute; reflexivity).
  replace (validate_sql names_query) with (Accepted names_query)
    by (vm_compute; reflexivity).
  reflexivity.
Qed.

(** The verdict of the validator on the query of the agent. *)
Lemma names_verdict (execute : string -> option string) (level : string) :
  execute ("EXPLAIN " ++ names_query_fixed) = None ->
  fst (Validator.validate_query
         (Validator.new_validator execute Bank.schema level) names_query)
  = {| Validator.safe := true; Validator.valid := true;
       Validator.message := "Query is valid.";
       Validator.suggestion := None;
       Validator.sql := Some names_query_fixed |}.
Proof.
  intros He. unfold Validator.validate_query.
  replace (Validator.apply_fixes names_query) with names_query_fixed
    by (vm_compute; reflexivity).
  rewrite (ValidatorClaims.check_safety_any_level
             (Validator.validation_level
                (Validator.new_validator execute Bank.schema level)))
    by (vm_compute; reflexivity).
  cbn [Validator.s_safe negb]. unfold Validator.parse_sql.
  cbn [Validator.db_execute Validator.new_validator].
  rewrite He. cbn [Validator.p_valid negb].
  replace (Validator._validate_schema
             (Validator.new_validator execute Bank.schema level)
             names_query_fixed)
    with {| Validator.c_valid := true;
            Validator.c_message := "Schema validation passed." |}
    by (vm_compute; reflexivity).
  reflexivity.
Qed.

(** C10. The validator rewrites its argument before checking it, and
    the application runs the rewritten text. When the model answers the
    question [names_question] with [names_answer], the agent makes
    [names_query] of it, which passes the agent's own check. The
    validator (at any level, with the bank schema and an engine that
    plans the rewritten statement) turns [c.name] into the concatenation
    of the first and the last name, accepts, and returns the rewritten
    text, which differs from the text it was given. [handle_user_query]
    then hands the rewritten text to the database manager and stores it
    with the rows. The explanation stored with it is that of the agent,
    which had run its own text before. *)
Theorem validator_rewrites_its_input {Rows Row} (w : AppWorld Rows Row)
        (agent : AgentState Rows) (session : Session Row)
        (execute : string -> option string) (level : string) :
  llm_invoke (agent_world w) (build_prompt names_question "")
  = Returned names_answer ->
  execute ("EXPLAIN " ++ names_query_fixed) = None ->
  let v := Validator.new_validator execute Bank.schema level in
  let r := fst (Validator.validate_query v names_query) in
  let session' :=
    fst (fst (handle_user_query w agent v session names_question None)) in
  sql (fst (process_query (agent_world w) agent names_question None))
  = Some names_query
  /\ Validator.safe r = true /\ Validator.valid r = true
  /\ Validator.sql r = Some names_query_fixed
  /\ Validator.sql r <> Some names_query
  /\ last_query_result session'
     = Some
         (match execute_query w names_query_fixed with
          | Returned (row :: rows) =>
              Executed names_query_fixed (row :: rows)
                (x_explanation
                   (validate_and_execute (agent_world w) names_query))
                (Some (Tenths 9)) None (S (List.length rows))
          | Returned [] =>
              Executed names_query_fixed []
                (x_explanation
                   (validate_and_execute (agent_world w) names_query))
                None
                (Some "Query executed successfully but returned no results.")
                0
          | Raised e =>
              ExecutionFailed ("Database execution failed: " ++ e)
                names_query_fixed
                "Please check your query syntax or try a different approach."
          end).
Proof.
  intros Hl He v r session'.
  pose proof (names_response (agent_world w) agent Hl) as P.
  pose proof (names_verdict execute level He) as R.
  fold v in R. fold r in R.
  split; [now rewrite P|].
  split; [now rewrite R|]. split; [now rewrite R|].
  split; [now rewrite R|].
  split; [rewrite R; cbn [Validator.sql]; discriminate|].
  subst session'. unfold handle_user_query.
  destruct (process_query (agent_world w) agent names_question None)
    as [resp agent'].
  cbn [fst] in P. subst resp.
  cbn [type sql Generation.explanation confidence follow_up_questions].
  change (String.eqb "success" "clarification_needed") with false.
  change (String.eqb "success" "error") with false.
  cbv iota. unfold names_query at 1. fold names_query.
  subst r.
  destruct (Validator.validate_query v names_query) as [val v'].
  cbn [fst] in R. subst val.
  cbn [Validator.safe Validator.valid Validator.sql andb negb].
  destruct (execute_query w names_query_fixed) as [[|row rows]|e];
    reflexivity.
Qed.

Lemma validator_rewrites_its_input_witness :
  llm_invoke (agent_world (Sample.desk (Returned names_answer)))
    (build_prompt names_question "") = Returned names_answer
  /\ Bank.accepting ("EXPLAIN " ++ names_query_fixed) = None
  /\ Validator.sql
       (fst (Validator.validate_query (Bank.validator "strict") names_query))
     = Some names_query_fixed
  /\ last_query_result
       (fst (fst (handle_user_query (Sample.desk (Returned names_answer))
                    Sample.fresh (Bank.validator "strict") Sample.blank
                    names_question None)))
     = Some (Executed names_query_fixed []
               "Executed SQL: SELECT c.name FROM customers c LIMIT 1000"
               None
               (Some "Query executed successfully but returned no results.")
               0).
Proof.
  split; [reflexivity|]. split; [reflexivity|].
  destruct (validator_rewrites_its_input
              (Sample.desk (Returned names_answer)) Sample.fresh Sample.blank
              Bank.accepting "strict" eq_refl eq_refl)
    as (_ & _ & _ & E & _ & L).
  split; [exact E | exact L].
Defined.

End AppClaims.
